(** * lokiservice.js: registry, dispatch and statistics of the loki node service

    A shallow embedding of [lokiservice.js] and the properties of its registry
    ([getDatabase]), of its dispatchers ([processGet] ... [processDynamicViewTransform]),
    of its timing wrapper ([startTiming], [stopTiming]) and of the exported
    request surface ([module.exports]).

    What the module owns is modelled as it is written: the two global objects
    [databaseRegistry] and [serviceStats], the global [started], and the order
    in which each function reads and writes them.  What the
    module only calls is a collaborator: the initializer behind
    [require(serviceName).init], the lokijs database it hands back, [JSON],
    [parseInt] and [process.hrtime].  Collaborators are the fields of the class
    [Host]; the theorems of the section [Properties] are proved for an
    arbitrary host, and a concrete host ([Demo]: a small database and the
    example initializer) is used to run the code on explicit requests, in the
    module [Runs].

    Conventions.
    - A JavaScript object used as a dictionary is a [gmap string _]: own
      properties only.  The order of its keys, which [for ... in] goes by, is
      kept beside it ([created], [forIn]).  The prototype chain is not
      modelled: the names of initializers and of files are taken not to be
      names that every object inherits ([inherited]), and a theorem that
      depends on it says so.
    - A JavaScript number is a rational ([Q]); the rounding of doubles is not
      modelled.  [NaN] is a value of its own.
    - A thrown exception is the [Throw] outcome of the state-and-error monad
      [M]; the state reached when the exception was thrown is kept, since
      JavaScript rolls nothing back.
    - An initializer answers through a callback.  The callback may run before
      [init] returns or at a later turn of the event loop (the example
      initializer answers from lokijs' [autoloadCallback], hence later).  The
      model therefore splits [getDatabase] where the source splits it: the
      statements up to the call of [init], and the body of the callback given
      to [init], which runs when the answer is delivered ([initDone]). *)

From Stdlib Require Import QArith.
From stdpp Require Import base option list gmap strings pretty sorting.

Set Warnings "-register-all".
Local Open Scope string_scope.
Local Open Scope list_scope.
Local Open Scope Z_scope.

(** ** JavaScript values *)

Module JS.

Inductive value :=
| VUndefined
| VNull
| VNaN
| VBool (b : bool)
| VNum (q : Q)
| VStr (s : string)
| VArr (items : list value)
| VObj (fields : gmap string value).

(** A record of the store, a payload, a stats snapshot: own properties. *)
Abbreviation obj := (gmap string value).

Inductive exn :=
| TypeError
| SyntaxError
| Error (message : string).

(** [typeof v === "string"] *)
Definition is_string (v : value) : bool :=
  match v with VStr _ => true | _ => false end.

(** ToBoolean, as used by [if (v)], [!v] and [v ? a : b]. *)
Definition truthy (v : value) : bool :=
  match v with
  | VUndefined | VNull | VNaN => false
  | VBool b => b
  | VNum q => negb (Qeq_bool q 0)
  | VStr s => negb (String.eqb s EmptyString)
  | VArr _ | VObj _ => true
  end.

(** [typeof v === 'undefined' || v === null] *)
Definition nullish (v : value) : bool :=
  match v with VUndefined | VNull => true | _ => false end.

(** [v === 0] (strict: only a number equal to zero). *)
Definition strict_zero (v : value) : bool :=
  match v with VNum q => Qeq_bool q 0 | _ => false end.

(** The own enumerable properties of a value, as [Object.assign] reads them
    from its source: the fields of an object, the elements of an array and
    the characters of a string under their decimal indices, nothing for
    the other primitives. *)
Definition indexed {A} (f : A → value) (l : list A) : obj :=
  list_to_map (imap (λ i x, (pretty i, f x)) l).

Definition own_props (v : value) : obj :=
  match v with
  | VObj o => o
  | VArr l => indexed id l
  | VStr s => indexed (λ c, VStr (String c EmptyString)) (String.list_ascii_of_string s)
  | _ => ∅
  end.

(** The names every object answers to through [Object.prototype]. *)
Definition inherited (name : string) : bool :=
  bool_decide (name ∈ ["constructor"; "__proto__"; "hasOwnProperty"; "isPrototypeOf";
                       "propertyIsEnumerable"; "toLocaleString"; "toString"; "valueOf";
                       "__defineGetter__"; "__defineSetter__"; "__lookupGetter__";
                       "__lookupSetter__"]).

(** An array index: the decimal text, without a leading zero, of a number
    below [2^32 - 1]. *)
Definition digit_of (c : Ascii.ascii) : option N :=
  let n := Ascii.N_of_ascii c in
  if bool_decide (48 ≤ n ≤ 57)%N then Some (n - 48)%N else None.

Fixpoint digits_of (acc : N) (s : string) : option N :=
  match s with
  | EmptyString => Some acc
  | String c s => d ← digit_of c; digits_of (10 * acc + d) s
  end.

Definition array_index (k : string) : option N :=
  match k with
  | EmptyString => None
  | String c EmptyString => digit_of c
  | String c _ =>
      if bool_decide (digit_of c = Some 0%N) then None
      else n ← digits_of 0 k; if bool_decide (n ≤ 4294967294)%N then Some n else None
  end.

(** The order in which [for ... in] visits the own keys of an object whose
    keys were created in the order [keys]: the array indices first, in
    ascending order, then the other keys in the order of their creation. *)
Definition index_le (a b : N * string) : Prop := (a.1 ≤ b.1)%N.

#[global] Instance index_le_dec : RelDecision index_le.
Proof. intros a b. unfold index_le. apply _. Defined.

Definition forIn (keys : list string) : list string :=
  (snd <$> merge_sort index_le (omap (λ k, (λ n, (n, k)) <$> array_index k) keys))
  ++ filter (λ k, array_index k = None) keys.

End JS.
Export JS.

(** ** Outcomes and the monad of the module *)

Inductive res (A : Type) :=
| Ok (a : A)
| Throw (e : exn).
Arguments Ok {A} a.
Arguments Throw {A} e.

Definition is_ok {A} (r : res A) : bool :=
  match r with Ok _ => true | Throw _ => false end.

(** [v.k] for a key [k] that is neither an index, [length] nor a member of a
    prototype (the module reads [$loki] this way): reading a property of
    [null] or [undefined] throws, an object answers with its own property,
    any other value with [undefined]. *)
Definition get_prop (v : value) (k : string) : res value :=
  match v with
  | VUndefined | VNull => Throw TypeError
  | VObj o => Ok (default VUndefined (o !! k))
  | _ => Ok VUndefined
  end.

(** [v.hasOwnProperty(k)], for such a key.  The method is inherited; an object
    that carries an own property named [hasOwnProperty] shadows it, and the
    values a payload can hold are never callable. *)
Definition hasOwnProperty (v : value) (k : string) : res bool :=
  match v with
  | VUndefined | VNull => Throw TypeError
  | VObj o =>
      if bool_decide (is_Some (o !! "hasOwnProperty")) then Throw TypeError
      else Ok (bool_decide (is_Some (o !! k)))
  | _ => Ok false
  end.

(** [delete v.k] *)
Definition delete_prop (v : value) (k : string) : value :=
  match v with
  | VObj o => VObj (delete k o)
  | _ => v
  end.

(** [Object.assign(target, source)] for a target that is a record or [null]:
    every own property of the source is written onto the target. *)
Definition Object_assign (target : option obj) (source : value) : res obj :=
  match target with
  | None => Throw TypeError
  | Some doc => Ok (own_props source ∪ doc)
  end.

(** ** Statistics buckets

    [serviceStats.requestStats] and the [stats] object of every registry entry
    have the same sixteen fields; [statName + "Requests"] and
    [statName + "Time"] select one pair of them. *)

Inductive StatName :=
| s_get | s_find | s_transform | s_dynamicView | s_insert | s_update | s_remove.

Record Stats := {
  totalRequests : Z;        totalTime : Q;
  getRequests : Z;          getTime : Q;
  findRequests : Z;         findTime : Q;
  transformRequests : Z;    transformTime : Q;
  dynamicViewRequests : Z;  dynamicViewTime : Q;
  insertRequests : Z;       insertTime : Q;
  updateRequests : Z;       updateTime : Q;
  removeRequests : Z;       removeTime : Q
}.

Definition zero_stats : Stats :=
  {| totalRequests := 0;       totalTime := 0;
     getRequests := 0;         getTime := 0;
     findRequests := 0;        findTime := 0;
     transformRequests := 0;   transformTime := 0;
     dynamicViewRequests := 0; dynamicViewTime := 0;
     insertRequests := 0;      insertTime := 0;
     updateRequests := 0;      updateTime := 0;
     removeRequests := 0;      removeTime := 0 |}.

(** [st[statName + "Requests"]] and [st[statName + "Time"]] *)
Definition stat_requests (k : StatName) (st : Stats) : Z :=
  match k with
  | s_get => getRequests st | s_find => findRequests st
  | s_transform => transformRequests st | s_dynamicView => dynamicViewRequests st
  | s_insert => insertRequests st | s_update => updateRequests st
  | s_remove => removeRequests st
  end.

Definition stat_time (k : StatName) (st : Stats) : Q :=
  match k with
  | s_get => getTime st | s_find => findTime st
  | s_transform => transformTime st | s_dynamicView => dynamicViewTime st
  | s_insert => insertTime st | s_update => updateTime st
  | s_remove => removeTime st
  end.

(** [st.totalRequests++; st.totalTime += totalMS] *)
Definition add_total (totalMS : Q) (st : Stats) : Stats :=
  {| totalRequests := totalRequests st + 1; totalTime := (totalTime st + totalMS)%Q;
     getRequests := getRequests st;         getTime := getTime st;
     findRequests := findRequests st;       findTime := findTime st;
     transformRequests := transformRequests st; transformTime := transformTime st;
     dynamicViewRequests := dynamicViewRequests st; dynamicViewTime := dynamicViewTime st;
     insertRequests := insertRequests st;   insertTime := insertTime st;
     updateRequests := updateRequests st;   updateTime := updateTime st;
     removeRequests := removeRequests st;   removeTime := removeTime st |}.

(** [st[statName + "Requests"] := n; st[statName + "Time"] := t] *)
Definition set_stat (k : StatName) (n : Z) (t : Q) (st : Stats) : Stats :=
  let pick (k' : StatName) := match k, k' with
    | s_get, s_get | s_find, s_find | s_transform, s_transform
    | s_dynamicView, s_dynamicView | s_insert, s_insert
    | s_update, s_update | s_remove, s_remove => true
    | _, _ => false end in
  let rq k' := if pick k' then n else stat_requests k' st in
  let tm k' := if pick k' then t else stat_time k' st in
  {| totalRequests := totalRequests st;  totalTime := totalTime st;
     getRequests := rq s_get;            getTime := tm s_get;
     findRequests := rq s_find;          findTime := tm s_find;
     transformRequests := rq s_transform; transformTime := tm s_transform;
     dynamicViewRequests := rq s_dynamicView; dynamicViewTime := tm s_dynamicView;
     insertRequests := rq s_insert;      insertTime := tm s_insert;
     updateRequests := rq s_update;      updateTime := tm s_update;
     removeRequests := rq s_remove;      removeTime := tm s_remove |}.

(** The four statements that [stopTiming] applies to one bucket. *)
Definition record_request (k : StatName) (totalMS : Q) (st : Stats) : Stats :=
  let st1 := add_total totalMS st in
  set_stat k (stat_requests k st1 + 1) (stat_time k st1 + totalMS)%Q st1.

(** ** Registry, events and the state of the module *)

Definition handle := nat.

(** What an initializer hands to its callback: [null], a database, or any
    other value ([undefined], a number, an object that is no database). *)
Inductive dbref :=
| INull
| IOther
| IDb (h : handle).

Record RegistryEntry := {
  instance : dbref;
  stats : Stats
}.

(** The calls the module makes on a database. *)
Inductive StoreCall :=
| c_get (collection : string) (id : value)
| c_find (collection : string) (query : value)
| c_insert (collection : string) (doc : value)
| c_update (collection : string) (doc : obj)
| c_remove (collection : string) (doc : value)
| c_chain (collection : string) (transform params : value) (data : bool)
| c_view_data (collection view : string)
| c_view_branch (collection view : string) (transform params : value) (raw : option value)
| c_close
| c_describe.

(** Everything the module does to its collaborators, in order. *)
Inductive Event :=
| EvInit (serviceName filename : string)
| EvStore (db : handle) (call : StoreCall)
| EvCallback (err result : value)
| EvLog (line : string).

(** The closures of the source, as data.  [ResponseCallback] is the function
    every export passes to its dispatcher; [DbCallback] is the function a
    dispatcher passes to [getDatabase], with the variables it captures. *)
Inductive ResponseCallback :=
| export_cb (statName : StatName) (serviceName filename : string).

Inductive DbCallback :=
| processGet_cb (collection : string) (id : value) (callback : ResponseCallback)
| processFind_cb (collection : string) (query : value) (callback : ResponseCallback)
| processInsert_cb (collection : string) (doc : value) (callback : ResponseCallback)
| processUpdate_cb (collection : string) (doc : value) (callback : ResponseCallback)
| processRemove_cb (collection : string) (doc : value) (callback : ResponseCallback)
| processTransform_cb (collection : string) (transform transformParams : value)
    (dataInvoke : value) (callback : ResponseCallback)
| processDynamicView_cb (collection viewname : string) (transformName transformParams : value)
    (callback : ResponseCallback)
| processDynamicViewTransform_cb (collection viewname : string)
    (transformName transformParams rawTransform : value) (callback : ResponseCallback).

(** An initializer that was called and has not answered yet. *)
Record Pending := {
  p_serviceName : string;
  p_filename : string;
  p_construction : nat;
  p_callback : DbCallback
}.

(** The state of the module.  [created] is the order in which the keys of
    [databaseRegistry] ([(s, None)]) and of its buckets ([(s, Some f)]) were
    created.  [serviceStats] holds the fields of the object [serviceStats]
    other than [requestStats], which has a field of its own. *)
Record World (E : Type) := {
  databaseRegistry : gmap string (gmap string RegistryEntry);
  requestStats : Stats;
  started : Q;
  pending : list Pending;
  trace : list Event;
  ext : E;
  created : list (string * option string);
  serviceStats : obj
}.
Arguments databaseRegistry {E} _.
Arguments created {E} _.
Arguments serviceStats {E} _.
Arguments requestStats {E} _.
Arguments started {E} _.
Arguments pending {E} _.
Arguments trace {E} _.
Arguments ext {E} _.

(** One collection as [instanceStats] reads it. *)
Record CollectionInfo := {
  ci_name : string;
  ci_count : Z;
  ci_dirty : bool;
  ci_cloneObjects : bool;
  ci_adaptiveBinaryIndices : bool;
  ci_binaryIndices : list string;
  ci_uniqueNames : list string;
  ci_transforms : list string;
  ci_DynamicViews : list string
}.

(** What [stats] reads from the process: the object it writes to
    [memoryUsage] (the three figures of [process.memoryUsage()], each with its
    text by [formatBytes]), [process.uptime()], and the two times of
    [process.cpuUsage()] in milliseconds with the text made of them.  The
    arithmetic of these texts is that of doubles and is not modelled. *)
Record ProcessFigures := {
  pf_memoryUsage : value;
  pf_nodeUptime : value;
  pf_cpuUsageUser : value;
  pf_cpuUsageSystem : value;
  pf_cpuUsage : value
}.

(** ** The collaborators

    [E] is the state of everything outside the module: the databases the
    initializers built, and the clock.  A call that reads answers from [E]; a
    call that writes also returns the next [E]. *)
Class Host (E : Type) := {
  JSON_parse : value → res value;
  JSON_stringify : value → value;
  (** [parseInt(s, 10)] *)
  parseInt10 : string → value;
  hrtime : E → (Z * Z) * E;
  (** [require(serviceName).init(filename, _)]: throws, or returns having
      begun a construction, named by a token of the host's choice. *)
  require_init : string → string → E → res nat * E;
  (** The initializer calls the callback it was given for that construction:
      what it passes. *)
  init_answer : nat → E → dbref * E;
  (** [db.getCollection(c) !== null] and [coll.getDynamicView(v) !== null] *)
  getCollection : E → handle → string → bool;
  getDynamicView : E → handle → string → string → bool;
  coll_get : E → handle → string → value → res (option obj);
  coll_find : E → handle → string → value → res value;
  coll_insert : E → handle → string → value → res value * E;
  coll_update : E → handle → string → obj → res value * E;
  coll_remove : E → handle → string → value → res value * E;
  (** [coll.chain(transform, params)], followed by [.data()] when asked *)
  coll_chain : E → handle → string → value → value → bool → res value;
  (** [dv.data()] *)
  view_data : E → handle → string → string → res value;
  (** [dv.branchResultset(transform, params)], then [.transform(raw)] when
      given, then [.data()] *)
  view_branch : E → handle → string → string → value → value → option value → res value;
  db_close : E → handle → res unit * E;
  db_field : E → handle → string → value;
  db_collections : E → handle → list CollectionInfo;
  (** [processVersions], [start], [platform], [arch] and [execPath], as the
      module reads them when it is loaded *)
  process_static : E → obj;
  process_figures : E → ProcessFigures
}.

(** ** The module *)

Section Service.
Context {E : Type} `{!Host E}.

(** State and exceptions: a computation runs from a state of the module to an
    outcome and the state reached. *)
Definition M (A : Type) : Type := World E → res A * World E.

#[global] Instance M_ret : MRet M := λ A a w, (Ok a, w).
#[global] Instance M_bind : MBind M := λ A B f m w,
  match m w with
  | (Ok a, w') => f a w'
  | (Throw e, w') => (Throw e, w')
  end.

Definition throw {A} (e : exn) : M A := λ w, (Throw e, w).
Definition lift {A} (r : res A) : M A := λ w, (r, w).
Definition read {A} (f : World E → A) : M A := λ w, (Ok (f w), w).
Definition modify (f : World E → World E) : M unit := λ w, (Ok tt, f w).

Definition with_registry (r : gmap string (gmap string RegistryEntry)) (w : World E) :=
  {| databaseRegistry := r; requestStats := requestStats w; started := started w;
     pending := pending w; trace := trace w; ext := ext w;
     created := created w; serviceStats := serviceStats w |}.
Definition with_requestStats (st : Stats) (w : World E) :=
  {| databaseRegistry := databaseRegistry w; requestStats := st; started := started w;
     pending := pending w; trace := trace w; ext := ext w;
     created := created w; serviceStats := serviceStats w |}.
Definition with_started (t : Q) (w : World E) :=
  {| databaseRegistry := databaseRegistry w; requestStats := requestStats w; started := t;
     pending := pending w; trace := trace w; ext := ext w;
     created := created w; serviceStats := serviceStats w |}.
Definition with_pending (p : list Pending) (w : World E) :=
  {| databaseRegistry := databaseRegistry w; requestStats := requestStats w;
     started := started w; pending := p; trace := trace w; ext := ext w;
     created := created w; serviceStats := serviceStats w |}.
Definition with_trace (t : list Event) (w : World E) :=
  {| databaseRegistry := databaseRegistry w; requestStats := requestStats w;
     started := started w; pending := pending w; trace := t; ext := ext w;
     created := created w; serviceStats := serviceStats w |}.
Definition with_ext (e : E) (w : World E) :=
  {| databaseRegistry := databaseRegistry w; requestStats := requestStats w;
     started := started w; pending := pending w; trace := trace w; ext := e;
     created := created w; serviceStats := serviceStats w |}.
Definition with_created (l : list (string * option string)) (w : World E) :=
  {| databaseRegistry := databaseRegistry w; requestStats := requestStats w;
     started := started w; pending := pending w; trace := trace w; ext := ext w;
     created := l; serviceStats := serviceStats w |}.
Definition with_serviceStats (o : obj) (w : World E) :=
  {| databaseRegistry := databaseRegistry w; requestStats := requestStats w;
     started := started w; pending := pending w; trace := trace w; ext := ext w;
     created := created w; serviceStats := o |}.

Definition emit (ev : Event) : M unit := modify (λ w, with_trace (trace w ++ [ev]) w).

(** A collaborator that only reads, and one that may write. *)
Definition ask {A} (f : E → res A) : M A := λ w, (f (ext w), w).
Definition call {A} (f : E → res A * E) : M A :=
  λ w, let '(r, e) := f (ext w) in (r, with_ext e w).

(** The state the module is loaded in (lines 22-54). *)
Definition loaded (e : E) : World E :=
  {| databaseRegistry := ∅; requestStats := zero_stats; started := 0;
     pending := []; trace := []; ext := e; created := [];
     serviceStats :=
       <["memoryUsage" := VObj ∅]> (<["cpuUsage" := VStr EmptyString]>
         (<["nodeUptime" := VNum 0]> (<["instanceNames" := VArr []]> (process_static e)))) |}.

(** [databaseRegistry[serviceName][filename]] *)
Definition entry_of (reg : gmap string (gmap string RegistryEntry))
    (serviceName filename : string) : option RegistryEntry :=
  reg !! serviceName ≫= (.!! filename).

(** *** Timing *)

(** [t[0] * 1e3 + t[1] / 1e6] *)
Definition to_ms (t : Z * Z) : Q :=
  (inject_Z t.1 * 1000 + inject_Z t.2 / 1000000)%Q.

Definition startTiming (statName : StatName) : M Q :=
  start ← call (λ e, let '(t, e') := hrtime e in (Ok t, e'));
  mret (to_ms start).

Definition stopTiming (startTimeMS : Q) (statName : StatName)
    (serviceName filename : string) : M unit :=
  end_ ← call (λ e, let '(t, e') := hrtime e in (Ok t, e'));
  let totalMS := (to_ms end_ - startTimeMS)%Q in
  modify (λ w, with_requestStats (record_request statName totalMS (requestStats w)) w);;
  reg ← read databaseRegistry;
  match reg !! serviceName with
  | None => throw TypeError
  | Some inner =>
      match inner !! filename with
      | None => throw TypeError
      | Some entry =>
          let entry' := {| instance := instance entry;
                           stats := record_request statName totalMS (stats entry) |} in
          modify (with_registry (<[serviceName := <[filename := entry']> inner]> reg))
      end
  end.

(** The function every export hands to its dispatcher:
    [function(response) { stopTiming(started, statName, serviceName, filename);
    callback(null, response); }] *)
Definition respond (cb : ResponseCallback) (response : value) : M unit :=
  match cb with
  | export_cb statName serviceName filename =>
      t ← read started;
      stopTiming t statName serviceName filename;;
      emit (EvCallback VNull response)
  end.

(** *** The bodies of the callbacks given to [getDatabase] *)

(** [db.getCollection(collection)], about to be sent a message: the database
    and the collection must be there. *)
Definition collection_of (db : dbref) (collection : string) : M handle :=
  match db with
  | INull | IOther => throw TypeError
  | IDb h =>
      e ← read ext;
      if getCollection e h collection then mret h else throw TypeError
  end.

(** [dv = coll.getDynamicView(viewname)], about to be sent a message. *)
Definition view_of (h : handle) (collection viewname : string) : M unit :=
  e ← read ext;
  if getDynamicView e h collection viewname then mret tt else throw TypeError.

(** [if (typeof x === "string") x = JSON.parse(x)] *)
Definition parse_if_string (x : value) : M value :=
  if is_string x then lift (JSON_parse x) else mret x.

(** [x ? JSON.parse(x) : undefined] *)
Definition parse_if_given (x : value) : M value :=
  if truthy x then lift (JSON_parse x) else mret VUndefined.

(** [if (obj.hasOwnProperty("meta")) delete obj.meta] *)
Definition strip_meta (doc : value) : M value :=
  has ← lift (hasOwnProperty doc "meta");
  mret (if has : bool then delete_prop doc "meta" else doc).

(** [if (obj.$loki === 0) delete obj.$loki] *)
Definition strip_zero_id (doc : value) : M value :=
  id ← lift (get_prop doc "$loki");
  mret (if strict_zero id then delete_prop doc "$loki" else doc).

(** What [get] answers with: the record, or [null]. *)
Definition of_doc (d : option obj) : value :=
  match d with Some o => VObj o | None => VNull end.

(** The body of each callback, run on the instance [getDatabase] passes.
    Records are values here: [get] hands out the content of the record, and
    [update] is what writes the merged content back.  (With lokijs' default
    of not cloning, [Object.assign] already changes the stored record; the
    two differ only when [update] then throws.) *)
Definition on_database (callback : DbCallback) (db : dbref) : M unit :=
  match callback with
  | processGet_cb collection id callback =>
      let id := match id with VStr s => parseInt10 s | _ => id end in
      h ← collection_of db collection;
      emit (EvStore h (c_get collection id));;
      result ← ask (λ e, coll_get e h collection id);
      respond callback (JSON_stringify (of_doc result))
  | processFind_cb collection query callback =>
      query ← parse_if_string query;
      h ← collection_of db collection;
      emit (EvStore h (c_find collection query));;
      result ← ask (λ e, coll_find e h collection query);
      respond callback (JSON_stringify result)
  | processInsert_cb collection doc callback =>
      doc ← parse_if_string doc;
      doc ← strip_zero_id doc;
      doc ← strip_meta doc;
      h ← collection_of db collection;
      emit (EvStore h (c_insert collection doc));;
      result ← call (λ e, coll_insert e h collection doc);
      respond callback (JSON_stringify result)
  | processUpdate_cb collection doc callback =>
      doc ← parse_if_string doc;
      doc ← strip_meta doc;
      h ← collection_of db collection;
      id ← lift (get_prop doc "$loki");
      emit (EvStore h (c_get collection id));;
      existing ← ask (λ e, coll_get e h collection id);
      merged ← lift (Object_assign existing doc);
      h ← collection_of db collection;
      emit (EvStore h (c_update collection merged));;
      result ← call (λ e, coll_update e h collection merged);
      respond callback (JSON_stringify result)
  | processRemove_cb collection doc callback =>
      doc ← parse_if_string doc;
      h ← collection_of db collection;
      emit (EvStore h (c_remove collection doc));;
      val ← call (λ e, coll_remove e h collection doc);
      respond callback (JSON_stringify (VObj {[ "val" := val ]}))
  | processTransform_cb collection transform transformParams dataInvoke callback =>
      h ← collection_of db collection;
      emit (EvStore h (c_chain collection transform transformParams (truthy dataInvoke)));;
      result ← ask (λ e, coll_chain e h collection transform transformParams
                           (truthy dataInvoke));
      respond callback (JSON_stringify result)
  | processDynamicView_cb collection viewname transformName transformParams callback =>
      transformParams ← parse_if_given transformParams;
      h ← collection_of db collection;
      if truthy transformName then
        view_of h collection viewname;;
        emit (EvStore h (c_view_branch collection viewname (VStr "transformName")
                           transformParams None));;
        result ← ask (λ e, view_branch e h collection viewname (VStr "transformName")
                             transformParams None);
        respond callback (JSON_stringify result)
      else
        view_of h collection viewname;;
        emit (EvStore h (c_view_data collection viewname));;
        result ← ask (λ e, view_data e h collection viewname);
        respond callback (JSON_stringify result)
  | processDynamicViewTransform_cb collection viewname transformName transformParams
      rawTransform callback =>
      h ← collection_of db collection;
      view_of h collection viewname;;
      emit (EvStore h (c_view_branch collection viewname transformName transformParams
                         (Some rawTransform)));;
      result ← ask (λ e, view_branch e h collection viewname transformName transformParams
                           (Some rawTransform));
      respond callback (JSON_stringify result)
  end.

(** *** The registry *)

(** Line 76: the bucket of the initializer is created when it is missing,
    and no entry is changed. *)
Definition touch (serviceName : string) (w : World E) : World E :=
  with_created
    (if bool_decide (is_Some (databaseRegistry w !! serviceName)) then created w
     else created w ++ [(serviceName, None)])
    (with_registry
       (<[serviceName := default ∅ (databaseRegistry w !! serviceName)]> (databaseRegistry w))
       w).

(** Line 86: the entry of a pair is written in the bucket [inner] of its
    initializer, as a new key when the pair had none. *)
Definition write_entry (serviceName filename : string) (entry : RegistryEntry)
    (inner : gmap string RegistryEntry) (w : World E) : World E :=
  with_created
    (if bool_decide (is_Some (inner !! filename)) then created w
     else created w ++ [(serviceName, Some filename)])
    (with_registry (<[serviceName := <[filename := entry]> inner]> (databaseRegistry w)) w).

(** [getDatabase], up to and including the call of [init].  On a hit the
    callback runs at once with the cached instance.  On a miss the initializer
    is required and called; when that call returns, a construction has begun
    ([EvInit]) and the callback waits in [pending] for its answer. *)
Definition getDatabase (serviceName filename : string) (callback : DbCallback) : M unit :=
  modify (touch serviceName);;
  reg ← read databaseRegistry;
  match entry_of reg serviceName filename with
  | Some entry => on_database callback (instance entry)
  | None =>
      construction ← call (require_init serviceName filename);
      emit (EvInit serviceName filename);;
      modify (λ w, with_pending (pending w ++
        [{| p_serviceName := serviceName; p_filename := filename;
            p_construction := construction; p_callback := callback |}]) w)
  end.

(** The callback [getDatabase] gives to [init], run when the [i]-th waiting
    initializer answers: the entry is written, with zeroed statistics, and the
    dispatcher's callback receives its instance. *)
Definition initDone (i : nat) : M unit :=
  waiting ← read pending;
  match waiting !! i with
  | None => mret tt
  | Some p =>
      modify (with_pending (delete i waiting));;
      dbInstance ← call (λ e, let '(d, e') := init_answer (p_construction p) e in (Ok d, e'));
      reg ← read databaseRegistry;
      match reg !! p_serviceName p with
      | None => throw TypeError
      | Some inner =>
          let entry := {| instance := dbInstance; stats := zero_stats |} in
          modify (write_entry (p_serviceName p) (p_filename p) entry inner);;
          on_database (p_callback p) (instance entry)
      end
  end.

(** *** The dispatchers *)

Definition processGet (serviceName filename collection : string) (id : value)
    (callback : ResponseCallback) : M unit :=
  getDatabase serviceName filename (processGet_cb collection id callback).

Definition processFind (serviceName filename collection : string) (query : value)
    (callback : ResponseCallback) : M unit :=
  getDatabase serviceName filename (processFind_cb collection query callback).

Definition processInsert (serviceName filename collection : string) (doc : value)
    (callback : ResponseCallback) : M unit :=
  getDatabase serviceName filename (processInsert_cb collection doc callback).

Definition processUpdate (serviceName filename collection : string) (doc : value)
    (callback : ResponseCallback) : M unit :=
  getDatabase serviceName filename (processUpdate_cb collection doc callback).

Definition processRemove (serviceName filename collection : string) (doc : value)
    (callback : ResponseCallback) : M unit :=
  getDatabase serviceName filename (processRemove_cb collection doc callback).

Definition processTransform (serviceName filename collection : string)
    (transform transformParams dataInvoke : value) (callback : ResponseCallback) : M unit :=
  transformParams ← parse_if_given transformParams;
  let dataInvoke := if nullish dataInvoke then VBool true else dataInvoke in
  getDatabase serviceName filename
    (processTransform_cb collection transform transformParams dataInvoke callback).

Definition processDynamicView (serviceName filename collection viewname : string)
    (transformName transformParams : value) (callback : ResponseCallback) : M unit :=
  getDatabase serviceName filename
    (processDynamicView_cb collection viewname transformName transformParams callback).

(** Without a transform name the parameters are left as they came: the source
    clears a variable of another name ([transferParams]). *)
Definition processDynamicViewTransform (serviceName filename collection viewname : string)
    (transformName transformParams rawTransform : value)
    (callback : ResponseCallback) : M unit :=
  if negb (truthy rawTransform) then
    processDynamicView serviceName filename collection viewname transformName
      transformParams callback
  else
    rawTransform ← lift (JSON_parse rawTransform);
    '(transformName, transformParams) ←
      (if negb (truthy transformName) then mret (VUndefined, transformParams)
       else p ← parse_if_given transformParams; mret (transformName, p));
    getDatabase serviceName filename
      (processDynamicViewTransform_cb collection viewname transformName transformParams
         rawTransform callback).

(** *** Snapshots *)

Definition num (z : Z) : value := VNum (inject_Z z).

Definition stats_value (st : Stats) : value :=
  VObj (list_to_map
    [("totalRequests", num (totalRequests st)); ("totalTime", VNum (totalTime st));
     ("getRequests", num (getRequests st)); ("getTime", VNum (getTime st));
     ("findRequests", num (findRequests st)); ("findTime", VNum (findTime st));
     ("transformRequests", num (transformRequests st));
     ("transformTime", VNum (transformTime st));
     ("dynamicViewRequests", num (dynamicViewRequests st));
     ("dynamicViewTime", VNum (dynamicViewTime st));
     ("insertRequests", num (insertRequests st)); ("insertTime", VNum (insertTime st));
     ("updateRequests", num (updateRequests st)); ("updateTime", VNum (updateTime st));
     ("removeRequests", num (removeRequests st)); ("removeTime", VNum (removeTime st))]).

Definition names (l : list string) : value := VArr (VStr <$> l).

(** The object [rs] that [instanceStats] builds for one collection. *)
Definition collection_value (c : CollectionInfo) : value :=
  VObj (list_to_map
    [("name", VStr (ci_name c)); ("count", num (ci_count c));
     ("dirty", VBool (ci_dirty c)); ("clone", VBool (ci_cloneObjects c));
     ("adaptiveBinaryIndices", VBool (ci_adaptiveBinaryIndices c));
     ("binaryIndices", names (ci_binaryIndices c));
     ("uniqueIndices", names (ci_uniqueNames c));
     ("transforms", names (ci_transforms c));
     ("dynamicViews", names (ci_DynamicViews c))]).

(** The entries of the registry, in no particular order: what the sums over
    the registered instances range over. *)
Definition allEntries (reg : gmap string (gmap string RegistryEntry))
    : list (string * string * RegistryEntry) :=
  '(initName, inner) ← map_to_list reg;
  '(instName, dbreg) ← map_to_list inner;
  [(initName, instName, dbreg)].

(** The keys of [databaseRegistry], and of the bucket of [serviceName], in
    the order [for ... in] visits them. *)
Definition outer_keys (log : list (string * option string)) : list string :=
  forIn (omap (λ x, match x.2 with None => Some x.1 | Some _ => None end) log).

Definition inner_keys (log : list (string * option string)) (serviceName : string)
    : list string :=
  forIn (omap (λ x, match x.2 with
                    | Some f => if bool_decide (x.1 = serviceName) then Some f else None
                    | None => None
                    end) log).

(** The pairs [(initName, instName)] that the two nested loops
    [for (initName in databaseRegistry) for (instName in databaseRegistry[initName])]
    visit, in order. *)
Definition registry_pairs (w : World E) : list (string * string) :=
  initName ← outer_keys (created w);
  instName ← inner_keys (created w) initName;
  [(initName, instName)].

(** A sequence of statements. *)
Fixpoint for_each {A} (body : A → M unit) (l : list A) : M unit :=
  match l with
  | [] => mret tt
  | x :: l => body x;; for_each body l
  end.

(** *** [module.exports]

    [exports_f] is the export [f].  The host's [callback] is the same for all
    of them: a call of it is the event [EvCallback]. *)

Definition timed (statName : StatName) : M unit :=
  t ← startTiming statName;
  modify (with_started t).

Definition exports_get (serviceName filename collection : string) (id : value) : M unit :=
  timed s_get;;
  processGet serviceName filename collection id (export_cb s_get serviceName filename).

Definition exports_find (serviceName filename collection : string) (query : value) : M unit :=
  timed s_find;;
  processFind serviceName filename collection query (export_cb s_find serviceName filename).

Definition exports_insert (serviceName filename collection : string) (doc : value) : M unit :=
  timed s_insert;;
  processInsert serviceName filename collection doc
    (export_cb s_insert serviceName filename).

Definition exports_update (serviceName filename collection : string) (doc : value) : M unit :=
  timed s_update;;
  processUpdate serviceName filename collection doc
    (export_cb s_update serviceName filename).

Definition exports_remove (serviceName filename collection : string) (doc : value) : M unit :=
  timed s_remove;;
  processRemove serviceName filename collection doc
    (export_cb s_remove serviceName filename).

Definition exports_transform (serviceName filename collection : string)
    (transform transformParams dataInvoke : value) : M unit :=
  timed s_transform;;
  processTransform serviceName filename collection transform transformParams dataInvoke
    (export_cb s_transform serviceName filename).

Definition exports_transformRaw (serviceName filename collection : string)
    (transform transformParams dataInvoke : value) : M unit :=
  timed s_transform;;
  rawTransform ← lift (JSON_parse transform);
  processTransform serviceName filename collection rawTransform transformParams dataInvoke
    (export_cb s_transform serviceName filename).

Definition exports_dynamicView (serviceName filename collection viewname : string)
    (transformName transformParams : value) : M unit :=
  timed s_dynamicView;;
  processDynamicView serviceName filename collection viewname transformName transformParams
    (export_cb s_dynamicView serviceName filename).

Definition exports_dynamicViewTransform (serviceName filename collection viewname : string)
    (transform transformParams rawTransform : value) : M unit :=
  timed s_dynamicView;;
  processDynamicViewTransform serviceName filename collection viewname transform
    transformParams rawTransform (export_cb s_dynamicView serviceName filename).

(** [{ initializerName: initName, instanceName: instName }] *)
Definition name_value (p : string * string) : value :=
  VObj (list_to_map [("initializerName", VStr p.1); ("instanceName", VStr p.2)]).

(** The object [serviceStats], as [JSON.stringify] finds it. *)
Definition serviceStats_value (w : World E) : value :=
  VObj (<["requestStats" := stats_value (requestStats w)]> (serviceStats w)).

(** [serviceStats[k] = v] *)
Definition set_serviceStats (k : string) (v : value) : M unit :=
  modify (λ w, with_serviceStats (<[k := v]> (serviceStats w)) w).

(** [stats] rewrites the figures of the process and the list of the pairs in
    [serviceStats] and hands the whole object over.  The process is read
    once; nothing the module does in between could change what it answers. *)
Definition exports_stats : M unit :=
  pf ← read (λ w, process_figures (ext w));
  set_serviceStats "memoryUsage" (pf_memoryUsage pf);;
  keys ← read registry_pairs;
  set_serviceStats "instanceNames" (VArr (name_value <$> keys));;
  set_serviceStats "nodeUptime" (pf_nodeUptime pf);;
  set_serviceStats "cpuUsageUser" (pf_cpuUsageUser pf);;
  set_serviceStats "cpuUsageSystem" (pf_cpuUsageSystem pf);;
  set_serviceStats "cpuUsage" (pf_cpuUsage pf);;
  text ← read (λ w, JSON_stringify (serviceStats_value w));
  emit (EvCallback VNull text).

Definition exports_instanceStats (serviceName filename : string) : M unit :=
  reg ← read databaseRegistry;
  (if bool_decide (is_Some (reg !! serviceName)) then mret tt
   else emit (EvCallback VNull VUndefined));;
  inner ← match reg !! serviceName with
          | Some inner => mret inner
          | None => throw TypeError
          end;
  (if bool_decide (is_Some (inner !! filename)) then mret tt
   else emit (EvCallback VNull VUndefined));;
  entry ← match inner !! filename with
          | Some entry => mret entry
          | None => throw TypeError
          end;
  dbinst ← match instance entry with
            | IDb h => mret h
            | INull | IOther => throw TypeError
            end;
  e ← read ext;
  emit (EvStore dbinst c_describe);;
  let resultStats := VObj (list_to_map
    [("serviceName", VStr serviceName); ("filename", VStr filename);
     ("autosave", db_field e dbinst "autosave");
     ("autosaveInterval", db_field e dbinst "autosaveInterval");
     ("throttledSaves", db_field e dbinst "throttledSaves");
     ("databaseVersion", db_field e dbinst "databaseVersion");
     ("requestStats", stats_value (stats entry));
     ("collectionInfo", VArr (collection_value <$> db_collections e dbinst))]) in
  emit (EvCallback VNull (JSON_stringify resultStats)).

(** The body of the inner loop of [shutdown], for the keys [initName] and
    [instName]: nothing for a [null] instance; otherwise a line on the
    console, [close()], and [callback(null)].  A value that is no database
    is not [null] either, and has no [close]. *)
Definition shutdown_body (key : string * string) : M unit :=
  let '(initName, instName) := key in
  reg ← read databaseRegistry;
  match entry_of reg initName instName with
  | None => throw TypeError
  | Some dbreg =>
      match instance dbreg with
      | INull => mret tt
      | IOther => emit (EvLog ("closing : " +:+ instName));; throw TypeError
      | IDb h =>
          emit (EvLog ("closing : " +:+ instName));;
          emit (EvStore h c_close);;
          call (λ e, db_close e h);;
          emit (EvCallback VNull VUndefined)
      end
  end.

Definition exports_shutdown : M unit :=
  keys ← read registry_pairs;
  for_each shutdown_body keys.

(** *** Runs

    The host calls exports; initializers answer.  A run takes these in the
    order they happen and keeps the outcome of each. *)

(** The data operations of the request surface, with their arguments. *)
Inductive DataOp :=
| op_get (serviceName filename collection : string) (id : value)
| op_find (serviceName filename collection : string) (query : value)
| op_insert (serviceName filename collection : string) (doc : value)
| op_update (serviceName filename collection : string) (doc : value)
| op_remove (serviceName filename collection : string) (doc : value)
| op_transform (serviceName filename collection : string)
    (transform transformParams dataInvoke : value)
| op_transformRaw (serviceName filename collection : string)
    (transform transformParams dataInvoke : value)
| op_dynamicView (serviceName filename collection viewname : string)
    (transformName transformParams : value)
| op_dynamicViewTransform (serviceName filename collection viewname : string)
    (transform transformParams rawTransform : value).

Inductive Operation :=
| op_data (d : DataOp)
| op_stats
| op_instanceStats (serviceName filename : string)
| op_shutdown.

Definition invoke_data (d : DataOp) : M unit :=
  match d with
  | op_get s f c id => exports_get s f c id
  | op_find s f c query => exports_find s f c query
  | op_insert s f c doc => exports_insert s f c doc
  | op_update s f c doc => exports_update s f c doc
  | op_remove s f c doc => exports_remove s f c doc
  | op_transform s f c t p d => exports_transform s f c t p d
  | op_transformRaw s f c t p d => exports_transformRaw s f c t p d
  | op_dynamicView s f c v t p => exports_dynamicView s f c v t p
  | op_dynamicViewTransform s f c v t p r => exports_dynamicViewTransform s f c v t p r
  end.

Definition invoke (op : Operation) : M unit :=
  match op with
  | op_data d => invoke_data d
  | op_stats => exports_stats
  | op_instanceStats s f => exports_instanceStats s f
  | op_shutdown => exports_shutdown
  end.

Inductive Action :=
| Call (op : Operation)
| InitAnswers (i : nat).

Definition step (a : Action) : M unit :=
  match a with
  | Call op => invoke op
  | InitAnswers i => initDone i
  end.

Fixpoint run (actions : list Action) (w : World E) : list (res unit) * World E :=
  match actions with
  | [] => ([], w)
  | a :: actions =>
      let '(r, w1) := step a w in
      let '(rs, w2) := run actions w1 in
      (r :: rs, w2)
  end.

(** A request whose initializer, if one is called, answers before anything
    else happens. *)
Definition served (op : Operation) : list Action :=
  [Call op; InitAnswers 0].

End Service.

(** ** A concrete host

    A small database in the manner of lokijs, and the initializer of
    [example/demo1-service.init.js], to run the module on explicit requests.
    The theorems of the section [Properties] hold for every host; of this
    one, only the seeding of the example is a subject of its own
    ([seedDatabase_idempotent]). *)

Module Demo.

Record Coll := {
  data : list obj;
  maxId : Z;
  transforms : list string;
  views : list string
}.

Record Db := {
  collections : gmap string Coll;
  closes : nat
}.

(** The databases built so far (a handle is a position), the variable [db]
    of the example initializer (the database built last) and the clock, in
    nanoseconds. *)
Record Env := {
  dbs : list Db;
  db : option handle;
  clock : Z
}.

Definition boot : Env := {| dbs := []; db := None; clock := 0 |}.

Definition empty_coll : Coll := {| data := []; maxId := 0; transforms := []; views := [] |}.

(** [coll.insert(o)] on a record that carries no [$loki] yet. *)
Definition add (o : obj) (k : Coll) : Coll :=
  {| data := data k ++ [<["$loki" := num (maxId k + 1)]> o]; maxId := maxId k + 1;
     transforms := transforms k; views := views k |}.

Definition user (name : string) (age gender : Z) (tags : list string) : obj :=
  list_to_map [("name", VStr name); ("age", num age); ("gender", num gender);
               ("tags", names tags)].

Definition place (name dwellers : string) (ruler : option string) : obj :=
  list_to_map ([("name", VStr name); ("dwellers", VStr dwellers)]
               ++ match ruler with Some r => [("ruler", VStr r)] | None => [] end).

Definition set_transform (name : string) (k : Coll) : Coll :=
  {| data := data k; maxId := maxId k;
     transforms := if bool_decide (name ∈ transforms k) then transforms k
                   else transforms k ++ [name];
     views := views k |}.

Definition add_view (name : string) (k : Coll) : Coll :=
  {| data := data k; maxId := maxId k; transforms := transforms k;
     views := if bool_decide (name ∈ views k) then views k else views k ++ [name] |}.

(** [seedDatabase()] of the example: the collections and their records are
    created when missing, the two transforms are set every time, the view is
    added when missing. *)
Definition seedDatabase (d : Db) : Db :=
  let users :=
    match collections d !! "users" with
    | Some k => k
    | None =>
        foldl (λ k o, add o k) empty_coll
          [user "odin" 999 0 ["knowlege"; "sorcery"; "frenzy"; "runes"];
           user "frigga" 980 1 ["foreknowlege"];
           user "thor" 35 0 ["storms"; "hammer"];
           user "sif" 30 1 ["golden hair"];
           user "loki" 25 0 ["shapeshifter"; "trickster"];
           user "sigyn" 24 1 ["relief"];
           user "heimdallr" 870 0 ["bifrost"; "keen eyesight"; "keen hearing"]]
    end in
  let locations :=
    match collections d !! "locations" with
    | Some k => k
    | None =>
        foldl (λ k o, add o k) empty_coll
          [place "Asgard" "Aesir" (Some "Odin"); place "Alfheim" "Elves" None;
           place "Svartalfheim" "Dwarves" None; place "Midgard" "Puny Humans" None;
           place "Jotunheim" "Giants" None; place "Vanaheimr" "Vanir" None;
           place "Niflheim" "Ice/Snow" None;
           place "Muspelheim" "Fire Giants" (Some "Surtr");
           place "Helheim" "Deceased" None]
    end in
  let users := add_view "Youngsters" (set_transform "knowlege" (set_transform "goddesses" users)) in
  {| collections := <["users" := users]> (<["locations" := locations]> (collections d));
     closes := closes d |}.

Definition coll (e : Env) (h : handle) (c : string) : option Coll :=
  dbs e !! h ≫= λ d, collections d !! c.

Definition has_id (q : Q) (d : obj) : bool :=
  match d !! "$loki" with Some (VNum q') => Qeq_bool q q' | _ => false end.

Definition put_coll (e : Env) (h : handle) (c : string) (k : Coll) : Env :=
  {| dbs := alter (λ d, {| collections := <[c := k]> (collections d);
                            closes := closes d |}) h (dbs e);
     db := db e; clock := clock e |}.

Definition no_collection : exn := Error "no such collection".

Definition demo_get (e : Env) (h : handle) (c : string) (id : value) : res (option obj) :=
  match coll e h c, id with
  | Some k, VNum q => Ok (List.find (has_id q) (data k))
  | Some _, _ => Throw TypeError
  | None, _ => Throw no_collection
  end.

Definition demo_insert (e : Env) (h : handle) (c : string) (doc : value) : res value * Env :=
  match coll e h c, doc with
  | Some k, VObj o =>
      if bool_decide (is_Some (o !! "$loki")) then
        (Throw (Error "Document is already in collection, please use update()"), e)
      else
        (Ok (VObj (<["$loki" := num (maxId k + 1)]> o)), put_coll e h c (add o k))
  | Some _, _ => (Throw TypeError, e)
  | None, _ => (Throw no_collection, e)
  end.

Definition replace_doc (q : Q) (doc : obj) (l : list obj) : list obj :=
  (λ d, if has_id q d then doc else d) <$> l.

Definition demo_update (e : Env) (h : handle) (c : string) (doc : obj) : res value * Env :=
  match coll e h c, doc !! "$loki" with
  | Some k, Some (VNum q) =>
      if existsb (has_id q) (data k) then
        (Ok (VObj doc),
         put_coll e h c {| data := replace_doc q doc (data k); maxId := maxId k;
                           transforms := transforms k; views := views k |})
      else (Throw (Error "Trying to update a document not in collection."), e)
  | Some _, _ => (Throw (Error "Trying to update unsynced document."), e)
  | None, _ => (Throw no_collection, e)
  end.

Definition demo_remove (e : Env) (h : handle) (c : string) (doc : value) : res value * Env :=
  match coll e h c, get_prop doc "$loki" with
  | Some k, Ok (VNum q) =>
      (Ok doc,
       put_coll e h c {| data := List.filter (λ d, negb (has_id q d)) (data k);
                         maxId := maxId k; transforms := transforms k; views := views k |})
  | Some _, _ => (Throw TypeError, e)
  | None, _ => (Throw no_collection, e)
  end.

Definition rows (k : Coll) : value := VArr (VObj <$> data k).

(** A transform is a registered name or a literal list of steps; the steps
    themselves are not interpreted here. *)
Definition demo_transform (k : Coll) (transform : value) : res value :=
  match transform with
  | VUndefined | VArr _ => Ok (rows k)
  | VStr name =>
      if bool_decide (name ∈ transforms k) then Ok (rows k)
      else Throw (Error "Invalid transform")
  | _ => Throw (Error "Invalid transform")
  end.

Definition demo_chain (e : Env) (h : handle) (c : string)
    (transform params : value) (data : bool) : res value :=
  match coll e h c with
  | Some k => demo_transform k transform
  | None => Throw no_collection
  end.

Definition demo_view_branch (e : Env) (h : handle) (c v : string)
    (transform params : value) (raw : option value) : res value :=
  match coll e h c with
  | Some k =>
      match demo_transform k transform with
      | Ok _ => demo_transform k (default VUndefined raw)
      | Throw x => Throw x
      end
  | None => Throw no_collection
  end.

Definition demo_close (e : Env) (h : handle) : res unit * Env :=
  (Ok tt,
   {| dbs := alter (λ d, {| collections := collections d; closes := S (closes d) |})
               h (dbs e);
      db := db e; clock := clock e |}).

(** Every reading of the clock is one millisecond later than the last. *)
Definition demo_hrtime (e : Env) : (Z * Z) * Env :=
  ((clock e / 1000000000, clock e mod 1000000000),
   {| dbs := dbs e; db := db e; clock := clock e + 1000000 |}).

Definition svc : string := "demo1-service.init.js".
Definition file : string := "./demo1.db".

Definition blank : Db := {| collections := ∅; closes := 0 |}.

(** Two initializers.  [init] of the example is [db = new loki(filename,
    {autoload: true, autoloadCallback: ...})]: the database is built and kept
    in the variable [db], the callback is for later (construction [0]).
    [plain] builds a seeded database and will hand that very database to the
    callback it was given (construction [S h] for the database [h]).  No
    other module can be required. *)
Definition plain : string := "plain.init.js".

Definition demo_init (serviceName filename : string) (e : Env) : res nat * Env :=
  if String.eqb serviceName svc then
    (Ok 0%nat, {| dbs := dbs e ++ [blank]; db := Some (length (dbs e)); clock := clock e |})
  else if String.eqb serviceName plain then
    (Ok (S (length (dbs e))),
     {| dbs := dbs e ++ [seedDatabase blank]; db := db e; clock := clock e |})
  else (Throw (Error "Cannot find module"), e).

(** [autoloadCallback] of the example is [seedDatabase(); callback(db)], both
    on the database that [db] holds at that moment.  (Before the first call
    of [init] the variable holds [undefined]; no run gets there, since a
    construction is only begun by [init].) *)
Definition demo_answer (construction : nat) (e : Env) : dbref * Env :=
  match construction with
  | O =>
      match db e with
      | Some h =>
          (IDb h, {| dbs := alter seedDatabase h (dbs e); db := db e; clock := clock e |})
      | None => (IOther, e)
      end
  | S h => (IDb h, e)
  end.

Definition digit (c : Ascii.ascii) : option Z :=
  let n := Z.of_nat (Ascii.nat_of_ascii c) in
  if bool_decide (48 ≤ n ≤ 57) then Some (n - 48) else None.

Fixpoint digits (acc : Z) (s : string) : option Z :=
  match s with
  | EmptyString => Some acc
  | String c s => d ← digit c; digits (10 * acc + d) s
  end.

Definition number (s : string) : option Z :=
  match s with EmptyString => None | _ => digits 0 s end.

(** A reader for the few texts the examples use: literals, unsigned
    integers, the empty array and the empty object. *)
Definition demo_parse (v : value) : res value :=
  match v with
  | VStr s =>
      if String.eqb s "null" then Ok VNull
      else if String.eqb s "true" then Ok (VBool true)
      else if String.eqb s "false" then Ok (VBool false)
      else if String.eqb s "[]" then Ok (VArr [])
      else if String.eqb s "{}" then Ok (VObj ∅)
      else match number s with Some z => Ok (num z) | None => Throw SyntaxError end
  | VNull | VBool _ | VNum _ => Ok v
  | _ => Throw SyntaxError
  end.

Definition demo_parseInt (s : string) : value :=
  match number s with Some z => num z | None => VNaN end.

Definition show_Q (q : Q) : string :=
  if Pos.eqb (Qden q) 1 then pretty (Qnum q)
  else pretty (Qnum q) +:+ "/" +:+ pretty (Zpos (Qden q)).

Definition commas (l : list string) : string :=
  match l with
  | [] => EmptyString
  | x :: l => foldl (λ acc y, acc +:+ "," +:+ y) x l
  end.

(** A printer in the manner of [JSON.stringify], with single quotes. *)
Fixpoint show (v : value) : string :=
  match v with
  | VUndefined | VNull | VNaN => "null"
  | VBool b => if b then "true" else "false"
  | VNum q => show_Q q
  | VStr s => "'" +:+ s +:+ "'"
  | VArr l => "[" +:+ commas (foldr (λ x acc, show x :: acc) [] l) +:+ "]"
  | VObj o => "{" +:+ commas (map_fold (λ k x acc, (k +:+ ":" +:+ show x) :: acc) [] o)
                +:+ "}"
  end.

Definition demo_stringify (v : value) : value :=
  match v with
  | VUndefined => VUndefined
  | _ => VStr (show v)
  end.

Definition demo_collections (e : Env) (h : handle) : list CollectionInfo :=
  match dbs e !! h with
  | Some d =>
      (λ '(name, k),
        {| ci_name := name; ci_count := Z.of_nat (length (data k)); ci_dirty := false;
           ci_cloneObjects := false; ci_adaptiveBinaryIndices := true;
           ci_binaryIndices := []; ci_uniqueNames := [];
           ci_transforms := transforms k; ci_DynamicViews := views k |})
      <$> map_to_list (collections d)
  | None => []
  end.

#[export] Instance host : Host Env := {|
  JSON_parse := demo_parse;
  JSON_stringify := demo_stringify;
  parseInt10 := demo_parseInt;
  hrtime := demo_hrtime;
  require_init := demo_init;
  init_answer := demo_answer;
  getCollection e h c := bool_decide (is_Some (coll e h c));
  getDynamicView e h c v :=
    match coll e h c with Some k => bool_decide (v ∈ views k) | None => false end;
  coll_get := demo_get;
  coll_find e h c query :=
    match coll e h c with Some k => Ok (rows k) | None => Throw no_collection end;
  coll_insert := demo_insert;
  coll_update := demo_update;
  coll_remove := demo_remove;
  coll_chain := demo_chain;
  view_data e h c v :=
    match coll e h c with Some k => Ok (rows k) | None => Throw no_collection end;
  view_branch := demo_view_branch;
  db_close := demo_close;
  db_field e h name := if String.eqb name "autosaveInterval" then num 4000 else VUndefined;
  db_collections := demo_collections;
  process_static e :=
    list_to_map [("platform", VStr "linux"); ("arch", VStr "x64")];
  process_figures e :=
    {| pf_memoryUsage := VObj ∅; pf_nodeUptime := VNum (inject_Z (clock e) / 1000000000);
       pf_cpuUsageUser := VNum 0; pf_cpuUsageSystem := VNum 0;
       pf_cpuUsage := VStr "user: 0ms; system :0ms" |}
|}.

(** *** The requests of the examples *)

Definition get_thor : Operation := op_data (op_get svc file "users" (VStr "3")).

(** The service after one request served from start to end: one database,
    registered under ([svc], [file]). *)
Definition warm : World Env := (run (served get_thor) (loaded boot)).2.

(** Two requests for the same pair, the second issued before the initializer
    called for the first has answered. *)
Definition twice (serviceName : string) : list Action :=
  [Call (op_data (op_get serviceName file "users" (VStr "3")));
   Call (op_data (op_get serviceName file "users" (VStr "3")));
   InitAnswers 0; InitAnswers 0].

Definition overlapped : list (res unit) * World Env := run (twice svc) (loaded boot).

Definition overlapped_plain : list (res unit) * World Env := run (twice plain) (loaded boot).

(** The function the exports [update] and [insert] answer through. *)
Definition answer : ResponseCallback := export_cb s_update svc file.



(** [{$loki: 0, name: 'x', meta: {}}] *)
Definition newcomer : obj :=
  list_to_map [("$loki", num 0); ("name", VStr "x"); ("meta", VObj ∅)].


(** A [dynamicView] request that names the registered transform [goddesses],
    and the same name given to [dynamicViewTransform] with an empty list of
    further steps. *)
Definition by_name : list (res unit) * World Env :=
  run (served (op_data (op_dynamicView svc file "users" "Youngsters"
                          (VStr "goddesses") VUndefined))) (loaded boot).

Definition by_name_then_raw : list (res unit) * World Env :=
  run (served (op_data (op_dynamicViewTransform svc file "users" "Youngsters"
                          (VStr "goddesses") VUndefined (VStr "[]")))) (loaded boot).

(** Two databases, registered under two files. *)
Definition two_live : World Env :=
  (run (served get_thor ++ served (op_data (op_get svc "b.db" "users" (VStr "3"))))
     (loaded boot)).2.

Definition bad_find : Operation := op_data (op_find svc file "users" (VStr "{bad")).

(** The entry of ([svc], [file]) in [warm]. *)
Definition warm_entry : RegistryEntry :=
  default {| instance := INull; stats := zero_stats |}
    (entry_of (databaseRegistry warm) svc file).

(** [get] of the third user. *)
Definition get_thor_again : DataOp := op_get svc file "users" (VStr "3").

(** The service after a second request for the pair of [warm]. *)
Definition warm_twice : World Env := (invoke_data get_thor_again warm).2.

(** The service while its first request waits for the initializer, and the
    request that waits. *)
Definition asking : World Env := (invoke_data get_thor_again (loaded boot)).2.

Definition first_waiting : Pending :=
  {| p_serviceName := svc; p_filename := file; p_construction := 0;
     p_callback := processGet_cb "users" (VStr "3") (export_cb s_get svc file) |}.

(** A pair registered with the [null] that an initializer handed over. *)
Definition no_instance : RegistryEntry := {| instance := INull; stats := zero_stats |}.

Definition hollow : World Env :=
  with_created [(svc, None); (svc, Some file)]
    (with_registry {[ svc := {[ file := no_instance ]} ]} (loaded boot)).

(** A pair registered with the [undefined] that an initializer handed over. *)
Definition not_a_database : World Env :=
  with_created [(svc, None); (svc, Some file)]
    (with_registry {[ svc := {[ file := {| instance := IOther; stats := zero_stats |} ]} ]}
       (loaded boot)).

(** The entries of [two_live]. *)
Definition entry_at (filename : string) : RegistryEntry :=
  default no_instance (entry_of (databaseRegistry two_live) svc filename).

(** The same collaborators, with a second database that cannot be closed:
    [close] throws on it. *)
Definition stuck : Host Env := {|
  JSON_parse := demo_parse;
  JSON_stringify := demo_stringify;
  parseInt10 := demo_parseInt;
  hrtime := demo_hrtime;
  require_init := demo_init;
  init_answer := demo_answer;
  getCollection := @getCollection Env host;
  getDynamicView := @getDynamicView Env host;
  coll_get := demo_get;
  coll_find := @coll_find Env host;
  coll_insert := demo_insert;
  coll_update := demo_update;
  coll_remove := demo_remove;
  coll_chain := demo_chain;
  view_data := @view_data Env host;
  view_branch := demo_view_branch;
  db_close e h :=
    match h with
    | 1%nat => (Throw (Error "close failed"), e)
    | _ => demo_close e h
    end;
  db_field := @db_field Env host;
  db_collections := demo_collections;
  process_static := @process_static Env host;
  process_figures := @process_figures Env host
|}.

(** What [seedDatabase] does to the collection [users] once it is there:
    the two transforms are set and the view is added when missing. *)
Definition dressed (k : Coll) : Coll :=
  add_view "Youngsters" (set_transform "knowlege" (set_transform "goddesses" k)).



(** [transform] with the empty text for parameters. *)
Definition no_params : DataOp :=
  op_transform svc file "users" (VStr "goddesses") (VStr EmptyString) VUndefined.


(** [transformRaw] with a transform that is no JSON text. *)
Definition bad_raw : DataOp :=
  op_transformRaw svc file "users" (VStr "{bad") VUndefined VUndefined.

End Demo.

(** ** Properties

    First the notions the properties are stated with, then the proofs. *)

Section Properties.
Context {E : Type} `{!Host E}.
Implicit Types (w : World E) (t : list Event).

(** *** Notions

    What the host callback was given during a stretch of the trace: the error
    argument and the result argument of each call. *)
Definition callbacks (t : list Event) : list (value * value) :=
  omap (λ ev, match ev with EvCallback err r => Some (err, r) | _ => None end) t.

(** The request that [getDatabase] leaves waiting on a miss. *)
Definition waiting (s f : string) (construction : nat) (cb : DbCallback) : Pending :=
  {| p_serviceName := s; p_filename := f; p_construction := construction;
     p_callback := cb |}.

(** The instance an initializer hands over when it answers the waiting
    request [p]. *)
Definition answered (p : Pending) (w : World E) : dbref :=
  (init_answer (p_construction p) (ext w)).1.

(** The entry written for it. *)
Definition fresh_entry (p : Pending) (w : World E) : RegistryEntry :=
  {| instance := answered p w; stats := zero_stats |}.

(** The state in which the dispatcher's callback then runs. *)
Definition registered (p : Pending) (inner : gmap string RegistryEntry) (i : nat)
    (w : World E) : World E :=
  write_entry (p_serviceName p) (p_filename p) (fresh_entry p w) inner
    (with_ext (init_answer (p_construction p) (ext w)).2
       (with_pending (delete i (pending w)) w)).


(** What the store answers to a call, as the callback of the dispatcher that
    makes the call turns it into its result ([get]: the record, or [null];
    [remove]: the answer under [val]; the others: the answer as it is), and
    the collaborators after the call. *)
Definition store_answer (e : E) (h : handle) (call : StoreCall) : res value * E :=
  match call with
  | c_get c id =>
      (match coll_get e h c id with Ok d => Ok (of_doc d) | Throw x => Throw x end, e)
  | c_find c query => (coll_find e h c query, e)
  | c_insert c doc => coll_insert e h c doc
  | c_update c doc => coll_update e h c doc
  | c_remove c doc =>
      match coll_remove e h c doc with
      | (Ok val, e') => (Ok (VObj {[ "val" := val ]}), e')
      | (Throw x, e') => (Throw x, e')
      end
  | c_chain c transform params data => (coll_chain e h c transform params data, e)
  | c_view_data c v => (view_data e h c v, e)
  | c_view_branch c v transform params raw => (view_branch e h c v transform params raw, e)
  | c_close =>
      match db_close e h with
      | (Ok _, e') => (Ok VUndefined, e')
      | (Throw x, e') => (Throw x, e')
      end
  | c_describe => (Ok VUndefined, e)
  end.



(** The payload after [if (typeof obj === "string") obj = JSON.parse(obj)]. *)
Definition parsed (doc : value) : res value :=
  if is_string doc then JSON_parse doc else Ok doc.

(** [obj.$loki] of a record. *)
Definition id_of (o : obj) : value := default VUndefined (o !! "$loki").

(** A record whose [$loki] is the number zero. *)
Definition zero_id (o : obj) : bool := strict_zero (id_of o).

(** The record [processInsert] passes on. *)
Definition insert_form (o : obj) : obj :=
  delete "meta" (if zero_id o then delete "$loki" o else o).


(** The state after a successful [stopTiming(started, k, s, f)]. *)
Definition recorded (k : StatName) (s f : string) (inner : gmap string RegistryEntry)
    (entry : RegistryEntry) (w : World E) : World E :=
  let totalMS := (to_ms (hrtime (ext w)).1 - started w)%Q in
  with_registry
    (<[s := <[f := {| instance := instance entry;
                      stats := record_request k totalMS (stats entry) |}]> inner]>
       (databaseRegistry w))
    (with_requestStats (record_request k totalMS (requestStats w))
       (with_ext (hrtime (ext w)).2 w)).




(** A record whose [$loki] is the number zero; no other value has one. *)
Definition zero_loki (p : value) : bool :=
  match p with VObj o => zero_id o | _ => false end.

(** What [processInsert] hands to [insert] for the payload [p]: [p] without
    the [$loki] of its own that is the number zero and without the [meta] of
    its own. *)
Definition stripped (p : value) : value :=
  delete_prop (if zero_loki p then delete_prop p "$loki" else p) "meta".

(** The callbacks of the dispatchers that parse a parameter themselves, with
    a parameter that they parse and that [JSON.parse] rejects with [x]:
    [find], [insert], [update] and [remove] parse a parameter that is a
    string, [dynamicView] parses its parameters when they are given. *)
Inductive malformed (x : exn) : DbCallback → Prop :=
| malformed_find c q cb :
    is_string q = true → JSON_parse q = Throw x → malformed x (processFind_cb c q cb)
| malformed_insert c doc cb :
    is_string doc = true → JSON_parse doc = Throw x → malformed x (processInsert_cb c doc cb)
| malformed_update c doc cb :
    is_string doc = true → JSON_parse doc = Throw x → malformed x (processUpdate_cb c doc cb)
| malformed_remove c doc cb :
    is_string doc = true → JSON_parse doc = Throw x → malformed x (processRemove_cb c doc cb)
| malformed_dynamicView c v name params cb :
    truthy params = true → JSON_parse params = Throw x →
    malformed x (processDynamicView_cb c v name params cb).

(** A data operation with a parameter that [JSON.parse] rejects with [x] and
    that is parsed before the pair is resolved: the parameters of
    [transform]; the transform of [transformRaw], and its parameters;
    the raw transform of [dynamicViewTransform], and its parameters when a
    raw transform and a transform name are given. *)
Inductive parsed_before (x : exn) : DataOp → Prop :=
| before_transform s f c tf params di :
    truthy params = true → JSON_parse params = Throw x →
    parsed_before x (op_transform s f c tf params di)
| before_transformRaw s f c tf params di :
    JSON_parse tf = Throw x → parsed_before x (op_transformRaw s f c tf params di)
| before_transformRaw_params s f c tf tf' params di :
    JSON_parse tf = Ok tf' → truthy params = true → JSON_parse params = Throw x →
    parsed_before x (op_transformRaw s f c tf params di)
| before_raw s f c v name params raw :
    truthy raw = true → JSON_parse raw = Throw x →
    parsed_before x (op_dynamicViewTransform s f c v name params raw)
| before_raw_params s f c v name params raw raw' :
    truthy raw = true → JSON_parse raw = Ok raw' →
    truthy name = true → truthy params = true → JSON_parse params = Throw x →
    parsed_before x (op_dynamicViewTransform s f c v name params raw).

(** A data operation with a parameter that [JSON.parse] rejects with [x] and
    that is parsed in the callback given to [getDatabase]: the query of
    [find] and the payload of [insert], [update] and [remove] when they are
    strings; the parameters of [dynamicView], and of [dynamicViewTransform]
    without a raw transform, when they are given. *)
Inductive parsed_inside (x : exn) : DataOp → Prop :=
| inside_find s f c q :
    is_string q = true → JSON_parse q = Throw x → parsed_inside x (op_find s f c q)
| inside_insert s f c doc :
    is_string doc = true → JSON_parse doc = Throw x → parsed_inside x (op_insert s f c doc)
| inside_update s f c doc :
    is_string doc = true → JSON_parse doc = Throw x → parsed_inside x (op_update s f c doc)
| inside_remove s f c doc :
    is_string doc = true → JSON_parse doc = Throw x → parsed_inside x (op_remove s f c doc)
| inside_dynamicView s f c v name params :
    truthy params = true → JSON_parse params = Throw x →
    parsed_inside x (op_dynamicView s f c v name params)
| inside_view_without_raw s f c v name params raw :
    truthy raw = false → truthy params = true → JSON_parse params = Throw x →
    parsed_inside x (op_dynamicViewTransform s f c v name params raw).

(** What [shutdown] does for one entry whose [close] returns: nothing for a
    [null] instance; otherwise a line on the console, [close()], and
    [callback(null)].  (An instance that is no database has no [close] to
    return from: see [close_fails].) *)
Definition closing (x : string * string * RegistryEntry) : list Event :=
  match instance x.2 with
  | INull | IOther => []
  | IDb h => [EvLog ("closing : " +:+ x.1.2); EvStore h c_close; EvCallback VNull VUndefined]
  end.

(** The state of the collaborators after [close()] on the instance of an
    entry. *)
Definition close_entry (e : E) (x : string * string * RegistryEntry) : E :=
  match instance x.2 with
  | INull | IOther => e
  | IDb h => (db_close e h).2
  end.

(** [shutdown] cannot close the instance of [entry]: [close] throws [x] on
    the database, or the instance is no database and calling its [close] is
    a [TypeError]. *)
Definition close_fails (entry : RegistryEntry) (x : exn) : Prop :=
  match instance entry with
  | INull => False
  | IOther => x = TypeError
  | IDb h => ∀ e, (db_close e h).1 = Throw x
  end.

(** The databases of the entries that hold one. *)
Definition live (l : list (string * string * RegistryEntry)) : list handle :=
  omap (λ x, match instance x.2 with IDb h => Some h | _ => None end) l.

(** The databases closed during a stretch of the trace. *)
Definition closed (t : list Event) : list handle :=
  omap (λ ev, match ev with EvStore h c_close => Some h | _ => None end) t.

(** The constructions begun during a stretch of the trace: the pairs the
    initializer was called for. *)
Definition inits (t : list Event) : list (string * string) :=
  omap (λ ev, match ev with EvInit s f => Some (s, f) | _ => None end) t.

(** The databases called during a stretch of the trace, call by call. *)
Definition used (t : list Event) : list handle :=
  omap (λ ev, match ev with EvStore h _ => Some h | _ => None end) t.

(** The calls made on databases during a stretch of the trace. *)
Definition store_calls (t : list Event) : list StoreCall :=
  omap (λ ev, match ev with EvStore _ c => Some c | _ => None end) t.

(** The total of the [totalRequests] of the registered instances. *)
Definition instance_requests (reg : gmap string (gmap string RegistryEntry)) : Z :=
  foldr Z.add 0 ((λ x, totalRequests (stats x.2)) <$> allEntries reg).

(** What the callback of a dispatcher leaves alone up to its call of
    [respond]: the registry and the order of its keys, the statistics, the
    waiting initializers and the list of the constructions begun. *)
Definition untouched (w w' : World E) : Prop :=
  databaseRegistry w' = databaseRegistry w ∧
  requestStats w' = requestStats w ∧
  pending w' = pending w ∧
  inits (trace w') = inits (trace w) ∧
  created w' = created w.

(** A computation that leaves all that alone. *)
Definition quiet {A} (m : M A) : Prop := ∀ w, untouched w (m w).2.

(** [m] runs quietly and then either throws or ends in [respond rc _]. *)
Definition ends_with (rc : ResponseCallback) (m : M unit) : Prop :=
  ∀ w, ∃ w0, untouched w w0 ∧
    ((∃ x, m w = (Throw x, w0)) ∨ ∃ response, m w = respond rc response w0).

(** The function a dispatcher's callback answers through. *)
Definition answer_of (cb : DbCallback) : ResponseCallback :=
  match cb with
  | processGet_cb _ _ rc | processFind_cb _ _ rc | processInsert_cb _ _ rc
  | processUpdate_cb _ _ rc | processRemove_cb _ _ rc
  | processTransform_cb _ _ _ _ rc | processDynamicView_cb _ _ _ _ rc
  | processDynamicViewTransform_cb _ _ _ _ _ rc => rc
  end.

(** The sum of [g] over the values of a dictionary. *)
Definition total {V} (g : V → Z) (m : gmap string V) : Z :=
  foldr Z.add 0 ((λ kv, g kv.2) <$> map_to_list m).

(** The requests counted by the instances of one initializer. *)
Definition bucket_requests (inner : gmap string RegistryEntry) : Z :=
  total (λ entry, totalRequests (stats entry)) inner.

(** The pair under which a response callback records its statistics. *)
Definition key_of (rc : ResponseCallback) : string * string :=
  match rc with export_cb _ s f => (s, f) end.

(** The global count of requests and the counts of the instances agree. *)
Definition consistent (w : World E) : Prop :=
  totalRequests (requestStats w) = instance_requests (databaseRegistry w).

(** [w'] has the same waiting initializers, the same initializers called and
    the same instances under the same keys as [w], and the two counts of
    requests have moved together. *)
Definition settled (w w' : World E) : Prop :=
  totalRequests (requestStats w') - instance_requests (databaseRegistry w') =
    totalRequests (requestStats w) - instance_requests (databaseRegistry w) ∧
  pending w' = pending w ∧
  inits (trace w') = inits (trace w) ∧
  ∀ s f, instance <$> entry_of (databaseRegistry w') s f =
         instance <$> entry_of (databaseRegistry w) s f.

(** The pair a data operation names. *)
Definition key_data (d : DataOp) : string * string :=
  match d with
  | op_get s f _ _ | op_find s f _ _ | op_insert s f _ _ | op_update s f _ _
  | op_remove s f _ _ | op_transform s f _ _ _ _ | op_transformRaw s f _ _ _ _
  | op_dynamicView s f _ _ _ _ | op_dynamicViewTransform s f _ _ _ _ _ => (s, f)
  end.

(** The list of the keys created agrees with the registry: no key is listed
    twice, the buckets listed are the buckets there are, and the files
    listed are the pairs registered. *)
Definition ordered (w : World E) : Prop :=
  NoDup (created w) ∧
  (∀ s, (s, None) ∈ created w ↔ is_Some (databaseRegistry w !! s)) ∧
  (∀ s f, (s, Some f) ∈ created w ↔ is_Some (entry_of (databaseRegistry w) s f)).

(** A step that names no property every object inherits. *)
Definition own_names (a : Action) : bool :=
  match a with
  | Call (op_data d) => negb (inherited (key_data d).1) && negb (inherited (key_data d).2)
  | _ => true
  end.

(** The fields of [serviceStats] that [stats] writes. *)
Definition stats_keys : list string :=
  ["memoryUsage"; "instanceNames"; "nodeUptime"; "cpuUsageUser"; "cpuUsageSystem";
   "cpuUsage"].

(** [m] runs quietly and then either throws or ends in [getDatabase s f],
    with a callback that answers under the key [(s, f)]. *)
Definition ends_in_getDatabase (s f : string) (m : M unit) : Prop :=
  ∀ w, ∃ w0, untouched w w0 ∧
    ((∃ x, m w = (Throw x, w0)) ∨
     ∃ cb, key_of (answer_of cb) = (s, f) ∧ m w = getDatabase s f cb w0).

(** A request that found no entry and whose initializer has begun a
    construction for [(s, f)]: the request waits; nothing else has changed. *)
Definition asked (s f : string) (w w' : World E) : Prop :=
  entry_of (databaseRegistry w) s f = None ∧
  totalRequests (requestStats w') - instance_requests (databaseRegistry w') =
    totalRequests (requestStats w) - instance_requests (databaseRegistry w) ∧
  (∀ s' f', entry_of (databaseRegistry w') s' f' = entry_of (databaseRegistry w) s' f') ∧
  is_Some (databaseRegistry w' !! s) ∧
  inits (trace w') = inits (trace w) ++ [(s, f)] ∧
  ∃ n cb, key_of (answer_of cb) = (s, f) ∧ pending w' = pending w ++ [waiting s f n cb].

(** A waiting request answers under the pair it waits for. *)
Definition keyed (p : Pending) : Prop :=
  key_of (answer_of (p_callback p)) = (p_serviceName p, p_filename p).

(** The first answer for a pair: when an initializer answers, its pair has
    no entry yet. *)
Definition first_answer (a : Action) (w : World E) : Prop :=
  match a with
  | Call _ => True
  | InitAnswers i =>
      ∀ p, pending w !! i = Some p →
        entry_of (databaseRegistry w) (p_serviceName p) (p_filename p) = None
  end.

(** The calls of the initializer for one pair. *)
Definition inits_for (s f : string) (t : list Event) : list (string * string) :=
  filter (λ key, key = (s, f)) (inits t).

(** Requests served one after the other, each to its end. *)
Definition serve (ops : list Operation) : list Action := ops ≫= served.

(** *** Further notions

    What a data request does from its first statement to its response, the
    accounting of [stopTiming], and the lists that [stats] and the
    dispatchers build. *)

(** The statistic a data operation is recorded under: [transformRaw] has no
    counter of its own, nor has [dynamicViewTransform]. *)
Definition stat_of (d : DataOp) : StatName :=
  match d with
  | op_get _ _ _ _ => s_get
  | op_find _ _ _ _ => s_find
  | op_insert _ _ _ _ => s_insert
  | op_update _ _ _ _ => s_update
  | op_remove _ _ _ _ => s_remove
  | op_transform _ _ _ _ _ _ | op_transformRaw _ _ _ _ _ _ => s_transform
  | op_dynamicView _ _ _ _ _ _ | op_dynamicViewTransform _ _ _ _ _ _ _ => s_dynamicView
  end.

(** The function the export of a data operation hands to its dispatcher. *)
Definition answer_data (d : DataOp) : ResponseCallback :=
  export_cb (stat_of d) (key_data d).1 (key_data d).2.

(** The state after [started = startTiming(_)]: the clock has been read and
    the reading is kept in [started]. *)
Definition begun (w : World E) : World E :=
  with_started (to_ms (hrtime (ext w)).1) (with_ext (hrtime (ext w)).2 w).

(** [m] changes nothing and then either throws or is [getDatabase s f] with a
    callback that answers through [rc]. *)
Definition resolving (s f : string) (rc : ResponseCallback) (m : M unit) : Prop :=
  ∀ w, (∃ x, m w = (Throw x, w)) ∨ ∃ cb, answer_of cb = rc ∧ m w = getDatabase s f cb w.

(** Events that are calls on the database [db]. *)
Definition store_events (db : dbref) (pre : list Event) : Prop :=
  Forall (λ ev, ∃ h c, db = IDb h ∧ ev = EvStore h c) pre.

(** [w0] is [w] after calls on [db]: the trace has grown by such calls, the
    collaborators may have changed, the variables of the module have not. *)
Definition after_store (db : dbref) (w w0 : World E) : Prop :=
  databaseRegistry w0 = databaseRegistry w ∧ requestStats w0 = requestStats w ∧
  started w0 = started w ∧ pending w0 = pending w ∧ created w0 = created w ∧
  ∃ pre, trace w0 = trace w ++ pre ∧ store_events db pre.

(** A computation that only calls [db]. *)
Definition storing {A} (db : dbref) (m : M A) : Prop := ∀ w, after_store db w (m w).2.

(** [m] only calls [db] and then either throws or ends in [respond rc _]. *)
Definition responding (db : dbref) (rc : ResponseCallback) (m : M unit) : Prop :=
  ∀ w, ∃ w0, after_store db w w0 ∧
    ((∃ x, m w = (Throw x, w0)) ∨ ∃ result, m w = respond rc (JSON_stringify result) w0).

(** A computation that changes nothing but the trace, to which it adds calls
    on [db]. *)
Definition reading {A} (db : dbref) (m : M A) : Prop :=
  ∀ w, ∃ pre, store_events db pre ∧ (m w).2 = with_trace (trace w ++ pre) w.

(** [m] only calls [db] and then either throws, or makes a last call on it
    and hands the serialised result of that call to [rc]. *)
Definition delivering (db : dbref) (rc : ResponseCallback) (m : M unit) : Prop :=
  ∀ w, (∃ x w0, m w = (Throw x, w0) ∧ after_store db w w0) ∨
       ∃ h call result e' pre0,
         db = IDb h ∧ store_events db pre0 ∧
         store_answer (ext w) h call = (Ok result, e') ∧
         m w = respond rc (JSON_stringify result)
                 (with_ext e' (with_trace (trace w ++ pre0 ++ [EvStore h call]) w)).

(** Two names of statistics are the same or not. *)
#[global] Instance StatName_eq_dec : EqDecision StatName.
Proof. solve_decision. Defined.

(** The statistic a response callback records under. *)
Definition stat_name (rc : ResponseCallback) : StatName :=
  match rc with export_cb k _ _ => k end.

(** One request recorded in a bucket under [k], with [ms] of elapsed time:
    the total and the counter of [k] have gone up by one, the total time and
    the time of [k] by [ms], and the other counters and times are as they
    were. *)
Definition counts_once (k : StatName) (ms : Q) (st st' : Stats) : Prop :=
  totalRequests st' = totalRequests st + 1 ∧
  totalTime st' = (totalTime st + ms)%Q ∧
  ∀ k', stat_requests k' st' = stat_requests k' st + (if decide (k' = k) then 1 else 0) ∧
        stat_time k' st' = if decide (k' = k) then (stat_time k' st + ms)%Q else stat_time k' st.

(** The total of a bucket is the sum of its seven counters. *)
Definition balanced (st : Stats) : Prop :=
  totalRequests st =
    getRequests st + findRequests st + transformRequests st + dynamicViewRequests st
    + insertRequests st + updateRequests st + removeRequests st.

(** The state after the four statements of [stopTiming] on the global
    bucket. *)
Definition counted (k : StatName) (w : World E) : World E :=
  with_requestStats
    (record_request k (to_ms (hrtime (ext w)).1 - started w)%Q (requestStats w))
    (with_ext (hrtime (ext w)).2 w).

(** Every bucket adds up: the global one and that of every registered pair. *)
Definition all_balanced (w : World E) : Prop :=
  balanced (requestStats w) ∧
  ∀ s f entry, entry_of (databaseRegistry w) s f = Some entry → balanced (stats entry).

(** Data requests and answers of initializers, in the order they happen. *)
Definition requests (l : list (DataOp + nat)) : list Action :=
  (λ x, match x with inl d => Call (op_data d) | inr i => InitAnswers i end) <$> l.

(** The global count of requests is the number of calls of the host
    callback. *)
Definition accounted (w : World E) : Prop :=
  totalRequests (requestStats w) = Z.of_nat (length (callbacks (trace w))).

(** Every waiting request answers under its own pair, and the bucket of its
    initializer is there. *)
Definition expected (w : World E) : Prop :=
  Forall (λ p, keyed p ∧ is_Some (databaseRegistry w !! p_serviceName p)) (pending w).

(** A computation that leaves the state as it is. *)
Definition pure {A} (m : M A) : Prop := ∀ w, (m w).2 = w.

(** A computation that, run in [w], throws and leaves the state as it is. *)
Definition failing {A} (m : M A) (w : World E) : Prop := ∃ x, m w = (Throw x, w).

(** The collection a callback works on, and the view if it works on one. *)
Definition collection_name (cb : DbCallback) : string :=
  match cb with
  | processGet_cb c _ _ | processFind_cb c _ _ | processInsert_cb c _ _
  | processUpdate_cb c _ _ | processRemove_cb c _ _ | processTransform_cb c _ _ _ _
  | processDynamicView_cb c _ _ _ _ | processDynamicViewTransform_cb c _ _ _ _ _ => c
  end.

Definition view_name (cb : DbCallback) : option string :=
  match cb with
  | processDynamicView_cb _ v _ _ _ | processDynamicViewTransform_cb _ v _ _ _ _ => Some v
  | _ => None
  end.

(** A computation that does not write [started]. *)
Definition keeps_started {A} (m : M A) : Prop := ∀ w, started (m w).2 = started w.

(** The identity [processGet] looks up: a string is read as a decimal
    number, anything else is passed on as it is. *)
Definition lookup_id (id : value) : value :=
  match id with VStr s => parseInt10 s | _ => id end.

(** Payloads that [insert] and [update] cannot take: [null], [undefined],
    and a record with a field of its own named [hasOwnProperty]. *)
Inductive unusable : value → Prop :=
| unusable_null : unusable VNull
| unusable_undefined : unusable VUndefined
| unusable_shadow (o : obj) v : o !! "hasOwnProperty" = Some v → unusable (VObj o).

(** An optional text parameter after [x ? JSON.parse(x) : undefined]. *)
Definition given (x : value) : res value :=
  if truthy x then JSON_parse x else Ok VUndefined.

(** What the callback of a dispatcher asks of the database it is given, when
    it has one call to make: [call], provided the database is there, has the
    collection [c] and, when a view is named, the collection has the view;
    nothing otherwise. *)
Definition calls_on (db : dbref) (e : E) (c : string) (v : option string)
    (call : StoreCall) : list StoreCall :=
  match db with
  | INull | IOther => []
  | IDb h =>
      if getCollection e h c && from_option (getDynamicView e h c) true v
      then [call] else []
  end.


(** *** Walking through a computation *)

Lemma callbacks_app t1 t2 : callbacks (t1 ++ t2) = callbacks t1 ++ callbacks t2.
Proof. apply omap_app. Qed.

(** Monad laws used to walk through the code. *)
Lemma bind_ok {A B} (m : M A) (f : A → M B) w a w1 :
  m w = (Ok a, w1) → (m ≫= f) w = f a w1.
Proof. unfold mbind, M_bind. by intros ->. Qed.

Lemma bind_throw {A B} (m : M A) (f : A → M B) w e w1 :
  m w = (Throw e, w1) → (m ≫= f) w = (Throw e, w1).
Proof. unfold mbind, M_bind. by intros ->. Qed.

(** *** [getDatabase] case by case *)

Lemma entry_of_bucket (reg : gmap string (gmap string RegistryEntry)) s s' f :
  entry_of (<[s := default ∅ (reg !! s)]> reg) s' f = entry_of reg s' f.
Proof.
  unfold entry_of. destruct (decide (s = s')) as [->|Hne].
  - rewrite lookup_insert_eq. by destruct (reg !! s').
  - by rewrite lookup_insert_ne.
Qed.

Lemma entry_of_touch w s s' f :
  entry_of (databaseRegistry (touch s w)) s' f = entry_of (databaseRegistry w) s' f.
Proof. apply entry_of_bucket. Qed.

Lemma getDatabase_hit w s f cb entry :
  entry_of (databaseRegistry w) s f = Some entry →
  getDatabase s f cb w = on_database cb (instance entry) (touch s w).
Proof.
  intros Hhit. unfold getDatabase, mbind, M_bind, modify, read. simpl.
  by rewrite entry_of_bucket, Hhit.
Qed.

Lemma getDatabase_miss w s f cb :
  entry_of (databaseRegistry w) s f = None →
  getDatabase s f cb w =
    match require_init s f (ext w) with
    | (Ok n, e) =>
        (Ok tt, with_pending (pending w ++ [waiting s f n cb])
                  (with_trace (trace w ++ [EvInit s f]) (with_ext e (touch s w))))
    | (Throw x, e) => (Throw x, with_ext e (touch s w))
    end.
Proof.
  intros Hmiss. unfold getDatabase, mbind, M_bind, modify, read, emit, modify, call. simpl.
  rewrite entry_of_bucket, Hmiss.
  simpl. by destruct (require_init s f (ext w)) as [[db|x] e].
Qed.

(** *** The answer of an initializer *)

Lemma initDone_nobody w i : pending w !! i = None → initDone i w = (Ok tt, w).
Proof. intros Hi. unfold initDone, mbind, M_bind, read. by rewrite Hi. Qed.

Lemma initDone_answer w i p inner :
  pending w !! i = Some p →
  databaseRegistry w !! p_serviceName p = Some inner →
  initDone i w = on_database (p_callback p) (answered p w) (registered p inner i w).
Proof.
  intros Hi Hs. unfold initDone, mbind, M_bind, read, modify, call. rewrite Hi. simpl.
  unfold registered, fresh_entry, answered.
  destruct (init_answer (p_construction p) (ext w)) as [d e]. simpl. by rewrite Hs.
Qed.

Lemma initDone_no_bucket w i p :
  pending w !! i = Some p →
  databaseRegistry w !! p_serviceName p = None →
  initDone i w =
    (Throw TypeError,
     with_ext (init_answer (p_construction p) (ext w)).2
       (with_pending (delete i (pending w)) w)).
Proof.
  intros Hi Hs. unfold initDone, mbind, M_bind, read, modify, call. rewrite Hi. simpl.
  destruct (init_answer (p_construction p) (ext w)) as [d e]. simpl. by rewrite Hs.
Qed.

(** *** What the dispatchers hand to the store *)

Lemma parse_if_string_parsed doc w : parse_if_string doc w = (parsed doc, w).
Proof. unfold parse_if_string, parsed. by destruct (is_string doc). Qed.

Lemma strip_meta_record (o : obj) w :
  o !! "hasOwnProperty" = None →
  strip_meta (VObj o) w = (Ok (VObj (delete "meta" o)), w).
Proof.
  intros Hown. unfold strip_meta, mbind, M_bind, lift, hasOwnProperty. simpl.
  rewrite Hown. rewrite (bool_decide_eq_false_2 (is_Some None)) by (by intros [? ?]).
  destruct (o !! "meta") as [m|] eqn:Hm; simpl; [done|].
  by rewrite delete_id.
Qed.

Lemma strip_zero_id_record (o : obj) w :
  strip_zero_id (VObj o) w = (Ok (VObj (if zero_id o then delete "$loki" o else o)), w).
Proof.
  unfold strip_zero_id, mbind, M_bind, lift, zero_id, id_of. simpl.
  by destruct (strict_zero _).
Qed.

Lemma collection_of_found w h c :
  getCollection (ext w) h c = true → collection_of (IDb h) c w = (Ok h, w).
Proof. intros Hc. unfold collection_of, mbind, M_bind, read. by rewrite Hc. Qed.


Lemma respond_registered w k s f response inner entry :
  databaseRegistry w !! s = Some inner →
  inner !! f = Some entry →
  respond (export_cb k s f) response w =
    (Ok tt, with_trace (trace w ++ [EvCallback VNull response]) (recorded k s f inner entry w)).
Proof.
  intros Hs Hf.
  unfold respond, stopTiming, mbind, M_bind, read, modify, call, emit, modify, recorded.
  simpl. destruct (hrtime (ext w)) as [t e]. simpl. by rewrite Hs, Hf.
Qed.



Lemma respond_trace cb response w :
  trace (respond cb response w).2 =
    trace w ++ (if is_ok (respond cb response w).1 then [EvCallback VNull response] else []).
Proof.
  destruct cb as [k s f].
  unfold respond, stopTiming, mbind, M_bind, read, modify, call, emit, modify. simpl.
  destruct (hrtime (ext w)) as [t e]. simpl.
  destruct (databaseRegistry w !! s) as [inner|]; simpl; [|by rewrite app_nil_r].
  destruct (inner !! f) as [entry|]; simpl; [done|by rewrite app_nil_r].
Qed.

Lemma insert_form_meta (o : obj) : insert_form o !! "meta" = None.
Proof. apply lookup_delete_eq. Qed.

Lemma insert_form_zero_id (o : obj) : zero_id o = true → insert_form o !! "$loki" = None.
Proof.
  intros Hz. unfold insert_form. rewrite Hz.
  by rewrite lookup_delete_ne, lookup_delete_eq.
Qed.

Lemma insert_form_other_id (o : obj) :
  zero_id o = false → insert_form o !! "$loki" = o !! "$loki".
Proof. intros Hz. unfold insert_form. rewrite Hz. by rewrite lookup_delete_ne. Qed.

Lemma insert_form_field (o : obj) k :
  k ≠ "meta" → k ≠ "$loki" → insert_form o !! k = o !! k.
Proof.
  intros Hm Hl. unfold insert_form. rewrite lookup_delete_ne by done.
  destruct (zero_id o); [by rewrite lookup_delete_ne|done].
Qed.

Lemma processInsert_record w h c doc (o : obj) cb :
  parsed doc = Ok (VObj o) →
  o !! "hasOwnProperty" = None →
  getCollection (ext w) h c = true →
  on_database (processInsert_cb c doc cb) (IDb h) w =
    (let w1 := with_trace (trace w ++ [EvStore h (c_insert c (VObj (insert_form o)))]) w in
     match coll_insert (ext w) h c (VObj (insert_form o)) with
     | (Ok result, e) => respond cb (JSON_stringify result) (with_ext e w1)
     | (Throw x, e) => (Throw x, with_ext e w1)
     end).
Proof.
  intros Hdoc Hown Hcoll.
  unfold on_database, mbind, M_bind.
  rewrite parse_if_string_parsed, Hdoc, strip_zero_id_record.
  rewrite strip_meta_record
    by (destruct (zero_id o); [by rewrite lookup_delete_ne|done]).
  fold (insert_form o). rewrite (collection_of_found _ _ _ Hcoll).
  unfold emit, modify, call. simpl.
  by destruct (coll_insert (ext w) h c (VObj (insert_form o))) as [[result|x] e].
Qed.

(** *** Shutdown *)

(** Every entry of the registry is visited, once. *)
Lemma elem_of_allEntries (reg : gmap string (gmap string RegistryEntry)) s f entry :
  (s, f, entry) ∈ allEntries reg ↔ entry_of reg s f = Some entry.
Proof.
  unfold allEntries, entry_of. rewrite list_elem_of_bind. split.
  - intros ([s' inner] & Hin & Hreg). apply elem_of_map_to_list in Hreg.
    apply list_elem_of_bind in Hin as ([f' entry'] & Hin & Hinner).
    apply elem_of_map_to_list in Hinner. apply list_elem_of_singleton in Hin.
    simplify_eq. by rewrite Hreg.
  - destruct (reg !! s) as [inner|] eqn:Hreg; [simpl|done]. intros Hinner.
    exists (s, inner). split; [|by apply elem_of_map_to_list].
    apply list_elem_of_bind. exists (f, entry).
    split; [by apply list_elem_of_singleton|by apply elem_of_map_to_list].
Qed.

Lemma NoDup_allEntries (reg : gmap string (gmap string RegistryEntry)) :
  NoDup (allEntries reg).
Proof.
  unfold allEntries. apply NoDup_bind; [| |apply NoDup_map_to_list].
  - intros [s1 inner1] [s2 inner2] [[s f] entry] H1 H2 Hy1 Hy2.
    apply elem_of_map_to_list in H1, H2.
    apply list_elem_of_bind in Hy1 as ([f1 e1] & Hy1 & _).
    apply list_elem_of_bind in Hy2 as ([f2 e2] & Hy2 & _).
    apply list_elem_of_singleton in Hy1, Hy2. simplify_eq. done.
  - intros [s inner] _. apply NoDup_bind; [| |apply NoDup_map_to_list].
    + intros [f1 e1] [f2 e2] y _ _ Hy1 Hy2.
      apply list_elem_of_singleton in Hy1, Hy2. by simplify_eq.
    + intros [f entry] _. apply NoDup_singleton.
Qed.

Lemma allEntries_empty : allEntries ∅ = [].
Proof. unfold allEntries. by rewrite map_to_list_empty. Qed.

Lemma closing_callbacks l :
  callbacks (l ≫= closing) = (λ _, (VNull, VUndefined)) <$> live l.
Proof.
  induction l as [|x l IH]; [done|]. rewrite bind_cons, callbacks_app, IH.
  unfold closing, live. simpl. by destruct (instance x.2).
Qed.

Lemma closing_closed l : closed (l ≫= closing) = live l.
Proof.
  induction l as [|x l IH]; [done|]. rewrite bind_cons.
  unfold closed in *. rewrite omap_app, IH.
  unfold closing, live. simpl. by destruct (instance x.2).
Qed.

(** *** [instanceStats] and [dynamicView] *)

(** For a pair that is not registered, [instanceStats] calls [callback(null)]
    and goes on: the next statement reads a property of [undefined]. *)
Lemma instanceStats_unregistered (w : World E) s f :
  entry_of (databaseRegistry w) s f = None →
  exports_instanceStats s f w =
    (Throw TypeError, with_trace (trace w ++ [EvCallback VNull VUndefined]) w).
Proof.
  unfold entry_of, exports_instanceStats, mbind, M_bind, read. simpl.
  destruct (databaseRegistry w !! s) as [inner|] eqn:Hs; simpl.
  - intros Hf. by rewrite Hf.
  - done.
Qed.

(** [processDynamicView] does not look at the name it is given, only at
    whether one is given: the transform it asks for is always the one called
    "transformName". *)
Lemma dynamicView_ignores_the_name (w : World E) db c v name1 name2 params cb :
  truthy name1 = true → truthy name2 = true →
  on_database (processDynamicView_cb c v name1 params cb) db w =
  on_database (processDynamicView_cb c v name2 params cb) db w.
Proof. intros H1 H2. unfold on_database. by rewrite H1, H2. Qed.

(** *** What a dispatcher's callback leaves alone *)

Lemma untouched_refl w : untouched w w.
Proof. done. Qed.

Lemma untouched_trans w1 w2 w3 : untouched w1 w2 → untouched w2 w3 → untouched w1 w3.
Proof. intros (?&?&?&?&?) (?&?&?&?&?). repeat split; congruence. Qed.

Lemma inits_app t1 t2 : inits (t1 ++ t2) = inits t1 ++ inits t2.
Proof. apply omap_app. Qed.

Lemma quiet_ret {A} (a : A) : quiet (mret a : M A).
Proof. intros w. apply untouched_refl. Qed.
Lemma quiet_throw {A} e : quiet (throw e : M A).
Proof. intros w. apply untouched_refl. Qed.
Lemma quiet_lift {A} (r : res A) : quiet (lift r : M A).
Proof. intros w. apply untouched_refl. Qed.
Lemma quiet_read {A} (f : World E → A) : quiet (read f).
Proof. intros w. apply untouched_refl. Qed.
Lemma quiet_ask {A} (f : E → res A) : quiet (ask f).
Proof. intros w. apply untouched_refl. Qed.
Lemma quiet_call {A} (f : E → res A * E) : quiet (call f).
Proof. intros w. unfold call. by destruct (f (ext w)). Qed.
Lemma quiet_emit_store h c : quiet (emit (EvStore h c)).
Proof. intros w. repeat split. simpl. by rewrite inits_app, app_nil_r. Qed.
Lemma quiet_emit_callback err r : quiet (emit (EvCallback err r)).
Proof. intros w. repeat split. simpl. by rewrite inits_app, app_nil_r. Qed.
Lemma quiet_emit_log line : quiet (emit (EvLog line)).
Proof. intros w. repeat split. simpl. by rewrite inits_app, app_nil_r. Qed.
Lemma quiet_set_serviceStats k v : quiet (set_serviceStats k v).
Proof. intros w. by repeat split. Qed.

Lemma quiet_bind {A B} (m : M A) (f : A → M B) :
  quiet m → (∀ a, quiet (f a)) → quiet (m ≫= f).
Proof.
  intros Hm Hf w. specialize (Hm w). unfold mbind, M_bind.
  destruct (m w) as [[a|e] w1]; simpl in *; [|done].
  eapply untouched_trans; [done|apply Hf].
Qed.

Lemma ends_bind {A} rc (m : M A) (f : A → M unit) :
  quiet m → (∀ a, ends_with rc (f a)) → ends_with rc (m ≫= f).
Proof.
  intros Hm Hf w. specialize (Hm w). unfold mbind, M_bind.
  destruct (m w) as [[a|e] w1]; simpl in *.
  - destruct (Hf a w1) as (w0 & Hw0 & Hend). exists w0.
    split; [by eapply untouched_trans|done].
  - exists w1. split; [done|]. left. by exists e.
Qed.

Lemma ends_respond rc response : ends_with rc (respond rc response).
Proof. intros w. exists w. split; [apply untouched_refl|]. right. by exists response. Qed.

Create HintDb quiet discriminated.
#[local] Hint Resolve quiet_ret quiet_throw quiet_lift quiet_read quiet_ask quiet_call
  quiet_emit_store quiet_emit_callback quiet_emit_log quiet_set_serviceStats
  ends_respond : quiet.

Ltac walk_quiet :=
  repeat first
    [ progress intros
    | apply quiet_bind
    | apply ends_bind
    | solve [eauto with quiet]
    | match goal with
      | |- quiet (match ?x with _ => _ end) => destruct x
      | |- ends_with _ (match ?x with _ => _ end) => destruct x
      | |- quiet (if ?x then _ else _) => destruct x
      | |- ends_with _ (if ?x then _ else _) => destruct x
      | |- quiet (let '(_, _) := ?x in _) => destruct x
      | |- ends_with _ (let '(_, _) := ?x in _) => destruct x
      end ].

Lemma on_database_ends cb db : ends_with (answer_of cb) (on_database cb db).
Proof.
  destruct cb; unfold on_database, collection_of, view_of, parse_if_string,
    parse_if_given, strip_meta, strip_zero_id; simpl; walk_quiet.
Qed.

(** *** Sums over the registry *)

Lemma sum_permutation (l l' : list Z) : l ≡ₚ l' → foldr Z.add 0 l = foldr Z.add 0 l'.
Proof. induction 1; simpl; lia. Qed.

Lemma total_empty {V} (g : V → Z) : total g ∅ = 0.
Proof. unfold total. by rewrite map_to_list_empty. Qed.

Lemma total_insert_fresh {V} (g : V → Z) (m : gmap string V) k v :
  m !! k = None → total g (<[k := v]> m) = g v + total g m.
Proof.
  intros Hk. unfold total.
  rewrite (sum_permutation _ ((λ kv, g kv.2) <$> ((k, v) :: map_to_list m))); [done|].
  by rewrite map_to_list_insert.
Qed.

Lemma total_insert {V} (g : V → Z) (m : gmap string V) k v v' :
  m !! k = Some v → total g (<[k := v']> m) = total g m - g v + g v'.
Proof.
  intros Hk. rewrite <- (insert_delete_eq m k v').
  rewrite <- (insert_delete_id m k v Hk) at 2.
  rewrite !total_insert_fresh by apply lookup_delete_eq. lia.
Qed.

Lemma sum_app (l1 l2 : list Z) :
  foldr Z.add 0 (l1 ++ l2) = foldr Z.add 0 l1 + foldr Z.add 0 l2.
Proof. induction l1; simpl; lia. Qed.

Lemma instance_requests_total (reg : gmap string (gmap string RegistryEntry)) :
  instance_requests reg = total bucket_requests reg.
Proof.
  unfold instance_requests, allEntries, total.
  induction (map_to_list reg) as [|[s inner] l IH]; [done|].
  rewrite bind_cons, fmap_app, sum_app, fmap_cons, IH. simpl. f_equal.
  unfold bucket_requests, total.
  induction (map_to_list inner) as [|[f entry] l' IH']; [done|].
  rewrite bind_cons, fmap_app, sum_app, IH'. simpl. by rewrite Z.add_0_r.
Qed.

Lemma instance_requests_update reg s f inner entry entry' :
  reg !! s = Some inner → inner !! f = Some entry →
  instance_requests (<[s := <[f := entry']> inner]> reg) =
    instance_requests reg - totalRequests (stats entry) + totalRequests (stats entry').
Proof.
  intros Hs Hf. rewrite !instance_requests_total.
  rewrite (total_insert _ _ _ _ _ Hs). unfold bucket_requests at 2 3.
  rewrite (total_insert _ _ _ _ _ Hf). lia.
Qed.

Lemma instance_requests_register reg s f inner entry :
  reg !! s = Some inner → inner !! f = None →
  instance_requests (<[s := <[f := entry]> inner]> reg) =
    instance_requests reg + totalRequests (stats entry).
Proof.
  intros Hs Hf. rewrite !instance_requests_total.
  rewrite (total_insert _ _ _ _ _ Hs). unfold bucket_requests at 2 3.
  rewrite (total_insert_fresh _ _ _ _ Hf). lia.
Qed.

Lemma instance_requests_bucket reg s :
  instance_requests (<[s := default ∅ (reg !! s)]> reg) = instance_requests reg.
Proof.
  rewrite !instance_requests_total. destruct (reg !! s) as [inner|] eqn:Hs; simpl.
  - by rewrite insert_id.
  - rewrite (total_insert_fresh _ _ _ _ Hs). unfold bucket_requests. by rewrite total_empty.
Qed.

Lemma totalRequests_record k ms st :
  totalRequests (record_request k ms st) = totalRequests st + 1.
Proof. by destruct k. Qed.

(** *** Statistics and instances across a dispatcher's callback *)

Lemma settled_refl w : settled w w.
Proof. done. Qed.

Lemma settled_trans w1 w2 w3 : settled w1 w2 → settled w2 w3 → settled w1 w3.
Proof.
  intros (?&?&?&Hi1) (?&?&?&Hi2).
  split; [congruence|]. split; [congruence|]. split; [congruence|].
  intros s f. by rewrite Hi2, Hi1.
Qed.

Lemma untouched_settled w w' : untouched w w' → settled w w'.
Proof. intros (Hr & Hs & Hp & Hi & _). repeat split; try done; by rewrite ?Hr, ?Hs. Qed.

Lemma touch_settled s w : settled w (touch s w).
Proof.
  unfold touch. repeat split; simpl.
  - by rewrite instance_requests_bucket.
  - intros s' f. by rewrite entry_of_bucket.
Qed.

Lemma entry_of_update (reg : gmap string (gmap string RegistryEntry)) s f inner entry s' f' :
  reg !! s = Some inner →
  entry_of (<[s := <[f := entry]> inner]> reg) s' f' =
    if decide (s = s' ∧ f = f') then Some entry else entry_of reg s' f'.
Proof.
  intros Hs. unfold entry_of. destruct (decide (s = s')) as [<-|Hne].
  - rewrite lookup_insert_eq, Hs. simpl. destruct (decide (f = f')) as [<-|Hnf].
    + rewrite lookup_insert_eq. by rewrite decide_True.
    + rewrite lookup_insert_ne by done. by rewrite decide_False by (by intros [_ ?]).
  - rewrite lookup_insert_ne by done. by rewrite decide_False by (by intros [? _]).
Qed.

Lemma respond_settled rc response w :
  is_Some (entry_of (databaseRegistry w) (key_of rc).1 (key_of rc).2) →
  settled w (respond rc response w).2.
Proof.
  destruct rc as [k s f]. unfold key_of, entry_of. cbn [fst snd]. intros [entry Hentry].
  destruct (databaseRegistry w !! s) as [inner|] eqn:Hs; [simpl in Hentry|done].
  rewrite (respond_registered _ _ _ _ _ _ _ Hs Hentry). unfold recorded.
  split; [|split; [done|split]]; cbn -[instance_requests record_request].
  - rewrite (instance_requests_update _ _ _ _ _ _ Hs Hentry).
    cbn -[instance_requests record_request].
    rewrite !totalRequests_record. lia.
  - by rewrite inits_app, app_nil_r.
  - intros s' f'. rewrite (entry_of_update _ _ _ _ _ _ _ Hs).
    destruct (decide (s = s' ∧ f = f')) as [[<- <-]|]; [|done].
    unfold entry_of. by rewrite Hs; simpl; rewrite Hentry.
Qed.

Lemma on_database_settled cb db w :
  is_Some (entry_of (databaseRegistry w) (key_of (answer_of cb)).1 (key_of (answer_of cb)).2) →
  settled w (on_database cb db w).2.
Proof.
  intros Hkey. destruct (on_database_ends cb db w) as (w0 & Hw0 & [[x ->]| [response ->]]).
  - by apply untouched_settled.
  - eapply settled_trans; [by apply untouched_settled|]. apply respond_settled.
    destruct Hw0 as (-> & _). done.
Qed.

(** *** What an action does to the registry and to the statistics *)

(** Reads the fields of a state written with the [with_] functions. *)
Ltac fields :=
  cbn [write_entry with_pending with_ext with_trace with_registry with_requestStats
       with_started with_created with_serviceStats
       databaseRegistry requestStats pending trace ext started created serviceStats fst snd].

Lemma resolves_bind {A} s f (m : M A) (k : A → M unit) :
  quiet m → (∀ a, ends_in_getDatabase s f (k a)) → ends_in_getDatabase s f (m ≫= k).
Proof.
  intros Hm Hk w. specialize (Hm w). unfold mbind, M_bind.
  destruct (m w) as [[a|e] w1]; simpl in *.
  - destruct (Hk a w1) as (w0 & Hw0 & Hend). exists w0.
    split; [by eapply untouched_trans|done].
  - exists w1. split; [done|]. left. by exists e.
Qed.

Lemma resolves_getDatabase s f cb :
  key_of (answer_of cb) = (s, f) → ends_in_getDatabase s f (getDatabase s f cb).
Proof. intros Hkey w. exists w. split; [apply untouched_refl|]. right. by exists cb. Qed.

Lemma quiet_timed k : quiet (timed k).
Proof.
  unfold timed, startTiming, modify. intros w. unfold mbind, M_bind, call, mret, M_ret.
  by destruct (hrtime (ext w)).
Qed.

Lemma invoke_data_resolves d :
  ends_in_getDatabase (key_data d).1 (key_data d).2 (invoke_data d).
Proof.
  destruct d; simpl;
    unfold exports_get, exports_find, exports_insert, exports_update, exports_remove,
      exports_transform, exports_transformRaw, exports_dynamicView,
      exports_dynamicViewTransform, processGet, processFind, processInsert, processUpdate,
      processRemove, processTransform, processDynamicViewTransform, processDynamicView,
      parse_if_given;
    repeat first
      [ progress intros
      | apply resolves_getDatabase; reflexivity
      | apply resolves_bind
      | apply quiet_timed
      | apply quiet_bind
      | solve [eauto with quiet]
      | match goal with
        | |- ends_in_getDatabase _ _ (if ?x then _ else _) => destruct x
        | |- ends_in_getDatabase _ _ (let '(_, _) := ?x in _) => destruct x
        | |- quiet (if ?x then _ else _) => destruct x
        end ].
Qed.

Lemma getDatabase_effect s f cb w :
  key_of (answer_of cb) = (s, f) →
  settled w (getDatabase s f cb w).2 ∨ asked s f w (getDatabase s f cb w).2.
Proof.
  intros Hkey. destruct (entry_of (databaseRegistry w) s f) as [entry|] eqn:Hentry.
  - left. rewrite (getDatabase_hit _ _ _ _ _ Hentry).
    eapply settled_trans; [apply touch_settled|]. apply on_database_settled.
    rewrite Hkey. cbn [fst snd]. by rewrite entry_of_touch, Hentry.
  - rewrite (getDatabase_miss _ _ _ _ Hentry).
    destruct (require_init s f (ext w)) as [[n|x] e].
    + right. unfold asked, touch. fields.
      split; [done|]. split; [by rewrite instance_requests_bucket|].
      split; [intros; apply entry_of_bucket|].
      split; [by rewrite lookup_insert_eq|]. split; [by rewrite inits_app|].
      by exists n, cb.
    + left. eapply settled_trans; [apply touch_settled|]. by apply untouched_settled.
Qed.

Lemma untouched_then_settled w w0 w' : untouched w w0 → settled w0 w' → settled w w'.
Proof. intros H0 H1. eapply settled_trans; [by apply untouched_settled|done]. Qed.

Lemma untouched_then_asked s f w w0 w' : untouched w w0 → asked s f w0 w' → asked s f w w'.
Proof.
  intros (Hr & Hs & Hp & Hi & _) (Hnone & Hbal & Hent & Hbucket & Hinits & Hpend).
  unfold asked. by rewrite <- Hr, <- Hs, <- Hp, <- Hi.
Qed.

Lemma invoke_data_effect d w :
  settled w (invoke_data d w).2 ∨
  asked (key_data d).1 (key_data d).2 w (invoke_data d w).2.
Proof.
  destruct (invoke_data_resolves d w) as (w0 & Hw0 & [[x ->]|(cb & Hkey & ->)]).
  - left. by apply untouched_settled.
  - destruct (getDatabase_effect _ _ _ w0 Hkey) as [Hset|Hask].
    + left. by eapply untouched_then_settled.
    + right. by eapply untouched_then_asked.
Qed.

Lemma quiet_for_each {A} (body : A → M unit) l :
  (∀ x, quiet (body x)) → quiet (for_each body l).
Proof. intros Hbody. induction l; simpl; walk_quiet. Qed.

Lemma quiet_other_exports op :
  match op with op_data _ => True | _ => quiet (invoke op) end.
Proof.
  destruct op as [d| |s f|]; [done|..]; simpl.
  - unfold exports_stats. walk_quiet.
  - unfold exports_instanceStats. walk_quiet.
  - unfold exports_shutdown. apply quiet_bind; [walk_quiet|]. intros keys.
    apply quiet_for_each. intros [initName instName]. unfold shutdown_body. walk_quiet.
Qed.

Lemma initDone_effect w i p :
  pending w !! i = Some p → keyed p →
  pending (initDone i w).2 = delete i (pending w) ∧
  inits (trace (initDone i w).2) = inits (trace w) ∧
  (∀ s f, (s, f) ≠ (p_serviceName p, p_filename p) →
     instance <$> entry_of (databaseRegistry (initDone i w).2) s f =
     instance <$> entry_of (databaseRegistry w) s f) ∧
  (entry_of (databaseRegistry w) (p_serviceName p) (p_filename p) = None →
     totalRequests (requestStats (initDone i w).2)
       - instance_requests (databaseRegistry (initDone i w).2) =
     totalRequests (requestStats w) - instance_requests (databaseRegistry w)).
Proof.
  intros Hi Hkey.
  destruct (databaseRegistry w !! p_serviceName p) as [inner|] eqn:Hs.
  - rewrite (initDone_answer _ _ _ _ Hi Hs).
    assert (is_Some (entry_of (databaseRegistry (registered p inner i w))
              (key_of (answer_of (p_callback p))).1 (key_of (answer_of (p_callback p))).2))
      as Hreg.
    { rewrite Hkey. unfold registered. fields.
      rewrite (entry_of_update _ _ _ _ _ _ _ Hs). by rewrite decide_True. }
    destruct (on_database_settled (p_callback p) (answered p w) _ Hreg)
      as (Hbal & Hpend & Hinits & Hinst).
    split; [by rewrite Hpend|]. split; [by rewrite Hinits|]. split.
    + intros s f Hne. rewrite Hinst. unfold registered. fields.
      rewrite (entry_of_update _ _ _ _ _ _ _ Hs).
      by rewrite decide_False by (intros [<- <-]; done).
    + intros Hnone. unfold entry_of in Hnone. rewrite Hs in Hnone. simpl in Hnone.
      rewrite Hbal. unfold registered. fields.
      rewrite (instance_requests_register _ _ _ _ _ Hs Hnone). simpl. lia.
  - rewrite (initDone_no_bucket _ _ _ Hi Hs). by fields.
Qed.

(** The statistics stay consistent across every action, as long as no
    initializer answers for a pair that already has an entry. *)
Lemma stats_consistent_step (a : Action) (w : World E) :
  consistent w → Forall keyed (pending w) → first_answer a w →
  consistent (step a w).2 ∧ Forall keyed (pending (step a w).2).
Proof.
  unfold consistent. intros Hcons Hkeyed Hfirst. destruct a as [[d| |s f|]|i].
  - change (step (Call (op_data d)) w) with (invoke_data d w).
    destruct (invoke_data_effect d w)
      as [(Hbal & Hpend & _)|(_ & Hbal & _ & _ & _ & n & cb & Hkey & Hpend)].
    + rewrite Hpend. split; [lia|done].
    + split; [lia|]. rewrite Hpend.
      apply Forall_app. split; [done|]. by repeat constructor.
  - change (step (Call op_stats) w) with (invoke op_stats w).
    destruct (quiet_other_exports op_stats w) as (-> & -> & -> & _). done.
  - change (step (Call (op_instanceStats s f)) w) with (invoke (op_instanceStats s f) w).
    destruct (quiet_other_exports (op_instanceStats s f) w) as (-> & -> & -> & _). done.
  - change (step (Call op_shutdown) w) with (invoke op_shutdown w).
    destruct (quiet_other_exports op_shutdown w) as (-> & -> & -> & _). done.
  - change (step (InitAnswers i) w) with (initDone i w).
    destruct (pending w !! i) as [p|] eqn:Hi.
    + assert (keyed p) as Hp by (eapply Forall_lookup_1; done).
      destruct (initDone_effect _ _ _ Hi Hp) as (Hpend & _ & _ & Hbal).
      specialize (Hbal (Hfirst p Hi)). rewrite Hpend. split; [lia|].
      by apply Forall_delete.
    + by rewrite (initDone_nobody _ _ Hi).
Qed.

(** *** Requests that overlap *)

(** Two requests for a pair without an entry, the second made before the
    initializer has answered the first: if the initializer can be called, it
    is called for each, and both requests wait. *)
Lemma getDatabase_twice_before_answer w s f cb1 cb2 n1 e1 n2 e2 :
  entry_of (databaseRegistry w) s f = None →
  require_init s f (ext w) = (Ok n1, e1) →
  require_init s f e1 = (Ok n2, e2) →
  inits (trace (getDatabase s f cb2 (getDatabase s f cb1 w).2).2) =
    inits (trace w) ++ [(s, f); (s, f)] ∧
  pending (getDatabase s f cb2 (getDatabase s f cb1 w).2).2 =
    pending w ++ [waiting s f n1 cb1; waiting s f n2 cb2].
Proof.
  intros Hmiss H1 H2. rewrite (getDatabase_miss w _ _ _ Hmiss), H1. cbn [snd].
  rewrite getDatabase_miss by (unfold touch; fields; by rewrite entry_of_bucket).
  fields. rewrite H2. fields.
  by rewrite !inits_app, <- !app_assoc.
Qed.

(** The answer of an initializer writes its entry whether or not the pair has
    one: an entry that was there is replaced, and its statistics with it. *)
Lemma initDone_overwrites w i p inner :
  entry_of (databaseRegistry (registered p inner i w)) (p_serviceName p) (p_filename p) =
    Some {| instance := answered p w; stats := zero_stats |}.
Proof.
  unfold registered, entry_of. fields.
  rewrite lookup_insert_eq. simpl. by rewrite lookup_insert_eq.
Qed.

(** *** Requests served one after the other *)

Lemma run_app l1 l2 (w : World E) : (run (l1 ++ l2) w).2 = (run l2 (run l1 w).2).2.
Proof.
  revert w. induction l1 as [|a l1 IH]; intros w; [done|]. simpl.
  destruct (step a w) as [r w1]. specialize (IH w1).
  destruct (run (l1 ++ l2) w1), (run l1 w1). simpl in *. by rewrite IH.
Qed.

Lemma run_served op (w : World E) :
  (run (served op) w).2 = (initDone 0 (invoke op w).2).2.
Proof.
  unfold served, run. change (step (Call op) w) with (invoke op w).
  destruct (invoke op w) as [r w1]. simpl.
  by destruct (initDone 0 w1).
Qed.

(** One request served, with nobody waiting before it: nobody waits after
    it, the statistics stay consistent, and a pair that had an entry keeps
    its instance and sees no further call of its initializer. *)
Lemma served_effect op (w : World E) :
  pending w = [] →
  pending (run (served op) w).2 = [] ∧
  (consistent w → consistent (run (served op) w).2) ∧
  ∀ s f, is_Some (entry_of (databaseRegistry w) s f) →
    instance <$> entry_of (databaseRegistry (run (served op) w).2) s f =
      instance <$> entry_of (databaseRegistry w) s f ∧
    inits_for s f (trace (run (served op) w).2) = inits_for s f (trace w).
Proof.
  intros Hnobody. rewrite run_served. unfold consistent, inits_for.
  assert (settled w (invoke op w).2 ∨ ∃ s f, asked s f w (invoke op w).2) as [Hset|Hask].
  { destruct op as [d| |s f|].
    - destruct (invoke_data_effect d w); [by left|right; eauto].
    - left. apply untouched_settled, (quiet_other_exports op_stats).
    - left. apply untouched_settled, (quiet_other_exports (op_instanceStats s f)).
    - left. apply untouched_settled, (quiet_other_exports op_shutdown). }
  - destruct Hset as (Hbal & Hpend & Hinits & Hinst).
    rewrite initDone_nobody by (by rewrite Hpend, Hnobody). cbn [snd].
    rewrite Hpend, Hinits. split; [done|]. split; [lia|]. intros s f _. by rewrite Hinst.
  - destruct Hask as (s' & f' & Hnone & Hbal & Hent & Hbucket & Hinits & n & cb & Hkey & Hpend).
    assert (∀ s f, is_Some (entry_of (databaseRegistry w) s f) → (s', f') ≠ (s, f)) as Hother.
    { intros s f [entry Hentry] [= <- <-]. congruence. }
    rewrite Hnobody in Hpend. simpl in Hpend.
    assert (pending (invoke op w).2 !! 0%nat = Some (waiting s' f' n cb)) as Hwait
      by (by rewrite Hpend).
    destruct (initDone_effect _ _ _ Hwait Hkey) as (Hpend' & Hinits' & Hinst' & Hbal').
    cbn [waiting p_serviceName p_filename] in *.
    rewrite Hpend', Hpend, Hinits', Hinits. split; [done|]. split.
    + intros Hcons. rewrite Hent in Hbal'. specialize (Hbal' Hnone). lia.
    + intros s f Hsome. rewrite Hinst' by (by apply not_eq_sym, Hother).
      rewrite Hent. split; [done|].
      rewrite filter_app, filter_cons_False by (by apply Hother).
      by rewrite app_nil_r.
Qed.

Lemma serve_effect ops (w : World E) :
  pending w = [] →
  pending (run (serve ops) w).2 = [] ∧
  (consistent w → consistent (run (serve ops) w).2) ∧
  ∀ s f, is_Some (entry_of (databaseRegistry w) s f) →
    instance <$> entry_of (databaseRegistry (run (serve ops) w).2) s f =
      instance <$> entry_of (databaseRegistry w) s f ∧
    inits_for s f (trace (run (serve ops) w).2) = inits_for s f (trace w).
Proof.
  revert w. induction ops as [|op ops IH]; intros w Hnobody; [done|].
  unfold serve. rewrite bind_cons, run_app. fold (serve ops).
  destruct (served_effect op w Hnobody) as (Hp1 & Hc1 & Hi1).
  destruct (IH _ Hp1) as (Hp2 & Hc2 & Hi2).
  split; [done|]. split; [by intros; apply Hc2, Hc1|].
  intros s f Hsome. destruct (Hi1 s f Hsome) as [Hinst1 Hinits1].
  assert (is_Some (entry_of (databaseRegistry (run (served op) w).2) s f)) as Hsome'.
  { destruct Hsome as [entry Hentry]. rewrite Hentry in Hinst1.
    destruct (entry_of (databaseRegistry (run (served op) w).2) s f); [done|].
    discriminate. }
  destruct (Hi2 s f Hsome') as [Hinst2 Hinits2].
  split; congruence.
Qed.

(** X1.  Requests served one after the other from the state the module is
    loaded in, each to its end before the next is made: whatever the requests
    and whatever the host, the global count of requests equals the sum of the
    counts of the registered instances. *)
Lemma served_requests_stay_consistent ops (e : E) :
  consistent (run (serve ops) (loaded e)).2.
Proof. by apply serve_effect. Qed.

(** X2.  Once a pair has its entry and nobody waits, requests served one
    after the other never call its initializer again, and they find the same
    instance under the pair. *)
Lemma served_requests_reuse_the_instance ops (w : World E) s f :
  pending w = [] →
  is_Some (entry_of (databaseRegistry w) s f) →
  instance <$> entry_of (databaseRegistry (run (serve ops) w).2) s f =
    instance <$> entry_of (databaseRegistry w) s f ∧
  inits_for s f (trace (run (serve ops) w).2) = inits_for s f (trace w).
Proof. intros Hnobody Hsome. by apply serve_effect. Qed.

(** *** A data request, from its first statement to its response *)

Lemma resolving_lift {A} s f rc (r : res A) (k : A → M unit) :
  (∀ a, resolving s f rc (k a)) → resolving s f rc (lift r ≫= k).
Proof.
  intros Hk w. unfold mbind, M_bind, lift. destruct r as [a|x]; [apply Hk|].
  left. by exists x.
Qed.

Lemma resolving_ret {A} s f rc (a : A) (k : A → M unit) :
  resolving s f rc (k a) → resolving s f rc (mret a ≫= k).
Proof. intros Hk w. apply Hk. Qed.

Lemma resolving_getDatabase s f rc cb :
  answer_of cb = rc → resolving s f rc (getDatabase s f cb).
Proof. intros Hcb w. right. by exists cb. Qed.

Lemma timed_begun k w : timed k w = (Ok tt, begun w).
Proof.
  unfold timed, startTiming, begun, mbind, M_bind, call, modify, mret, M_ret.
  by destruct (hrtime (ext w)).
Qed.

Lemma resolving_parse_if_given s f rc x (k : value → M unit) :
  (∀ a, resolving s f rc (k a)) → resolving s f rc (parse_if_given x ≫= k).
Proof.
  intros Hk. unfold parse_if_given. destruct (truthy x).
  - by apply resolving_lift.
  - by apply resolving_ret.
Qed.

Lemma resolving_assoc {A B} s f rc (m : M A) (g : A → M B) (k : B → M unit) :
  resolving s f rc (m ≫= λ a, g a ≫= k) → resolving s f rc ((m ≫= g) ≫= k).
Proof.
  intros Hm w. specialize (Hm w). unfold mbind, M_bind in *.
  by destruct (m w) as [[a|x] w1].
Qed.

(** Every data export reads the clock and then, unless a parameter parsed
    before fails, resolves its pair. *)
Lemma invoke_data_begins (d : DataOp) w :
  (∃ x, invoke_data d w = (Throw x, begun w)) ∨
  ∃ cb, answer_of cb = answer_data d ∧
    invoke_data d w = getDatabase (key_data d).1 (key_data d).2 cb (begun w).
Proof.
  assert (∀ k (m : M unit), (timed k ;; m) w = m (begun w)) as Htimed.
  { intros k m. unfold mbind, M_bind. by rewrite timed_begun. }
  assert (∀ s f rc m, resolving s f rc m →
    (∃ x, m (begun w) = (Throw x, begun w)) ∨
    ∃ cb, answer_of cb = rc ∧ m (begun w) = getDatabase s f cb (begun w)) as Hres.
  { intros s f rc m Hm. apply Hm. }
  destruct d; cbn [invoke_data];
    unfold exports_get, exports_find, exports_insert, exports_update, exports_remove,
      exports_transform, exports_transformRaw, exports_dynamicView,
      exports_dynamicViewTransform;
    rewrite Htimed; apply Hres; unfold answer_data; cbn [stat_of key_data fst snd];
    unfold processGet, processFind, processInsert, processUpdate,
      processRemove, processTransform, processDynamicViewTransform, processDynamicView;
    repeat first
      [ progress intros
      | match goal with
        | |- resolving _ _ _ (getDatabase _ _ _) => apply resolving_getDatabase; reflexivity
        | |- resolving _ _ _ (parse_if_given _ ≫= _) => apply resolving_parse_if_given
        | |- resolving _ _ _ (lift _ ≫= _) => apply resolving_lift
        | |- resolving _ _ _ (mret _ ≫= _) => apply resolving_ret
        | |- resolving _ _ _ ((if ?x then _ else _) ≫= _) => destruct x
        | |- resolving _ _ _ ((_ ≫= _) ≫= _) => apply resolving_assoc
        | |- resolving _ _ _ (if ?x then _ else _) => destruct x
        | |- resolving _ _ _ (let '(_, _) := ?x in _) => destruct x
        end ].
Qed.

(** *** What the callback of a dispatcher does before it responds *)

Lemma after_store_refl db w : after_store db w w.
Proof. repeat split. exists []. split; [by rewrite app_nil_r|constructor]. Qed.

Lemma after_store_trans db w1 w2 w3 :
  after_store db w1 w2 → after_store db w2 w3 → after_store db w1 w3.
Proof.
  intros (?&?&?&?&?&pre1&Ht1&Hs1) (?&?&?&?&?&pre2&Ht2&Hs2).
  split; [congruence|]. split; [congruence|]. split; [congruence|]. split; [congruence|].
  split; [congruence|].
  exists (pre1 ++ pre2). split; [by rewrite Ht2, Ht1, app_assoc|by apply Forall_app].
Qed.

Lemma storing_ret {A} db (a : A) : storing db (mret a : M A).
Proof. intros w. apply after_store_refl. Qed.
Lemma storing_throw {A} db e : storing db (throw e : M A).
Proof. intros w. apply after_store_refl. Qed.
Lemma storing_lift {A} db (r : res A) : storing db (lift r : M A).
Proof. intros w. apply after_store_refl. Qed.
Lemma storing_read {A} db (f : World E → A) : storing db (read f).
Proof. intros w. apply after_store_refl. Qed.
Lemma storing_ask {A} db (f : E → res A) : storing db (ask f).
Proof. intros w. apply after_store_refl. Qed.
Lemma storing_call {A} db (f : E → res A * E) : storing db (call f).
Proof.
  intros w. unfold call. destruct (f (ext w)) as [r e]. repeat split.
  exists []. split; [by rewrite app_nil_r|constructor].
Qed.
Lemma storing_emit h c : storing (IDb h) (emit (EvStore h c)).
Proof.
  intros w. repeat split. exists [EvStore h c]. split; [done|].
  repeat constructor. by exists h, c.
Qed.

Lemma storing_bind {A B} db (m : M A) (f : A → M B) :
  storing db m → (∀ a, storing db (f a)) → storing db (m ≫= f).
Proof.
  intros Hm Hf w. specialize (Hm w). unfold mbind, M_bind.
  destruct (m w) as [[a|e] w1]; simpl in *; [|done].
  eapply after_store_trans; [done|apply Hf].
Qed.

Lemma responding_bind {A} db rc (m : M A) (f : A → M unit) :
  storing db m → (∀ a, responding db rc (f a)) → responding db rc (m ≫= f).
Proof.
  intros Hm Hf w. specialize (Hm w). unfold mbind, M_bind.
  destruct (m w) as [[a|e] w1]; simpl in *.
  - destruct (Hf a w1) as (w0 & Hw0 & Hend). exists w0.
    split; [by eapply after_store_trans|done].
  - exists w1. split; [done|]. left. by exists e.
Qed.

Lemma responding_respond db rc result : responding db rc (respond rc (JSON_stringify result)).
Proof. intros w. exists w. split; [apply after_store_refl|]. right. by exists result. Qed.

(** The handle [collection_of db _] returns is that of [db]. *)
Lemma responding_collection db c rc (f : handle → M unit) :
  (∀ h, db = IDb h → responding db rc (f h)) → responding db rc (collection_of db c ≫= f).
Proof.
  intros Hf. destruct db as [| |h]; unfold collection_of.
  - intros w. exists w. split; [apply after_store_refl|]. left. by exists TypeError.
  - intros w. exists w. split; [apply after_store_refl|]. left. by exists TypeError.
  - intros w. unfold mbind, M_bind, read. simpl.
    destruct (getCollection (ext w) h c); [apply (Hf h eq_refl)|].
    exists w. split; [apply after_store_refl|]. left. by exists TypeError.
Qed.

Lemma storing_view_of db h c v : storing db (view_of h c v).
Proof.
  unfold view_of. apply storing_bind; [apply storing_read|]. intros e.
  destruct (getDynamicView e h c v); [apply storing_ret|apply storing_throw].
Qed.

Lemma storing_parse_if_string db x : storing db (parse_if_string x).
Proof. unfold parse_if_string. destruct (is_string x); [apply storing_lift|apply storing_ret]. Qed.

Lemma storing_parse_if_given db x : storing db (parse_if_given x).
Proof. unfold parse_if_given. destruct (truthy x); [apply storing_lift|apply storing_ret]. Qed.

Lemma storing_strip_meta db x : storing db (strip_meta x).
Proof. unfold strip_meta. apply storing_bind; [apply storing_lift|]. intros; apply storing_ret. Qed.

Lemma storing_strip_zero_id db x : storing db (strip_zero_id x).
Proof.
  unfold strip_zero_id. apply storing_bind; [apply storing_lift|]. intros; apply storing_ret.
Qed.

(** The callback of every dispatcher calls the database it was given and
    nothing else, and then throws or hands a serialised result to the
    function of its export. *)
Lemma on_database_responds cb db : responding db (answer_of cb) (on_database cb db).
Proof.
  destruct cb; unfold on_database; simpl;
    repeat first
      [ progress intros
      | progress simplify_eq
      | apply responding_respond
      | apply responding_collection
      | apply responding_bind
      | apply storing_emit
      | apply storing_view_of
      | apply storing_parse_if_string
      | apply storing_parse_if_given
      | apply storing_strip_meta
      | apply storing_strip_zero_id
      | apply storing_lift
      | apply storing_ask
      | apply storing_call
      | match goal with
        | |- responding _ _ (if ?x then _ else _) => destruct x
        end ].
Qed.

(** *** The two outcomes of [respond] *)

Lemma respond_unregistered w k s f response :
  entry_of (databaseRegistry w) s f = None →
  respond (export_cb k s f) response w = (Throw TypeError, counted k w).
Proof.
  unfold entry_of. intros Hnone.
  unfold respond, stopTiming, mbind, M_bind, read, modify, call, emit, modify, counted.
  simpl. destruct (hrtime (ext w)) as [t e]. simpl.
  destruct (databaseRegistry w !! s) as [inner|]; simpl in *; [|done].
  by rewrite Hnone.
Qed.

Lemma record_request_counts k ms st : counts_once k ms st (record_request k ms st).
Proof.
  split; [by destruct k|]. split; [by destruct k|].
  intros k'. destruct k, k'; split; cbn; case_decide; first [done | lia].
Qed.

Lemma record_request_balanced k ms st : balanced st → balanced (record_request k ms st).
Proof. unfold balanced. destruct k; simpl; lia. Qed.

(** *** An induction principle for the state of the module

    The module writes its registry, the order of its keys and its statistics
    in four ways only: line 76 creates an empty bucket; [stopTiming] records
    a request in the global bucket, and in the entry of a pair, whose
    instance it keeps; the answer of an initializer writes an entry with
    statistics at zero. *)
Section Invariant.
Variable Inv : World E → Prop.
Hypothesis Inv_frame : ∀ w w',
  databaseRegistry w' = databaseRegistry w → requestStats w' = requestStats w →
  created w' = created w → Inv w → Inv w'.
Hypothesis Inv_touch : ∀ w s, Inv w → Inv (touch s w).
Hypothesis Inv_global : ∀ w k ms,
  Inv w → Inv (with_requestStats (record_request k ms (requestStats w)) w).
Hypothesis Inv_entry : ∀ w k ms s f inner entry,
  databaseRegistry w !! s = Some inner → inner !! f = Some entry → Inv w →
  Inv (with_registry
       (<[s := <[f := {| instance := instance entry;
                         stats := record_request k ms (stats entry) |}]> inner]>
          (databaseRegistry w)) w).

Lemma respond_invariant rc response w : Inv w → Inv (respond rc response w).2.
Proof.
  intros Hw. destruct rc as [k s f].
  destruct (entry_of (databaseRegistry w) s f) as [entry|] eqn:Hentry.
  - unfold entry_of in Hentry.
    destruct (databaseRegistry w !! s) as [inner|] eqn:Hs; [simpl in Hentry|done].
    rewrite (respond_registered _ _ _ _ _ _ _ Hs Hentry). cbn [snd].
    apply (Inv_frame (recorded k s f inner entry w)); [done..|].
    unfold recorded. apply (Inv_entry (with_requestStats _ (with_ext _ w))); [done..|].
    apply (Inv_global (with_ext _ w)). by apply (Inv_frame w).
  - rewrite (respond_unregistered _ _ _ _ _ Hentry). cbn [snd]. unfold counted.
    apply (Inv_global (with_ext _ w)). by apply (Inv_frame w).
Qed.

Lemma on_database_invariant cb db w : Inv w → Inv (on_database cb db w).2.
Proof.
  intros Hw.
  destruct (on_database_responds cb db w)
    as (w0 & (Hr & Hs & _ & _ & Hc & _) & [[x ->]|[result ->]]).
  - by apply (Inv_frame w).
  - apply respond_invariant. by apply (Inv_frame w).
Qed.

Lemma getDatabase_invariant s f cb w : Inv w → Inv (getDatabase s f cb w).2.
Proof.
  intros Hw. destruct (entry_of (databaseRegistry w) s f) as [entry|] eqn:Hentry.
  - rewrite (getDatabase_hit _ _ _ _ _ Hentry). by apply on_database_invariant, Inv_touch.
  - rewrite (getDatabase_miss _ _ _ _ Hentry).
    destruct (require_init s f (ext w)) as [[n|x] e]; cbn [snd];
      apply (Inv_frame (touch s w)); try done; by apply Inv_touch.
Qed.

Lemma invoke_invariant op w : Inv w → Inv (invoke op w).2.
Proof.
  intros Hw. destruct op as [d| |s f|].
  - change (invoke (op_data d) w) with (invoke_data d w).
    assert (Inv (begun w)) as Hb by (by apply (Inv_frame w)).
    destruct (invoke_data_begins d w) as [[x ->]|(cb & _ & ->)]; [done|].
    by apply getDatabase_invariant.
  - destruct (quiet_other_exports op_stats w) as (Hr & Hs & _ & _ & Hc).
    by apply (Inv_frame w).
  - destruct (quiet_other_exports (op_instanceStats s f) w) as (Hr & Hs & _ & _ & Hc).
    by apply (Inv_frame w).
  - destruct (quiet_other_exports op_shutdown w) as (Hr & Hs & _ & _ & Hc).
    by apply (Inv_frame w).
Qed.

Hypothesis Inv_fresh : ∀ w s f inner d,
  databaseRegistry w !! s = Some inner → Inv w →
  Inv (write_entry s f {| instance := d; stats := zero_stats |} inner w).

Lemma initDone_invariant i w : Inv w → Inv (initDone i w).2.
Proof.
  intros Hw. destruct (pending w !! i) as [p|] eqn:Hi.
  - destruct (databaseRegistry w !! p_serviceName p) as [inner|] eqn:Hs.
    + rewrite (initDone_answer _ _ _ _ Hi Hs). apply on_database_invariant.
      unfold registered, fresh_entry.
      apply (Inv_fresh (with_ext _ (with_pending _ w))); [done|].
      by apply (Inv_frame w).
    + rewrite (initDone_no_bucket _ _ _ Hi Hs). by apply (Inv_frame w).
  - by rewrite (initDone_nobody _ _ Hi).
Qed.

Lemma step_invariant a w : Inv w → Inv (step a w).2.
Proof. destruct a as [op|i]; [apply invoke_invariant|apply initDone_invariant]. Qed.

Lemma run_invariant actions w : Inv w → Inv (run actions w).2.
Proof.
  revert w. induction actions as [|a actions IH]; intros w Hw; [done|]. simpl.
  pose proof (step_invariant a w Hw) as Hstep.
  destruct (step a w) as [r w1]. specialize (IH w1 Hstep).
  by destruct (run actions w1).
Qed.

End Invariant.

(** *** Invariants of the registry and of the statistics *)

(** X3.  After any sequence of calls of the exports and of answers of
    initializers, in any order, from the state the module is loaded in, the
    total of every bucket is the sum of its seven counters: in the global
    bucket and in the bucket of every registered pair, each request recorded
    has gone to the total and to exactly one counter. *)
Theorem totals_are_sums_of_counters (actions : list Action) (e : E) :
  all_balanced (run actions (loaded e)).2.
Proof.
  apply run_invariant.
  - intros w w' Hr Hs _ [Hg He]. split; [by rewrite Hs|]. intros s f entry. rewrite Hr. apply He.
  - intros w s [Hg He]. split; [done|]. intros s' f entry. rewrite entry_of_touch. apply He.
  - intros w k ms [Hg He]. split; [by apply record_request_balanced|done].
  - intros w k ms s f inner entry Hs Hf [Hg He]. split; [done|]. intros s' f' entry'. fields.
    rewrite (entry_of_update _ _ _ _ _ _ _ Hs). case_decide as Hkey.
    + intros [= <-]. apply record_request_balanced. apply (He s f).
      unfold entry_of. by rewrite Hs.
    + apply He.
  - intros w s f inner d Hs [Hg He]. split; [done|]. intros s' f' entry'. fields.
    rewrite (entry_of_update _ _ _ _ _ _ _ Hs). case_decide as Hkey; [|apply He].
    by intros [= <-].
  - split; [done|]. intros s f entry. unfold entry_of. simpl. by rewrite lookup_empty.
Qed.

Lemma run_calls_invariant (Inv : World E → Prop) :
  (∀ op w, Inv w → Inv (invoke op w).2) → ∀ ops w, Inv w → Inv (run (Call <$> ops) w).2.
Proof.
  intros Hstep ops. induction ops as [|op ops IH]; intros w Hw; [done|].
  rewrite fmap_cons. simpl. change (step (Call op) w) with (invoke op w).
  specialize (Hstep op w Hw). destruct (invoke op w) as [r w1]. specialize (IH w1 Hstep).
  by destruct (run (Call <$> ops) w1).
Qed.

(** X4.  A registered pair stays registered: no export and no answer of an
    initializer removes an entry, [shutdown] included.  And the exports
    never change which instance a pair has, nor register a pair: only the
    answer of an initializer writes an instance. *)
Theorem registered_pairs_stay_registered :
  (∀ (actions : list Action) (w : World E) s f,
     is_Some (entry_of (databaseRegistry w) s f) →
     is_Some (entry_of (databaseRegistry (run actions w).2) s f)) ∧
  (∀ (ops : list Operation) (w : World E) s f,
     instance <$> entry_of (databaseRegistry (run (Call <$> ops) w).2) s f =
     instance <$> entry_of (databaseRegistry w) s f).
Proof.
  split.
  - intros actions w s f. apply (run_invariant (λ w, is_Some (entry_of (databaseRegistry w) s f))).
    + intros w1 w2 Hr _ _. by rewrite Hr.
    + intros w1 s1. by rewrite entry_of_touch.
    + done.
    + intros w1 k ms s1 f1 inner entry Hs Hf. fields.
      rewrite (entry_of_update _ _ _ _ _ _ _ Hs). by case_decide.
    + intros w1 s1 f1 inner d Hs. fields.
      rewrite (entry_of_update _ _ _ _ _ _ _ Hs). by case_decide.
  - intros ops w s f.
    apply (run_calls_invariant (λ w', instance <$> entry_of (databaseRegistry w') s f =
                                      instance <$> entry_of (databaseRegistry w) s f));
      [|done].
    intros op.
    apply (invoke_invariant (λ w', instance <$> entry_of (databaseRegistry w') s f =
                                    instance <$> entry_of (databaseRegistry w) s f)).
    + intros w1 w2 Hr _ _. by rewrite Hr.
    + intros w1 s1. by rewrite entry_of_touch.
    + done.
    + intros w1 k ms s1 f1 inner entry Hs Hf. fields.
      rewrite (entry_of_update _ _ _ _ _ _ _ Hs). case_decide as Hkey; [|done].
      destruct Hkey as [<- <-]. intros <-. unfold entry_of. by rewrite Hs; simpl; rewrite Hf.
Qed.

(** *** Requests counted and callbacks delivered *)

Lemma store_events_callbacks db pre : store_events db pre → callbacks pre = [].
Proof.
  induction 1 as [|ev pre (h & c & _ & ->) _ IH]; [done|]. exact IH.
Qed.

Lemma store_events_inits db pre : store_events db pre → inits pre = [].
Proof.
  induction 1 as [|ev pre (h & c & _ & ->) _ IH]; [done|]. exact IH.
Qed.

Lemma store_events_used db pre h : store_events db pre → h ∈ used pre → db = IDb h.
Proof.
  induction 1 as [|ev pre (h' & c & Hdb & ->) _ IH]; [by intros ?%elem_of_nil|].
  unfold used. simpl. intros [->|Hin]%elem_of_cons; [done|by apply IH].
Qed.

Lemma bucket_kept (reg : gmap string (gmap string RegistryEntry)) s inner s' :
  is_Some (reg !! s') → is_Some (<[s := inner]> reg !! s').
Proof.
  intros Hsome. destruct (decide (s = s')) as [->|Hne].
  - by rewrite lookup_insert_eq.
  - by rewrite lookup_insert_ne.
Qed.

Lemma expected_bucket w w' :
  pending w' = pending w →
  (∀ s, is_Some (databaseRegistry w !! s) → is_Some (databaseRegistry w' !! s)) →
  expected w → expected w'.
Proof.
  unfold expected. intros -> Hb Hw. eapply Forall_impl; [exact Hw|].
  intros p [Hk Hs]. split; [done|by apply Hb].
Qed.

Lemma on_database_accounted cb db w :
  is_Some (entry_of (databaseRegistry w) (key_of (answer_of cb)).1 (key_of (answer_of cb)).2) →
  accounted w → expected w →
  accounted (on_database cb db w).2 ∧ expected (on_database cb db w).2.
Proof.
  intros Hkey Hacc Hexp.
  destruct (on_database_responds cb db w)
    as (w0 & (Hr & Hs & _ & Hp & _ & pre & Ht & Hpre) & Hend).
  assert (accounted w0) as Hacc0.
  { unfold accounted. by rewrite Hs, Ht, callbacks_app, (store_events_callbacks _ _ Hpre),
      app_nil_r. }
  assert (expected w0) as Hexp0.
  { apply (expected_bucket w); [done| |done]. intros s. by rewrite Hr. }
  destruct Hend as [[x ->]|[result ->]]; [done|].
  rewrite <- Hr in Hkey. destruct (answer_of cb) as [k s f]. unfold key_of in Hkey.
  cbn [fst snd] in Hkey. destruct Hkey as [entry Hentry]. unfold entry_of in Hentry.
  destruct (databaseRegistry w0 !! s) as [inner|] eqn:Hbucket; [simpl in Hentry|done].
  rewrite (respond_registered _ _ _ _ _ _ _ Hbucket Hentry). cbn [snd]. split.
  - unfold accounted, recorded in *. fields.
    rewrite totalRequests_record, Hacc0, callbacks_app, length_app. simpl. lia.
  - apply (expected_bucket w0); [done| |done]. intros s'. unfold recorded. fields.
    apply bucket_kept.
Qed.

Lemma getDatabase_accounted s f cb w :
  key_of (answer_of cb) = (s, f) →
  accounted w → expected w →
  accounted (getDatabase s f cb w).2 ∧ expected (getDatabase s f cb w).2.
Proof.
  intros Hkey Hacc Hexp.
  assert (expected (touch s w)) as Hexp'.
  { apply (expected_bucket w); [done| |done]. intros s'. unfold touch. fields.
    apply bucket_kept. }
  destruct (entry_of (databaseRegistry w) s f) as [entry|] eqn:Hentry.
  - rewrite (getDatabase_hit _ _ _ _ _ Hentry). apply on_database_accounted; [|done..].
    rewrite Hkey. cbn [fst snd]. by rewrite entry_of_touch, Hentry.
  - rewrite (getDatabase_miss _ _ _ _ Hentry).
    destruct (require_init s f (ext w)) as [[n|x] e]; cbn [snd].
    + split.
      * unfold accounted in *. fields. by rewrite callbacks_app, app_nil_r.
      * unfold expected in *. fields. apply Forall_app. split; [exact Hexp'|].
        repeat constructor; [exact Hkey|]. simpl. by rewrite lookup_insert_eq.
    + split; [done|exact Hexp'].
Qed.

Lemma invoke_data_accounted d w :
  accounted w → expected w →
  accounted (invoke_data d w).2 ∧ expected (invoke_data d w).2.
Proof.
  intros Hacc Hexp.
  destruct (invoke_data_begins d w) as [[x ->]|(cb & Hcb & ->)]; [done|].
  apply getDatabase_accounted; [|done..]. by rewrite Hcb.
Qed.

Lemma initDone_accounted i w :
  accounted w → expected w →
  accounted (initDone i w).2 ∧ expected (initDone i w).2.
Proof.
  intros Hacc Hexp. destruct (pending w !! i) as [p|] eqn:Hi.
  - destruct (Forall_lookup_1 _ _ _ _ Hexp Hi) as [Hkey [inner Hs]].
    rewrite (initDone_answer _ _ _ _ Hi Hs). apply on_database_accounted.
    + rewrite Hkey. cbn [fst snd]. by rewrite initDone_overwrites.
    + done.
    + unfold expected, registered in *. fields. apply Forall_delete.
      eapply Forall_impl; [exact Hexp|]. intros q [Hq Hb]. split; [done|].
      by apply bucket_kept.
  - by rewrite (initDone_nobody _ _ Hi).
Qed.

(** X5.  Data requests and answers of initializers, in any order, from the
    state the module is loaded in: the global count of requests is the
    number of times the host callback has been called.  Every completed
    request is counted, once, and nothing else is: not a request that threw,
    nor one that still waits for its initializer. *)
Theorem completed_requests_are_counted (l : list (DataOp + nat)) (e : E) :
  accounted (run (requests l) (loaded e)).2.
Proof.
  assert (∀ w, accounted w → expected w →
    accounted (run (requests l) w).2 ∧ expected (run (requests l) w).2) as Hrun.
  { induction l as [|[d|i] l IH]; intros w Hacc Hexp; [done|..]; unfold requests;
      rewrite fmap_cons; fold (requests l); simpl.
    - change (step (Call (op_data d)) w) with (invoke_data d w).
      destruct (invoke_data_accounted d w Hacc Hexp) as [Hacc1 Hexp1].
      destruct (invoke_data d w) as [r w1]. specialize (IH w1 Hacc1 Hexp1).
      by destruct (run (requests l) w1).
    - destruct (initDone_accounted i w Hacc Hexp) as [Hacc1 Hexp1].
      destruct (initDone i w) as [r w1]. specialize (IH w1 Hacc1 Hexp1).
      by destruct (run (requests l) w1). }
  apply Hrun; [done|constructor].
Qed.

(** *** The result a data operation hands to the host callback *)

Lemma with_trace_same w : with_trace (trace w ++ []) w = w.
Proof. destruct w. unfold with_trace. simpl. by rewrite app_nil_r. Qed.

Lemma reading_same {A} db (m : M A) : (∀ w, (m w).2 = w) → reading db m.
Proof.
  intros Hm w. exists []. split; [constructor|]. by rewrite Hm, with_trace_same.
Qed.

Lemma reading_ret {A} db (a : A) : reading db (mret a : M A).
Proof. by apply reading_same. Qed.
Lemma reading_lift {A} db (r : res A) : reading db (lift r : M A).
Proof. by apply reading_same. Qed.
Lemma reading_read {A} db (f : World E → A) : reading db (read f).
Proof. by apply reading_same. Qed.
Lemma reading_ask {A} db (f : E → res A) : reading db (ask f).
Proof. by apply reading_same. Qed.
Lemma reading_throw {A} db x : reading db (throw x : M A).
Proof. by apply reading_same. Qed.

Lemma reading_emit h c : reading (IDb h) (emit (EvStore h c)).
Proof.
  intros w. exists [EvStore h c]. split; [|done]. repeat constructor. by exists h, c.
Qed.

Lemma reading_bind {A B} db (m : M A) (f : A → M B) :
  reading db m → (∀ a, reading db (f a)) → reading db (m ≫= f).
Proof.
  intros Hm Hf w. destruct (Hm w) as (pre & Hpre & Hw). unfold mbind, M_bind.
  destruct (m w) as [[a|x] w1]; simpl in Hw; subst w1; [|by exists pre].
  destruct (Hf a (with_trace (trace w ++ pre) w)) as (pre' & Hpre' & ->).
  exists (pre ++ pre'). split; [by apply Forall_app|].
  unfold with_trace. simpl. by rewrite app_assoc.
Qed.

Lemma reading_after_store {A} db (m : M A) w : reading db m → after_store db w (m w).2.
Proof. intros Hm. destruct (Hm w) as (pre & Hpre & ->). repeat split. by exists pre. Qed.

Lemma reading_parse_if_string db x : reading db (parse_if_string x).
Proof. unfold parse_if_string. destruct (is_string x); [apply reading_lift|apply reading_ret]. Qed.

Lemma reading_parse_if_given db x : reading db (parse_if_given x).
Proof. unfold parse_if_given. destruct (truthy x); [apply reading_lift|apply reading_ret]. Qed.

Lemma reading_strip_meta db x : reading db (strip_meta x).
Proof. unfold strip_meta. apply reading_bind; [apply reading_lift|]. intros; apply reading_ret. Qed.

Lemma reading_strip_zero_id db x : reading db (strip_zero_id x).
Proof.
  unfold strip_zero_id. apply reading_bind; [apply reading_lift|]. intros; apply reading_ret.
Qed.

Lemma reading_view_of db h c v : reading db (view_of h c v).
Proof.
  unfold view_of. apply reading_bind; [apply reading_read|]. intros e.
  destruct (getDynamicView e h c v); [apply reading_ret|apply reading_throw].
Qed.

Lemma delivering_bind {A} db rc (m : M A) (f : A → M unit) :
  reading db m → (∀ a, delivering db rc (f a)) → delivering db rc (m ≫= f).
Proof.
  intros Hm Hf w. pose proof (reading_after_store db m w Hm) as Hafter.
  destruct (Hm w) as (pre & Hpre & Hw). unfold mbind, M_bind.
  destruct (m w) as [[a|x] w1]; simpl in Hw, Hafter; [|left; by exists x, w1].
  destruct (Hf a w1) as [(x & w0 & -> & H0)|(h & call & result & e' & pre0 & -> & Hpre0 & Hans & ->)].
  - left. exists x, w0. split; [done|]. by eapply after_store_trans.
  - right. exists h, call, result, e', (pre ++ pre0). subst w1.
    split; [done|]. split; [by apply Forall_app|]. split; [done|].
    unfold with_trace, with_ext. simpl. by rewrite !app_assoc.
Qed.

Lemma delivering_collection db c rc (f : handle → M unit) :
  (∀ h, db = IDb h → delivering db rc (f h)) → delivering db rc (collection_of db c ≫= f).
Proof.
  intros Hf. destruct db as [| |h]; unfold collection_of.
  - intros w. left. exists TypeError, w. split; [done|apply after_store_refl].
  - intros w. left. exists TypeError, w. split; [done|apply after_store_refl].
  - intros w. unfold mbind, M_bind, read. simpl.
    destruct (getCollection (ext w) h c); [apply (Hf h eq_refl)|].
    left. exists TypeError, w. split; [done|apply after_store_refl].
Qed.

(** The last two statements of a callback: the call, and the response. *)
Lemma delivering_ask {A} h call rc (f : E → res A) (g : A → value) :
  (∀ e, store_answer e h call =
          (match f e with Ok r => Ok (g r) | Throw x => Throw x end, e)) →
  delivering (IDb h) rc
    (emit (EvStore h call);; (r ← ask f; respond rc (JSON_stringify (g r)))).
Proof.
  intros Hcall w. specialize (Hcall (ext w)).
  unfold mbind, M_bind, emit, modify, ask. simpl.
  destruct (f (ext w)) as [r|x] eqn:Hf.
  - right. exists h, call, (g r), (ext w), []. rewrite Hcall.
    split; [done|]. split; [constructor|]. by split.
  - left. eexists _, _. split; [done|]. repeat split.
    exists [EvStore h call]. split; [done|]. repeat constructor. by exists h, call.
Qed.

Lemma delivering_call {A} h sc rc (f : E → res A * E) (g : A → value) :
  (∀ e, store_answer e h sc =
          (match (f e).1 with Ok r => Ok (g r) | Throw x => Throw x end, (f e).2)) →
  delivering (IDb h) rc
    (emit (EvStore h sc);; (r ← call f; respond rc (JSON_stringify (g r)))).
Proof.
  intros Hcall w. specialize (Hcall (ext w)).
  unfold mbind, M_bind, emit, modify, call. simpl.
  destruct (f (ext w)) as [[r|x] e'] eqn:Hf; simpl in *.
  - right. exists h, sc, (g r), e', []. rewrite Hcall.
    split; [done|]. split; [constructor|]. by split.
  - left. eexists _, _. split; [done|]. repeat split.
    exists [EvStore h sc]. split; [done|]. repeat constructor. by exists h, sc.
Qed.

(** The callback of every dispatcher only calls the database it was given;
    when it does not throw, the call it made last is the one whose result it
    serialises and hands to the function of its export. *)
Lemma on_database_delivers cb db : delivering db (answer_of cb) (on_database cb db).
Proof.
  destruct cb; unfold on_database; cbn [answer_of];
    repeat first
      [ progress intros
      | progress simplify_eq
      | apply delivering_collection
      | match goal with
        | |- delivering _ ?rc (emit (EvStore ?h ?c) ≫= _) =>
            first
              [ apply (delivering_ask h c rc _ (λ r, r))
              | apply (delivering_ask h c rc _ of_doc) ];
            intros; cbn [store_answer]; repeat case_match; simplify_eq; reflexivity
        | |- delivering _ ?rc (emit (EvStore ?h ?c) ≫= _) =>
            first
              [ apply (delivering_call h c rc _ (λ r, r))
              | apply (delivering_call h c rc _ (λ val, VObj {[ "val" := val ]})) ];
            intros; cbn [store_answer];
            try (destruct (coll_insert _ _ _ _) as [[?|?] ?]);
            try (destruct (coll_update _ _ _ _) as [[?|?] ?]);
            try (destruct (coll_remove _ _ _ _) as [[?|?] ?]);
            reflexivity
        end
      | match goal with
        | |- delivering _ _ (if ?x then _ else _) => destruct x
        end
      | apply delivering_bind;
          [first [ apply reading_parse_if_string | apply reading_parse_if_given
                 | apply reading_strip_meta | apply reading_strip_zero_id
                 | apply reading_view_of | apply reading_emit | apply reading_ask
                 | apply reading_lift ]|] ].
Qed.





(** *** What [insert] and [update] hand to the store *)

Lemma stripped_record (o : obj) : stripped (VObj o) = VObj (insert_form o).
Proof. unfold stripped, insert_form. simpl. by destruct (zero_id o). Qed.

(** C9.  Whatever the payload of [insert], given as a value or as text, what
    [processInsert] hands to the store's [insert] is the payload without the
    [$loki] of its own that is the number [0] and without the [meta] of its
    own: this value is the argument of the one call made on the store, whose
    answer is the response.  For a record these are the fields the claim
    names: [meta] is gone, a [$loki] that was [0] is gone, any other [$loki]
    and every other field are passed on unchanged; so a zero identity never
    reaches the store, which is left to assign one.  A payload that is no
    record has no such field of its own and is handed over as it is.  (On
    [null], [undefined] and a record with a field named [hasOwnProperty] the
    dispatcher throws before the store is called.) *)
Theorem insert_strips_surrogates
    (w : World E) (h : handle) (collection : string) (doc p : value)
    (callback : ResponseCallback) :
  parsed doc = Ok p →
  ¬ unusable p →
  getCollection (ext w) h collection = true →
  on_database (processInsert_cb collection doc callback) (IDb h) w =
    (let w1 := with_trace (trace w ++ [EvStore h (c_insert collection (stripped p))]) w in
     match coll_insert (ext w) h collection (stripped p) with
     | (Ok result, e) => respond callback (JSON_stringify result) (with_ext e w1)
     | (Throw x, e) => (Throw x, with_ext e w1)
     end) ∧
  match p with
  | VObj o =>
      stripped p = VObj (insert_form o) ∧
      insert_form o !! "meta" = None ∧
      (zero_id o = true → insert_form o !! "$loki" = None) ∧
      (zero_id o = false → insert_form o !! "$loki" = o !! "$loki") ∧
      (∀ k, k ≠ "meta" → k ≠ "$loki" → insert_form o !! k = o !! k)
  | _ => stripped p = p
  end.
Proof.
  intros Hdoc Husable Hcoll. split.
  - destruct p as [| | | | | | |o];
      try (exfalso; apply Husable; by constructor).
    1-5: unfold on_database;
      rewrite (bind_ok (parse_if_string doc) _ w _ w)
        by (by rewrite parse_if_string_parsed, Hdoc);
      rewrite (bind_ok (strip_zero_id _) _ w _ w) by reflexivity;
      rewrite (bind_ok (strip_meta _) _ w _ w) by reflexivity;
      rewrite (bind_ok (collection_of _ _) _ w h w) by (by apply collection_of_found);
      unfold mbind, M_bind, emit, modify, call, stripped; simpl;
      by destruct (coll_insert _ _ _ _) as [[result|x] e].
    assert (o !! "hasOwnProperty" = None) as Hown.
    { destruct (o !! "hasOwnProperty") as [v|] eqn:Hv; [|done].
      exfalso. apply Husable. by econstructor. }
    rewrite stripped_record. by apply processInsert_record.
  - destruct p as [| | | | | | |o]; try reflexivity.
    split; [apply stripped_record|]. split; [apply insert_form_meta|].
    split; [apply insert_form_zero_id|].
    split; [apply insert_form_other_id|apply insert_form_field].
Qed.

(** *** An update of a record that is not there *)

Lemma touch_id w s inner : databaseRegistry w !! s = Some inner → touch s w = w.
Proof.
  intros Hs. unfold touch, with_registry. rewrite Hs. simpl. rewrite insert_id by done.
  by destruct w.
Qed.




(** *** Parameters that do not parse *)

Lemma malformed_throws x cb db w : malformed x cb → on_database cb db w = (Throw x, w).
Proof.
  intros [c q cb' Hs Hp|c q cb' Hs Hp|c q cb' Hs Hp|c q cb' Hs Hp|c v name params cb' Ht Hp];
    unfold on_database, mbind, M_bind;
    rewrite ?parse_if_string_parsed; unfold parsed, parse_if_given, lift.
  1-4: by rewrite Hs, Hp.
  by rewrite Ht, Hp.
Qed.

Lemma timed_then k (m : M unit) w : (timed k ;; m) w = m (begun w).
Proof. unfold mbind, M_bind. by rewrite timed_begun. Qed.

Lemma parsed_before_throws x d w : parsed_before x d → invoke_data d w = (Throw x, begun w).
Proof.
  intros [s f c tf params di Ht Hp|s f c tf params di Hp|s f c tf tf' params di Hok Ht Hp
         |s f c v name params raw Hr Hp|s f c v name params raw raw' Hr Hok Hn Ht Hp];
    cbn [invoke_data];
    unfold exports_transform, exports_transformRaw, exports_dynamicViewTransform;
    rewrite timed_then;
    unfold processTransform, processDynamicViewTransform, parse_if_given, mbind, M_bind, lift.
  - by rewrite Ht, Hp.
  - by rewrite Hp.
  - by rewrite Hok, Ht, Hp.
  - by rewrite Hr, Hp.
  - by rewrite Hr, Hok, Hn, Ht, Hp.
Qed.

Lemma parsed_inside_begins x d w :
  parsed_inside x d →
  ∃ cb, malformed x cb ∧
    invoke_data d w = getDatabase (key_data d).1 (key_data d).2 cb (begun w).
Proof.
  intros [s f c q Hs Hp|s f c q Hs Hp|s f c q Hs Hp|s f c q Hs Hp
         |s f c v name params Ht Hp|s f c v name params raw Hr Ht Hp];
    cbn [invoke_data key_data fst snd];
    unfold exports_find, exports_insert, exports_update, exports_remove,
      exports_dynamicView, exports_dynamicViewTransform;
    rewrite timed_then;
    unfold processFind, processInsert, processUpdate, processRemove,
      processDynamicViewTransform, processDynamicView;
    rewrite ?Hr; cbn [negb];
    (eexists; split; [|reflexivity]); by constructor.
Qed.

(** C8, amended.  A parameter that an operation parses and that [JSON.parse]
    rejects makes the request throw the parser's error before any collection
    of the store is read or written, before any statistic is recorded and
    before the host callback is called.  [transform] (its parameters),
    [transformRaw] (its transform, then its parameters) and
    [dynamicViewTransform] given a raw transform (the raw transform, then the
    parameters when a transform is named) parse before the pair is resolved:
    the request has read the clock and has done nothing else, and the
    registry is as it was.  [find], [insert], [update], [remove] and
    [dynamicView] parse inside the callback given to [getDatabase]: for a
    registered pair the outcome is the same; the first request for a pair
    has by then called the initializer, and its instance is registered, with
    statistics at zero, when the error is thrown, inside the answer of the
    initializer. *)
Theorem malformed_parameter_throws_before_store (x : exn) (d : DataOp) (w : World E) :
  (parsed_before x d → invoke_data d w = (Throw x, begun w)) ∧
  (parsed_inside x d →
     (∀ entry,
        entry_of (databaseRegistry w) (key_data d).1 (key_data d).2 = Some entry →
        invoke_data d w = (Throw x, begun w)) ∧
     (∀ n e,
        inherited (key_data d).1 = false → inherited (key_data d).2 = false →
        entry_of (databaseRegistry w) (key_data d).1 (key_data d).2 = None →
        require_init (key_data d).1 (key_data d).2 (hrtime (ext w)).2 = (Ok n, e) →
        ∃ w1 w2,
          invoke_data d w = (Ok tt, w1) ∧
          initDone (length (pending w)) w1 = (Throw x, w2) ∧
          entry_of (databaseRegistry w2) (key_data d).1 (key_data d).2 =
            Some {| instance := (init_answer n e).1; stats := zero_stats |} ∧
          requestStats w2 = requestStats w ∧
          pending w2 = pending w ∧
          trace w2 = trace w ++ [EvInit (key_data d).1 (key_data d).2] ∧
          ext w2 = (init_answer n e).2)).
Proof.
  split; [apply parsed_before_throws|].
  intros Hd. destruct (parsed_inside_begins x d w Hd) as (cb & Hcb & ->). split.
  - intros entry Hentry. rewrite (getDatabase_hit _ _ _ _ entry) by exact Hentry.
    rewrite (malformed_throws _ _ _ _ Hcb).
    unfold entry_of in Hentry.
    destruct (databaseRegistry w !! (key_data d).1) as [inner|] eqn:Hs; [|done].
    by rewrite (touch_id (begun w) _ inner).
  - intros n e _ _ Hmiss Hinit.
    rewrite getDatabase_miss by exact Hmiss.
    change (ext (begun w)) with (hrtime (ext w)).2. rewrite Hinit.
    eexists _, _. split; [reflexivity|].
    erewrite initDone_answer; cycle 1.
    { simpl. by rewrite lookup_app_r, Nat.sub_diag. }
    { simpl. apply lookup_insert_eq. }
    rewrite (malformed_throws _ _ _ _ Hcb). split; [reflexivity|].
    unfold registered, fresh_entry, answered.
    cbn [waiting p_construction p_serviceName p_filename p_callback]. fields.
    split; [unfold entry_of; rewrite lookup_insert_eq; simpl; by rewrite lookup_insert_eq|].
    split; [done|].
    split; [by rewrite (delete_middle (pending w) []), app_nil_r|].
    by split.
Qed.

(** *** [shutdown] with nothing to close *)

Lemma shutdown_of_empty_registry w : created w = [] → exports_shutdown w = (Ok tt, w).
Proof.
  intros Hreg. unfold exports_shutdown, registry_pairs, mbind, M_bind, read.
  by rewrite Hreg.
Qed.

(** *** A request for a registered pair *)

Lemma on_database_registered cb db w k s f inner entry :
  answer_of cb = export_cb k s f →
  databaseRegistry w !! s = Some inner → inner !! f = Some entry →
  ∃ w0, after_store db w w0 ∧
    ((∃ x, on_database cb db w = (Throw x, w0)) ∨
     ∃ result, on_database cb db w =
       (Ok tt, with_trace (trace w0 ++ [EvCallback VNull (JSON_stringify result)])
                 (recorded k s f inner entry w0))).
Proof.
  intros Hcb Hs Hf. destruct (on_database_responds cb db w) as (w0 & Hw0 & Hend).
  exists w0. split; [done|]. destruct Hend as [Hthrow|[result ->]]; [by left|right].
  exists result. rewrite Hcb. apply respond_registered; [|done].
  destruct Hw0 as (-> & _). done.
Qed.

Lemma touch_bucket w s inner :
  databaseRegistry w !! s = Some inner → databaseRegistry (touch s w) = databaseRegistry w.
Proof. intros Hs. unfold touch. fields. rewrite Hs. simpl. by apply insert_id. Qed.

(** A data request for a registered pair, from its first statement to the
    point where its callback responds or throws. *)
Lemma invoke_data_registered d w inner entry :
  databaseRegistry w !! (key_data d).1 = Some inner → inner !! (key_data d).2 = Some entry →
  ∃ w0, after_store (instance entry) (touch (key_data d).1 (begun w)) w0 ∧
    ((∃ x, invoke_data d w = (Throw x, begun w)) ∨
     (∃ x, invoke_data d w = (Throw x, w0)) ∨
     ∃ result, invoke_data d w =
       (Ok tt, with_trace (trace w0 ++ [EvCallback VNull (JSON_stringify result)])
                 (recorded (stat_of d) (key_data d).1 (key_data d).2 inner entry w0))).
Proof.
  intros Hs Hf.
  assert (entry_of (databaseRegistry (begun w)) (key_data d).1 (key_data d).2 = Some entry)
    as Hentry by (unfold entry_of, begun; fields; by rewrite Hs).
  destruct (invoke_data_begins d w) as [[x ->]|(cb & Hcb & ->)].
  - exists (touch (key_data d).1 (begun w)). split; [apply after_store_refl|]. left. by exists x.
  - rewrite (getDatabase_hit _ _ _ _ _ Hentry).
    destruct (on_database_registered cb (instance entry) (touch (key_data d).1 (begun w))
                (stat_of d) (key_data d).1 (key_data d).2 inner entry)
      as (w0 & Hw0 & Hend); [exact Hcb| |exact Hf|].
    { rewrite (touch_bucket (begun w) _ inner); [|done]. done. }
    exists w0. split; [done|]. right. exact Hend.
Qed.

(** X6.  A data request for a pair that is registered calls no initializer and
    leaves no request waiting: it is served at once, and every call it makes
    on a database is made on the instance registered for the pair. *)
Theorem registered_pair_is_served_from_its_instance
    (d : DataOp) (w : World E) (entry : RegistryEntry) :
  entry_of (databaseRegistry w) (key_data d).1 (key_data d).2 = Some entry →
  pending (invoke_data d w).2 = pending w ∧
  ∃ pre, trace (invoke_data d w).2 = trace w ++ pre ∧
    inits pre = [] ∧
    ∀ h, h ∈ used pre → instance entry = IDb h.
Proof.
  unfold entry_of. intros Hentry.
  destruct (databaseRegistry w !! (key_data d).1) as [inner|] eqn:Hs; [simpl in Hentry|done].
  destruct (invoke_data_registered d w inner entry Hs Hentry)
    as (w0 & (_ & _ & _ & Hp & _ & pre & Ht & Hpre) & Hend).
  simpl in Hp, Ht.
  destruct Hend as [[x ->]|[[x ->]|[result ->]]]; cbn [snd].
  - split; [done|]. exists []. rewrite app_nil_r. split; [done|]. split; [done|].
    by intros h ?%elem_of_nil.
  - split; [done|]. exists pre. split; [done|].
    split; [by eapply store_events_inits|]. intros h. by apply store_events_used.
  - split; [done|]. exists (pre ++ [EvCallback VNull (JSON_stringify result)]).
    fields. rewrite Ht, <- app_assoc. split; [done|].
    rewrite inits_app, (store_events_inits _ _ Hpre). split; [done|].
    intros h. unfold used. rewrite omap_app. simpl. rewrite app_nil_r.
    by apply store_events_used.
Qed.

(** X7.  A data request for a registered pair that returns has been recorded
    once, under the name of its operation ([transformRaw] under [transform],
    [dynamicViewTransform] under [dynamicView]), with the same elapsed time
    in the global bucket and in the bucket of its pair; the time is measured
    from the reading of the clock at the start of this request.  The instance
    of the pair and the entries of the other pairs are as they were. *)
Theorem completed_request_is_counted_under_its_name
    (d : DataOp) (w w' : World E) (entry : RegistryEntry) :
  entry_of (databaseRegistry w) (key_data d).1 (key_data d).2 = Some entry →
  invoke_data d w = (Ok tt, w') →
  ∃ (now : Z * Z) (entry' : RegistryEntry),
    counts_once (stat_of d) (to_ms now - to_ms (hrtime (ext w)).1)
      (requestStats w) (requestStats w') ∧
    entry_of (databaseRegistry w') (key_data d).1 (key_data d).2 = Some entry' ∧
    instance entry' = instance entry ∧
    counts_once (stat_of d) (to_ms now - to_ms (hrtime (ext w)).1)
      (stats entry) (stats entry') ∧
    ∀ s f, (s, f) ≠ key_data d →
      entry_of (databaseRegistry w') s f = entry_of (databaseRegistry w) s f.
Proof.
  unfold entry_of at 1. intros Hentry Hrun.
  destruct (databaseRegistry w !! (key_data d).1) as [inner|] eqn:Hs; [simpl in Hentry|done].
  destruct (invoke_data_registered d w inner entry Hs Hentry)
    as (w0 & (Hr & Hst & Hstart & _) & Hend).
  rewrite Hrun in Hend.
  destruct Hend as [[x [=]]|[[x [=]]|[result [= ->]]]].
  rewrite (touch_bucket (begun w) _ inner) in Hr by done.
  simpl in Hr, Hst, Hstart.
  exists (hrtime (ext w0)).1, {| instance := instance entry;
    stats := record_request (stat_of d) (to_ms (hrtime (ext w0)).1 - started w0) (stats entry) |}.
  unfold recorded. fields. rewrite Hstart, Hst, Hr.
  split; [apply record_request_counts|].
  split; [by rewrite (entry_of_update _ _ _ _ _ _ _ Hs), decide_True|].
  split; [done|]. split; [apply record_request_counts|].
  intros s f Hne. rewrite (entry_of_update _ _ _ _ _ _ _ Hs).
  rewrite decide_False; [done|]. intros [<- <-]. by destruct (key_data d).
Qed.

(** *** The first request for a pair *)

(** X8.  A data request for a pair that is not registered does one thing at
    most before its initializer answers: unless a parameter parsed beforehand
    or the initializer throws, it calls the initializer of the pair, once,
    right after the clock was read, and the callback it gave to the
    initializer is left waiting.  Up to the moment the initializer calls that
    callback (inside [init] or at a later turn), no database is called, the
    host callback is not called, no statistic is recorded, and no entry is
    written: the pair is unregistered until the initializer answers.  The
    names of the pair are not names that every object inherits (for such a
    file name the look-up of line 79 finds the inherited member). *)
Theorem first_request_waits_for_its_initializer (d : DataOp) (w : World E) :
  inherited (key_data d).1 = false →
  inherited (key_data d).2 = false →
  entry_of (databaseRegistry w) (key_data d).1 (key_data d).2 = None →
  requestStats (invoke_data d w).2 = requestStats w ∧
  (∀ s f, entry_of (databaseRegistry (invoke_data d w).2) s f =
          entry_of (databaseRegistry w) s f) ∧
  match (invoke_data d w).1 with
  | Ok _ =>
      ∃ n cb,
        (require_init (key_data d).1 (key_data d).2 (hrtime (ext w)).2).1 = Ok n ∧
        answer_of cb = answer_data d ∧
        pending (invoke_data d w).2 =
          pending w ++ [waiting (key_data d).1 (key_data d).2 n cb] ∧
        trace (invoke_data d w).2 = trace w ++ [EvInit (key_data d).1 (key_data d).2]
  | Throw _ =>
      pending (invoke_data d w).2 = pending w ∧ trace (invoke_data d w).2 = trace w
  end.
Proof.
  intros _ _ Hmiss.
  destruct (invoke_data_begins d w) as [[x ->]|(cb & Hcb & ->)]; [done|].
  rewrite getDatabase_miss by done. fields.
  destruct (require_init _ _ _) as [[n|x] e] eqn:Hinit; cbn [fst snd]; fields.
  - split; [done|]. split; [intros; apply entry_of_bucket|]. by exists n, cb.
  - split; [done|]. split; [intros; apply entry_of_bucket|]. done.
Qed.

(** *** The answer of an initializer *)

(** X9.  When the initializer of a waiting request answers, the entry of the
    pair is written with the instance it hands over and with statistics at
    zero, whether or not the pair had an entry, and the callback of the
    request is run on that instance: every call made on a database during
    the answer is made on the instance handed over, and no initializer is
    called.  If the request completes, the host callback receives the
    serialised result of the call made last, and the request is recorded
    once, in the global bucket and in the new entry, with the time between
    the value of [started] at the time of the answer and the reading of the
    clock that follows that call; if it throws, nothing is recorded and the
    host callback is not called.  The other pairs are as they were, and the
    request waits no more. *)
Theorem answer_registers_the_instance
    (i : nat) (w : World E) (p : Pending) (inner : gmap string RegistryEntry) :
  pending w !! i = Some p →
  keyed p →
  databaseRegistry w !! p_serviceName p = Some inner →
  pending (initDone i w).2 = delete i (pending w) ∧
  (∀ s f, (s, f) ≠ (p_serviceName p, p_filename p) →
     entry_of (databaseRegistry (initDone i w).2) s f = entry_of (databaseRegistry w) s f) ∧
  ∃ entry' pre,
    entry_of (databaseRegistry (initDone i w).2) (p_serviceName p) (p_filename p)
      = Some entry' ∧
    instance entry' = answered p w ∧
    trace (initDone i w).2 = trace w ++ pre ∧
    inits pre = [] ∧
    (∀ h, h ∈ used pre → answered p w = IDb h) ∧
    match (initDone i w).1 with
    | Ok _ =>
        ∃ pre0 h call result e2,
          pre = pre0 ++ [EvStore h call; EvCallback VNull (JSON_stringify result)] ∧
          callbacks pre0 = [] ∧
          store_answer (init_answer (p_construction p) (ext w)).2 h call = (Ok result, e2) ∧
          ext (initDone i w).2 = (hrtime e2).2 ∧
          counts_once (stat_name (answer_of (p_callback p)))
            (to_ms (hrtime e2).1 - started w) zero_stats (stats entry') ∧
          counts_once (stat_name (answer_of (p_callback p)))
            (to_ms (hrtime e2).1 - started w)
            (requestStats w) (requestStats (initDone i w).2)
    | Throw _ =>
        callbacks pre = [] ∧
        stats entry' = zero_stats ∧ requestStats (initDone i w).2 = requestStats w
    end.
Proof.
  intros Hi Hkey Hs. rewrite (initDone_answer _ _ _ _ Hi Hs).
  destruct (answer_of (p_callback p)) as [k s f] eqn:Hcb.
  unfold keyed in Hkey. rewrite Hcb in Hkey. injection Hkey as -> ->.
  set (w1 := registered p inner i w).
  assert (databaseRegistry w1 !! p_serviceName p
            = Some (<[p_filename p := fresh_entry p w]> inner)) as Hs1
    by (unfold w1, registered; fields; apply lookup_insert_eq).
  assert (∀ s f, (s, f) ≠ (p_serviceName p, p_filename p) →
            entry_of (databaseRegistry w1) s f = entry_of (databaseRegistry w) s f) as Hother.
  { intros s f Hne. unfold w1, registered. fields.
    rewrite (entry_of_update _ _ _ _ _ _ _ Hs).
    rewrite decide_False; [done|]. by intros [<- <-]. }
  destruct (on_database_delivers (p_callback p) (answered p w) w1)
    as [(x & w0 & -> & Hr & Hst & Hstart & Hp & _ & pre & Ht & Hpre)
       |(h & call & result & e2 & pre0 & Hdb & Hpre0 & Hans & ->)]; cbn [fst snd].
  - rewrite Hp, Hr, Hst. split; [done|]. split; [exact Hother|].
    exists (fresh_entry p w), pre. split; [apply initDone_overwrites|]. split; [done|].
    split; [exact Ht|]. split; [by eapply store_events_inits|].
    split; [intros h; by apply store_events_used|].
    split; [by eapply store_events_callbacks|done].
  - rewrite Hcb.
    rewrite (respond_registered _ _ _ _ _ (<[p_filename p := fresh_entry p w]> inner)
               (fresh_entry p w));
      [|fields; exact Hs1|apply lookup_insert_eq].
    unfold recorded. fields. split; [done|]. split.
    { intros s f Hne. rewrite (entry_of_update _ _ _ _ _ _ _ Hs1).
      rewrite decide_False; [by apply Hother|]. by intros [<- <-]. }
    eexists _, (pre0 ++ [EvStore h call; EvCallback VNull (JSON_stringify result)]).
    split; [by rewrite (entry_of_update _ _ _ _ _ _ _ Hs1), decide_True|].
    split; [done|]. split; [by rewrite <- !app_assoc|].
    split; [by rewrite inits_app, (store_events_inits _ _ Hpre0)|].
    split.
    { intros h'. unfold used. rewrite omap_app. simpl.
      intros [Hin|Hin%list_elem_of_singleton]%elem_of_app;
        [by eapply store_events_used|by subst]. }
    exists pre0, h, call, result, e2.
    split; [done|]. split; [by eapply store_events_callbacks|].
    split; [exact Hans|]. split; [done|].
    split; apply record_request_counts.
Qed.

(** *** A pair registered with no instance *)

Lemma failing_bind {A B} (m : M A) (f : A → M B) w :
  pure m → (∀ a, failing (f a) w) → failing (m ≫= f) w.
Proof.
  intros Hm Hf. specialize (Hm w). unfold failing, mbind, M_bind.
  destruct (m w) as [[a|x] w1]; simpl in Hm; subst w1; [apply Hf|by exists x].
Qed.

Lemma pure_lift {A} (r : res A) : pure (lift r : M A).
Proof. done. Qed.

Lemma pure_parse_if_string x : pure (parse_if_string x).
Proof. intros w. by rewrite parse_if_string_parsed. Qed.

Lemma pure_parse_if_given x : pure (parse_if_given x).
Proof. intros w. unfold parse_if_given. by destruct (truthy x). Qed.

Lemma pure_strip_meta x : pure (strip_meta x).
Proof. intros w. unfold strip_meta, mbind, M_bind, lift. by destruct (hasOwnProperty x "meta"). Qed.

Lemma pure_strip_zero_id x : pure (strip_zero_id x).
Proof. intros w. unfold strip_zero_id, mbind, M_bind, lift. by destruct (get_prop x "$loki"). Qed.

Lemma failing_collection {B} c (f : handle → M B) w : failing (collection_of INull c ≫= f) w.
Proof. by exists TypeError. Qed.

(** With [null] for a database, the callback of every dispatcher throws, at
    the latest when it asks for the collection, and the state is as it was. *)
Lemma on_database_null cb w : failing (on_database cb INull) w.
Proof.
  destruct cb; unfold on_database;
    repeat first
      [ apply failing_collection
      | apply failing_bind; [first [apply pure_parse_if_string | apply pure_parse_if_given
                                   | apply pure_strip_meta | apply pure_strip_zero_id]|intros] ].
Qed.

(** X10.  A pair whose initializer handed over [null] is registered like any
    other, and the module never asks the initializer again: every data
    request for the pair throws.  It calls no initializer, no database and no
    callback, and records nothing. *)
Theorem null_instance_is_never_rebuilt (d : DataOp) (w : World E) (entry : RegistryEntry) :
  entry_of (databaseRegistry w) (key_data d).1 (key_data d).2 = Some entry →
  instance entry = INull →
  is_ok (invoke_data d w).1 = false ∧
  trace (invoke_data d w).2 = trace w ∧
  pending (invoke_data d w).2 = pending w ∧
  requestStats (invoke_data d w).2 = requestStats w ∧
  ∀ s f, entry_of (databaseRegistry (invoke_data d w).2) s f =
         entry_of (databaseRegistry w) s f.
Proof.
  intros Hentry Hnull.
  destruct (invoke_data_begins d w) as [[x ->]|(cb & Hcb & ->)]; [done|].
  rewrite (getDatabase_hit _ _ _ _ entry) by done. rewrite Hnull.
  destruct (on_database_null cb (touch (key_data d).1 (begun w))) as [x ->].
  cbn [fst snd]. repeat split. intros s f. by rewrite entry_of_touch.
Qed.

(** *** A collection or a view that is not there *)

Lemma failing_no_collection {B} h c (f : handle → M B) w :
  getCollection (ext w) h c = false → failing (collection_of (IDb h) c ≫= f) w.
Proof.
  intros Hc. exists TypeError. unfold collection_of, mbind, M_bind, read. simpl.
  by rewrite Hc.
Qed.

Lemma failing_no_view {B} h c v (f : unit → M B) w :
  getDynamicView (ext w) h c v = false → failing (view_of h c v ≫= f) w.
Proof.
  intros Hv. exists TypeError. unfold view_of, mbind, M_bind, read. simpl.
  by rewrite Hv.
Qed.

Lemma collection_then {B} h c (f : handle → M B) w :
  getCollection (ext w) h c = true → (collection_of (IDb h) c ≫= f) w = f h w.
Proof. intros Hc. unfold mbind, M_bind. by rewrite collection_of_found. Qed.

(** X20.  A request that names a collection the database does not have, or a
    view the collection does not have, makes the callback of its dispatcher
    throw ([TypeError], unless a parameter failed to parse before): the
    dispatcher sends its message to the [null] that [getCollection] or
    [getDynamicView] answered.  No call is made on the database, nothing is
    recorded and the host callback is not called. *)
Theorem missing_collection_or_view_throws (cb : DbCallback) (h : handle) (w : World E) :
  getCollection (ext w) h (collection_name cb) = false ∨
  (∃ v, view_name cb = Some v ∧
        getDynamicView (ext w) h (collection_name cb) v = false) →
  ∃ x, on_database cb (IDb h) w = (Throw x, w).
Proof.
  intros [Hc|(v & Hv & Hview)].
  - destruct cb; simpl in Hc; unfold on_database;
      repeat first
        [ apply (failing_no_collection _ _ _ _ Hc)
        | apply failing_bind; [first [apply pure_parse_if_string | apply pure_parse_if_given
                                     | apply pure_strip_meta | apply pure_strip_zero_id]
                              |intros] ].
  - destruct (getCollection (ext w) h (collection_name cb)) eqn:Hc;
      [|destruct cb; simpl in Hc; unfold on_database;
        repeat first
          [ apply (failing_no_collection _ _ _ _ Hc)
          | apply failing_bind; [first [apply pure_parse_if_string
                                       | apply pure_parse_if_given
                                       | apply pure_strip_meta | apply pure_strip_zero_id]
                                |intros] ]].
    destruct cb; try discriminate; simpl in Hc, Hv, Hview; injection Hv as <-;
      unfold on_database.
    + apply failing_bind; [apply pure_parse_if_given|]. intros params.
      unfold failing. rewrite (collection_then _ _ _ _ Hc).
      destruct (truthy transformName); apply (failing_no_view _ _ _ _ _ Hview).
    + unfold failing. rewrite (collection_then _ _ _ _ Hc).
      apply (failing_no_view _ _ _ _ _ Hview).
Qed.

(** *** The start time *)

Lemma keeps_started_bind {A B} (m : M A) (f : A → M B) :
  keeps_started m → (∀ a, keeps_started (f a)) → keeps_started (m ≫= f).
Proof.
  intros Hm Hf w. specialize (Hm w). unfold mbind, M_bind.
  destruct (m w) as [[a|x] w1]; simpl in *; [|done]. by rewrite Hf.
Qed.

Lemma keeps_started_for_each {A} (body : A → M unit) l :
  (∀ x, keeps_started (body x)) → keeps_started (for_each body l).
Proof.
  intros Hbody. induction l as [|x l IH]; [done|]. simpl.
  apply keeps_started_bind; [apply Hbody|by intros].
Qed.

Lemma keeps_started_call {A} (f : E → res A * E) : keeps_started (call f).
Proof. intros w. unfold call. by destruct (f (ext w)). Qed.

Lemma respond_started rc response w : started (respond rc response w).2 = started w.
Proof.
  destruct rc as [k s f].
  destruct (entry_of (databaseRegistry w) s f) as [entry|] eqn:Hentry.
  - unfold entry_of in Hentry.
    destruct (databaseRegistry w !! s) as [inner|] eqn:Hs; [simpl in Hentry|done].
    by rewrite (respond_registered _ _ _ _ _ _ _ Hs Hentry).
  - by rewrite (respond_unregistered _ _ _ _ _ Hentry).
Qed.

Lemma on_database_started cb db : keeps_started (on_database cb db).
Proof.
  intros w. destruct (on_database_responds cb db w)
    as (w0 & (_ & _ & Hstart & _) & [[x ->]|[result ->]]); [done|].
  by rewrite respond_started.
Qed.

Lemma getDatabase_started s f cb : keeps_started (getDatabase s f cb).
Proof.
  intros w. destruct (entry_of (databaseRegistry w) s f) as [entry|] eqn:Hentry.
  - rewrite (getDatabase_hit _ _ _ _ _ Hentry). by rewrite on_database_started.
  - rewrite (getDatabase_miss _ _ _ _ Hentry).
    by destruct (require_init s f (ext w)) as [[n|x] e].
Qed.

Lemma initDone_started i : keeps_started (initDone i).
Proof.
  intros w. destruct (pending w !! i) as [p|] eqn:Hi.
  - destruct (databaseRegistry w !! p_serviceName p) as [inner|] eqn:Hs.
    + rewrite (initDone_answer _ _ _ _ Hi Hs). by rewrite on_database_started.
    + by rewrite (initDone_no_bucket _ _ _ Hi Hs).
  - by rewrite (initDone_nobody _ _ Hi).
Qed.

Lemma other_exports_started op :
  match op with op_data _ => True | _ => keeps_started (invoke op) end.
Proof.
  destruct op as [d| |s f|]; [done|..]; simpl.
  - by intros w.
  - unfold exports_instanceStats.
    repeat first
      [ progress intros
      | apply keeps_started_bind
      | solve [intros w; reflexivity]
      | match goal with
        | |- keeps_started (match ?x with _ => _ end) => destruct x
        end ].
  - unfold exports_shutdown. apply keeps_started_bind; [done|]. intros keys.
    apply keeps_started_for_each. intros [initName instName]. unfold shutdown_body.
    repeat first
      [ progress intros
      | apply keeps_started_bind
      | apply keeps_started_call
      | solve [intros w; reflexivity]
      | match goal with
        | |- keeps_started (match ?x with _ => _ end) => destruct x
        end ].
Qed.

(** X11.  The start time of a request is kept in one variable, [started], for
    all requests.  Every data export overwrites it with the reading of the
    clock it begins with, whatever becomes of the request; nothing else
    writes it.  In particular the answer of an initializer does not put back
    the start time of the request it completes: that request is timed from
    the start of the data request made last. *)
Theorem start_time_is_shared (a : Action) (w : World E) :
  started (step a w).2 =
    match a with
    | Call (op_data _) => to_ms (hrtime (ext w)).1
    | _ => started w
    end.
Proof.
  destruct a as [[d| |s f|]|i].
  - change (step (Call (op_data d)) w) with (invoke_data d w).
    destruct (invoke_data_begins d w) as [[x ->]|(cb & _ & ->)]; [done|].
    by rewrite getDatabase_started.
  - apply (other_exports_started op_stats).
  - apply (other_exports_started (op_instanceStats s f)).
  - apply (other_exports_started op_shutdown).
  - apply initDone_started.
Qed.

(** *** [get] *)

(** X12.  [get] for a registered pair, on a collection the database has: a
    string given as identity is read with [parseInt(id, 10)], any other
    value is passed on as it is; the store is asked once, and the host
    callback is called once, with [null] and the serialised record.  An
    identity that matches no record is no error: the callback receives the
    serialisation of [null], and the request returns. *)
Theorem get_answers_with_the_record_or_null
    (w : World E) (s f c : string) (id : value) (entry : RegistryEntry) (h : handle)
    (found : option obj) :
  entry_of (databaseRegistry w) s f = Some entry →
  instance entry = IDb h →
  getCollection (hrtime (ext w)).2 h c = true →
  coll_get (hrtime (ext w)).2 h c (lookup_id id) = Ok found →
  (exports_get s f c id w).1 = Ok tt ∧
  trace (exports_get s f c id w).2 =
    trace w ++ [EvStore h (c_get c (lookup_id id));
                EvCallback VNull
                  (JSON_stringify (match found with Some o => VObj o | None => VNull end))] ∧
  pending (exports_get s f c id w).2 = pending w.
Proof.
  unfold entry_of. intros Hentry Hinst Hcoll Hget.
  destruct (databaseRegistry w !! s) as [inner|] eqn:Hs; [simpl in Hentry|done].
  assert (exports_get s f c id w =
    respond (export_cb s_get s f) (JSON_stringify (of_doc found))
      (with_trace (trace w ++ [EvStore h (c_get c (lookup_id id))]) (touch s (begun w))))
    as ->.
  { unfold exports_get, processGet. unfold mbind at 1, M_bind at 1. rewrite timed_begun.
    rewrite (getDatabase_hit _ _ _ _ entry)
      by (unfold entry_of, begun; fields; by rewrite Hs).
    rewrite Hinst. unfold on_database. fold (lookup_id id).
    unfold mbind at 1, M_bind at 1.
    rewrite collection_of_found by (unfold touch, begun; fields; exact Hcoll).
    erewrite (bind_ok (emit _)) by reflexivity.
    by erewrite (bind_ok (ask _)) by (unfold ask, touch, begun; fields; by rewrite Hget). }
  rewrite (respond_registered _ _ _ _ _ inner entry);
    [|unfold touch, begun; fields; by rewrite Hs, lookup_insert_eq|done].
  unfold recorded, touch, begun. fields. rewrite <- app_assoc. by destruct found.
Qed.

(** *** [stats] and [instanceStats] *)

Lemma forIn_Permutation keys : forIn keys ≡ₚ keys.
Proof.
  unfold forIn. rewrite merge_sort_Permutation.
  induction keys as [|k keys IH]; [done|].
  rewrite filter_cons. simpl. destruct (array_index k) as [n|] eqn:Hk; simpl.
  - constructor. exact IH.
  - rewrite <- Permutation_middle. constructor. exact IH.
Qed.

Lemma elem_of_outer_keys log s : s ∈ outer_keys log ↔ (s, None) ∈ log.
Proof.
  unfold outer_keys. rewrite forIn_Permutation, list_elem_of_omap. split.
  - intros ([s' [f|]] & Hin & Heq); simpl in Heq; [done|]. by injection Heq as ->.
  - intros Hin. by exists (s, None).
Qed.

Lemma elem_of_inner_keys log s f : f ∈ inner_keys log s ↔ (s, Some f) ∈ log.
Proof.
  unfold inner_keys. rewrite forIn_Permutation, list_elem_of_omap. split.
  - intros ([s' [f'|]] & Hin & Heq); simpl in Heq; [|done].
    case_bool_decide; [|done]. by simplify_eq.
  - intros Hin. exists (s, Some f). split; [done|]. simpl. by rewrite bool_decide_eq_true_2.
Qed.

Lemma NoDup_omap_inj {A B} (f : A → option B) l :
  (∀ x y z, f x = Some z → f y = Some z → x = y) → NoDup l → NoDup (omap f l).
Proof.
  intros Hinj. induction 1 as [|x l Hx Hl IH]; simpl; [constructor|].
  destruct (f x) as [z|] eqn:Hfx; [|done]. constructor; [|done].
  intros (y & Hy & Hfy)%list_elem_of_omap. apply Hx. by rewrite (Hinj x y z).
Qed.

Lemma NoDup_outer_keys log : NoDup log → NoDup (outer_keys log).
Proof.
  intros Hlog. unfold outer_keys. rewrite forIn_Permutation. apply NoDup_omap_inj; [|done].
  intros [s1 [f1|]] [s2 [f2|]] z; simpl; congruence.
Qed.

Lemma NoDup_inner_keys log s : NoDup log → NoDup (inner_keys log s).
Proof.
  intros Hlog. unfold inner_keys. rewrite forIn_Permutation. apply NoDup_omap_inj; [|done].
  intros [s1 [f1|]] [s2 [f2|]] z; simpl; try done. repeat case_bool_decide; congruence.
Qed.

Lemma elem_of_registry_pairs w s f :
  (s, f) ∈ registry_pairs w ↔ (s, None) ∈ created w ∧ (s, Some f) ∈ created w.
Proof.
  unfold registry_pairs. rewrite list_elem_of_bind. split.
  - intros (s' & (f' & Hin & Hf)%list_elem_of_bind & Hs).
    apply list_elem_of_singleton in Hin as [= -> ->].
    by rewrite <- elem_of_outer_keys, <- elem_of_inner_keys.
  - intros [Hs Hf]. exists s. split; [|by apply elem_of_outer_keys].
    apply list_elem_of_bind. exists f. split; [by apply list_elem_of_singleton|].
    by apply elem_of_inner_keys.
Qed.

Lemma NoDup_registry_pairs w : NoDup (created w) → NoDup (registry_pairs w).
Proof.
  intros Hlog. unfold registry_pairs. apply NoDup_bind.
  - intros s1 s2 y _ _ (f1 & ->%list_elem_of_singleton & _)%list_elem_of_bind
      (f2 & [= -> _]%list_elem_of_singleton & _)%list_elem_of_bind. done.
  - intros s _. apply NoDup_bind; [| |by apply NoDup_inner_keys].
    + by intros f1 f2 y _ _ ->%list_elem_of_singleton [= ->]%list_elem_of_singleton.
    + intros f _. apply NoDup_singleton.
  - by apply NoDup_outer_keys.
Qed.

Lemma ordered_run actions e : ordered (run actions (loaded e)).2.
Proof.
  apply run_invariant.
  - intros w w' Hr _ Hc Hw. unfold ordered. by rewrite Hr, Hc.
  - intros w s (Hn & Ho & Hi). unfold touch. case_bool_decide as Hb.
    + destruct Hb as [inner Hs]. unfold ordered. fields. rewrite Hs. simpl.
      by rewrite (insert_id _ _ _ Hs).
    + assert (databaseRegistry w !! s = None) as Hs
        by (by destruct (databaseRegistry w !! s); [destruct Hb|]).
      unfold ordered. fields. rewrite Hs. simpl. split; [|split].
      * apply NoDup_app. split; [done|]. split; [|apply NoDup_singleton].
        intros x Hx ->%list_elem_of_singleton. by apply Hb, Ho.
      * intros s'. rewrite elem_of_app, list_elem_of_singleton, Ho.
        destruct (decide (s = s')) as [<-|Hne].
        -- rewrite lookup_insert_eq. split; [by eexists|by right].
        -- rewrite lookup_insert_ne by done. split; [intros [?|[= ?]]|by left]; done.
      * intros s' f. rewrite elem_of_app, list_elem_of_singleton, Hi.
        replace (<[s := ∅]> (databaseRegistry w))
          with (<[s := default ∅ (databaseRegistry w !! s)]> (databaseRegistry w))
          by (by rewrite Hs).
        rewrite entry_of_bucket. split; [by intros [?|?]|by left].
  - intros w k ms Hw. exact Hw.
  - intros w k ms s f inner entry Hs Hf (Hn & Ho & Hi). unfold ordered. fields.
    split; [done|]. split.
    + intros s'. rewrite Ho. destruct (decide (s = s')) as [<-|Hne].
      * rewrite lookup_insert_eq, Hs. by split; eexists.
      * by rewrite lookup_insert_ne.
    + intros s' f'. rewrite Hi, (entry_of_update _ _ _ _ _ _ _ Hs).
      case_decide as Hkey; [|done]. destruct Hkey as [<- <-].
      unfold entry_of. rewrite Hs. simpl. rewrite Hf. by split; eexists.
  - intros w s f inner d Hs (Hn & Ho & Hi). unfold write_entry.
    assert (∀ s', is_Some (<[s := <[f := {| instance := d; stats := zero_stats |}]> inner]>
                              (databaseRegistry w) !! s') ↔
                  is_Some (databaseRegistry w !! s')) as Hbuckets.
    { intros s'. destruct (decide (s = s')) as [<-|Hne].
      - rewrite lookup_insert_eq, Hs. by split; eexists.
      - by rewrite lookup_insert_ne. }
    assert (entry_of (databaseRegistry w) s f = inner !! f) as Hsf
      by (unfold entry_of; by rewrite Hs).
    case_bool_decide as Hb; unfold ordered; fields.
    + split; [done|]. split; [intros s'; by rewrite Ho, Hbuckets|].
      intros s' f'. rewrite Hi, (entry_of_update _ _ _ _ _ _ _ Hs).
      case_decide as Hkey; [|done]. destruct Hkey as [<- <-]. rewrite Hsf.
      split; [by eexists|done].
    + split; [|split].
      * apply NoDup_app. split; [done|]. split; [|apply NoDup_singleton].
        intros x Hx ->%list_elem_of_singleton. apply Hb. rewrite <- Hsf. by apply Hi.
      * intros s'. rewrite elem_of_app, list_elem_of_singleton, Ho, Hbuckets.
        split; [by intros [?|?]|by left].
      * intros s' f'. rewrite elem_of_app, list_elem_of_singleton, Hi,
          (entry_of_update _ _ _ _ _ _ _ Hs).
        case_decide as Hkey.
        -- destruct Hkey as [<- <-]. split; [by eexists|by right].
        -- split; [intros [?|[= <- <-]]; [done|by destruct Hkey]|by left].
  - unfold ordered, loaded. simpl. split; [constructor|]. unfold entry_of.
    split; intros s; [|intros f]; rewrite lookup_empty; simpl;
      (split; [by intros ?%elem_of_nil|by intros [? ?]]).
Qed.

Lemma exports_stats_writes w :
  let pf := process_figures (ext w) in
  let written :=
    <["cpuUsage" := pf_cpuUsage pf]> (<["cpuUsageSystem" := pf_cpuUsageSystem pf]>
      (<["cpuUsageUser" := pf_cpuUsageUser pf]> (<["nodeUptime" := pf_nodeUptime pf]>
        (<["instanceNames" := VArr (name_value <$> registry_pairs w)]>
          (<["memoryUsage" := pf_memoryUsage pf]> (serviceStats w)))))) in
  exports_stats w =
    (Ok tt,
     with_trace (trace w ++ [EvCallback VNull (JSON_stringify
                   (VObj (<["requestStats" := stats_value (requestStats w)]> written)))])
       (with_serviceStats written w)).
Proof. reflexivity. Qed.

(** X13.  [stats], in any state the module reaches from the one it is loaded
    in by requests that name no property every object inherits: it never
    throws; it writes into [serviceStats] the figures the process answers
    with and, as [instanceNames], the pairs in the order the two loops visit
    the keys of the registry, and leaves the other fields of [serviceStats]
    as they are; it calls the host callback once, with [null] and the
    serialisation of [serviceStats] as it then is; the registry, the
    statistics and the waiting initializers are as they were.  The pairs
    listed are the registered pairs, each once: a pair whose initializer has
    not answered yet is not listed, a pair registered with an instance that
    is no database is. *)
Theorem stats_lists_the_registered_pairs (actions : list Action) (e : E) :
  forallb own_names actions = true →
  let w := (run actions (loaded e)).2 in
  let w' := (exports_stats w).2 in
  let pf := process_figures (ext w) in
  (exports_stats w).1 = Ok tt ∧
  trace w' = trace w ++ [EvCallback VNull (JSON_stringify (serviceStats_value w'))] ∧
  serviceStats w' !! "memoryUsage" = Some (pf_memoryUsage pf) ∧
  serviceStats w' !! "instanceNames" = Some (VArr (name_value <$> registry_pairs w)) ∧
  serviceStats w' !! "nodeUptime" = Some (pf_nodeUptime pf) ∧
  serviceStats w' !! "cpuUsageUser" = Some (pf_cpuUsageUser pf) ∧
  serviceStats w' !! "cpuUsageSystem" = Some (pf_cpuUsageSystem pf) ∧
  serviceStats w' !! "cpuUsage" = Some (pf_cpuUsage pf) ∧
  (∀ k, k ∉ stats_keys → serviceStats w' !! k = serviceStats w !! k) ∧
  (databaseRegistry w', created w', requestStats w', started w', pending w', ext w') =
    (databaseRegistry w, created w, requestStats w, started w, pending w, ext w) ∧
  NoDup (registry_pairs w) ∧
  (∀ s f, (s, f) ∈ registry_pairs w ↔ is_Some (entry_of (databaseRegistry w) s f)).
Proof.
  intros _ w w' pf. destruct (ordered_run actions e) as (Hn & Ho & Hi). fold w in Hn, Ho, Hi.
  subst w'. rewrite exports_stats_writes. fold pf. cbn [fst snd]. fields.
  split; [done|]. split; [done|].
  do 6 (split; [repeat (rewrite lookup_insert_ne by done); by rewrite lookup_insert_eq|]).
  split.
  { intros k Hk. rewrite !lookup_insert_ne; [done|intros <-; apply Hk; unfold stats_keys;
      repeat first [by apply elem_of_cons; left|apply elem_of_cons; right]..]. }
  split; [done|]. split; [by apply NoDup_registry_pairs|].
  intros s f. rewrite elem_of_registry_pairs, Ho, Hi. unfold entry_of. split; [by intros [_ ?]|].
  intros Hsf. split; [|done]. destruct (databaseRegistry w !! s); [done|by destruct Hsf].
Qed.

(** X14.  [instanceStats] for a registered pair that holds a database calls the
    host callback once, with [null] and a serialised report that carries the
    names of the pair, the statistics of the pair as they are and one
    description for each collection of the database; nothing is recorded for
    the call.  For a pair registered with a [null] instance, or with one
    that is no database, it throws [TypeError] and the callback is not
    called. *)
Theorem instanceStats_reports_the_pair
    (w : World E) (s f : string) (entry : RegistryEntry) :
  entry_of (databaseRegistry w) s f = Some entry →
  match instance entry with
  | IDb h =>
      ∃ report : obj,
        exports_instanceStats s f w =
          (Ok tt, with_trace (trace w ++ [EvStore h c_describe;
                    EvCallback VNull (JSON_stringify (VObj report))]) w) ∧
        report !! "serviceName" = Some (VStr s) ∧
        report !! "filename" = Some (VStr f) ∧
        report !! "requestStats" = Some (stats_value (stats entry)) ∧
        report !! "collectionInfo" =
          Some (VArr (collection_value <$> db_collections (ext w) h))
  | INull | IOther => exports_instanceStats s f w = (Throw TypeError, w)
  end.
Proof.
  unfold entry_of. intros Hentry.
  destruct (databaseRegistry w !! s) as [inner|] eqn:Hs; [simpl in Hentry|done].
  unfold exports_instanceStats, mbind, M_bind, read, emit, modify. simpl.
  rewrite Hs. simpl. rewrite Hentry. simpl.
  destruct (instance entry) as [| |h]; [done..|]. simpl.
  eexists. split; [by rewrite <- app_assoc|]. by repeat split.
Qed.

(** *** Payloads that are no records *)

(** X15.  [insert] and [update] given a payload that is [null] or [undefined],
    or a record with a field of its own named [hasOwnProperty] (which hides
    the method the dispatchers call), as a value or as text: the callback of
    the dispatcher throws [TypeError] before the database is asked for the
    collection; the store is not called, nothing is recorded and the host
    callback is not called. *)
Theorem unusable_payload_is_rejected_before_the_store
    (c : string) (doc payload : value) (rc : ResponseCallback) (db : dbref) (w : World E) :
  parsed doc = Ok payload →
  unusable payload →
  on_database (processInsert_cb c doc rc) db w = (Throw TypeError, w) ∧
  on_database (processUpdate_cb c doc rc) db w = (Throw TypeError, w).
Proof.
  intros Hdoc Hbad. unfold on_database, mbind, M_bind.
  rewrite !parse_if_string_parsed, Hdoc.
  destruct Hbad as [| |o v Hown]; [done..|].
  rewrite strip_zero_id_record.
  unfold strip_meta, mbind, M_bind, lift, hasOwnProperty. split.
  - rewrite bool_decide_eq_true_2; [done|].
    destruct (zero_id o); [by rewrite lookup_delete_ne, Hown|by rewrite Hown].
  - rewrite bool_decide_eq_true_2; [done|by rewrite Hown].
Qed.

(** *** A parameter as text and as a value *)

(** X21.  A query or a payload may be given as JSON text or as the value the
    text stands for: [find], [insert], [update] and [remove] then do the
    same, step for step.  The value must not be a string itself: a string is
    always taken for text and parsed. *)
Theorem text_and_value_are_interchangeable
    (c text : string) (v : value) (rc : ResponseCallback) (db : dbref) (w : World E) :
  JSON_parse (VStr text) = Ok v →
  is_string v = false →
  on_database (processFind_cb c (VStr text) rc) db w
    = on_database (processFind_cb c v rc) db w ∧
  on_database (processInsert_cb c (VStr text) rc) db w
    = on_database (processInsert_cb c v rc) db w ∧
  on_database (processUpdate_cb c (VStr text) rc) db w
    = on_database (processUpdate_cb c v rc) db w ∧
  on_database (processRemove_cb c (VStr text) rc) db w
    = on_database (processRemove_cb c v rc) db w.
Proof.
  intros Hparse Hvalue.
  assert (∀ {A} (k : value → M A),
    (parse_if_string (VStr text) ≫= k) w = (parse_if_string v ≫= k) w) as Hsame.
  { intros A k. unfold mbind, M_bind. rewrite !parse_if_string_parsed.
    unfold parsed. by rewrite Hvalue, Hparse. }
  unfold on_database. by rewrite !Hsame.
Qed.

(** *** [transform] and [dynamicViewTransform] *)

Lemma parse_if_given_given x w : parse_if_given x w = (given x, w).
Proof. unfold parse_if_given, given. by destruct (truthy x). Qed.

Lemma store_calls_app t1 t2 : store_calls (t1 ++ t2) = store_calls t1 ++ store_calls t2.
Proof. apply omap_app. Qed.

Lemma respond_store_calls rc response w :
  ∃ pre, trace (respond rc response w).2 = trace w ++ pre ∧ store_calls pre = [].
Proof.
  rewrite respond_trace. destruct (is_ok _); [by eexists|]. exists []. by rewrite app_nil_r.
Qed.

(** X16.  [processTransform] parses the parameters when they are given (an
    empty text counts as not given) and resolves the pair; the callback it
    hands over makes one call on the database: [chain] on the named
    collection with the transform as given and the parsed parameters,
    followed by [data()] unless [dataInvoke] is given and falsy.  Left out,
    or [null], [dataInvoke] counts as [true]. *)
Theorem transform_materialises_unless_told_not_to
    (s f c : string) (transform params dataInvoke : value) (rc : ResponseCallback)
    (w : World E) :
  match given params with
  | Throw x => processTransform s f c transform params dataInvoke rc w = (Throw x, w)
  | Ok params' =>
      ∃ cb, answer_of cb = rc ∧
        processTransform s f c transform params dataInvoke rc w = getDatabase s f cb w ∧
        ∀ db w1, ∃ pre,
          trace (on_database cb db w1).2 = trace w1 ++ pre ∧
          store_calls pre =
            calls_on db (ext w1) c None
              (c_chain c transform params' (nullish dataInvoke || truthy dataInvoke))
  end.
Proof.
  unfold processTransform, mbind, M_bind. rewrite parse_if_given_given.
  destruct (given params) as [params'|x]; [|done].
  eexists. split; [|split; [reflexivity|]]; [done|].
  intros db w1. unfold on_database, calls_on.
  replace (truthy (if nullish dataInvoke then VBool true else dataInvoke))
    with (nullish dataInvoke || truthy dataInvoke) by (by destruct dataInvoke).
  destruct db as [| |h]; [exists []; by rewrite app_nil_r..|].
  unfold collection_of, mbind, M_bind, read, emit, modify, ask. simpl.
  destruct (getCollection (ext w1) h c); simpl; [|exists []; by rewrite app_nil_r].
  destruct (coll_chain _ _ _ _ _ _) as [result|x]; simpl; [|by eexists].
  destruct (respond_store_calls rc (JSON_stringify result)
              (with_trace (trace w1 ++ [EvStore h (c_chain c transform params'
                 (nullish dataInvoke || truthy dataInvoke))]) w1)) as (pre & -> & Hpre).
  eexists. simpl. rewrite <- app_assoc. split; [done|].
  by rewrite store_calls_app, Hpre.
Qed.

(** X17.  [processDynamicViewTransform] given a raw transform parses it and
    resolves the pair; the callback it hands over makes one call on the
    database: the view is branched through the transform whose name was
    supplied (the name itself, not a fixed one), the raw transform is applied
    to the result and [data()] is called.  The parameters are parsed only
    when a name is supplied; without a name they are passed on as they
    came. *)
Theorem dynamicViewTransform_branches_through_the_supplied_name
    (s f c v : string) (name params raw raw' : value) (rc : ResponseCallback) (w : World E) :
  truthy raw = true →
  JSON_parse raw = Ok raw' →
  match (if truthy name then given params else Ok params) with
  | Throw x =>
      processDynamicViewTransform s f c v name params raw rc w = (Throw x, w)
  | Ok params' =>
      ∃ cb, answer_of cb = rc ∧
        processDynamicViewTransform s f c v name params raw rc w = getDatabase s f cb w ∧
        ∀ db w1, ∃ pre,
          trace (on_database cb db w1).2 = trace w1 ++ pre ∧
          store_calls pre =
            calls_on db (ext w1) c (Some v)
              (c_view_branch c v (if truthy name then name else VUndefined) params'
                 (Some raw'))
  end.
Proof.
  intros Hraw Hparse. unfold processDynamicViewTransform. rewrite Hraw. simpl.
  rewrite (bind_ok (lift (JSON_parse raw)) _ w raw' w) by (unfold lift; by rewrite Hparse).
  assert (∀ name' params', ∀ db w1, ∃ pre,
    trace (on_database (processDynamicViewTransform_cb c v name' params' raw' rc) db w1).2
      = trace w1 ++ pre ∧
    store_calls pre =
      calls_on db (ext w1) c (Some v) (c_view_branch c v name' params' (Some raw'))) as Hcb.
  { intros name' params' db w1. unfold on_database, calls_on.
    destruct db as [| |h]; [exists []; by rewrite app_nil_r..|].
    unfold collection_of, view_of, mbind, M_bind, read, emit, modify, ask. simpl.
    destruct (getCollection (ext w1) h c); simpl; [|exists []; by rewrite app_nil_r].
    destruct (getDynamicView (ext w1) h c v); simpl; [|exists []; by rewrite app_nil_r].
    destruct (view_branch _ _ _ _ _ _ _) as [result|x]; simpl; [|by eexists].
    destruct (respond_store_calls rc (JSON_stringify result)
                (with_trace (trace w1 ++ [EvStore h (c_view_branch c v name' params'
                   (Some raw'))]) w1)) as (pre & -> & Hpre).
    eexists. simpl. rewrite <- app_assoc. split; [done|].
    by rewrite store_calls_app, Hpre. }
  destruct (truthy name); simpl.
  - unfold mbind, M_bind. rewrite parse_if_given_given.
    destruct (given params) as [params'|x]; [|done]. simpl.
    eexists. split; [|split; [reflexivity|apply Hcb]]. done.
  - eexists. split; [|split; [reflexivity|apply Hcb]]. done.
Qed.

(** *** [shutdown] when [close] throws *)

Lemma for_each_app {A} (body : A → M unit) l1 l2 w :
  for_each body (l1 ++ l2) w =
    match for_each body l1 w with
    | (Ok _, w1) => for_each body l2 w1
    | (Throw x, w1) => (Throw x, w1)
    end.
Proof.
  revert w. induction l1 as [|a l1 IH]; intros w; [done|].
  change (for_each body ((a :: l1) ++ l2) w)
    with ((body a ;; for_each body (l1 ++ l2)) w).
  change (for_each body (a :: l1) w) with ((body a ;; for_each body l1) w).
  unfold mbind, M_bind. destruct (body a w) as [[[]|x] w1]; [apply IH|done].
Qed.

Lemma shutdown_entry_closed (x : string * string * RegistryEntry) (w : World E) :
  entry_of (databaseRegistry w) x.1.1 x.1.2 = Some x.2 →
  instance x.2 ≠ IOther →
  (∀ h, instance x.2 = IDb h → (db_close (ext w) h).1 = Ok tt) →
  shutdown_body x.1 w =
    (Ok tt, with_ext (close_entry (ext w) x) (with_trace (trace w ++ closing x) w)).
Proof.
  destruct x as [[s f] entry]. cbn [fst snd]. intros Hentry Hdb Hclose.
  unfold shutdown_body, closing, close_entry, mbind at 1, M_bind at 1, read.
  cbn [fst snd]. rewrite Hentry.
  destruct (instance entry) as [| |h]; [|done|].
  - rewrite app_nil_r. by destruct w.
  - unfold mbind, M_bind, emit, modify, call. simpl.
    pose proof (Hclose h eq_refl) as Hc.
    destruct (db_close (ext w) h) as [[[]|x] e]; [|done]. simpl.
    by rewrite <- !app_assoc.
Qed.

Lemma shutdown_prefix (l : list (string * string * RegistryEntry)) (w : World E) :
  (∀ x, x ∈ l →
     entry_of (databaseRegistry w) x.1.1 x.1.2 = Some x.2 ∧ instance x.2 ≠ IOther) →
  (∀ e h, h ∈ live l → (db_close e h).1 = Ok tt) →
  for_each shutdown_body l.*1 w =
    (Ok tt, with_ext (foldl close_entry (ext w) l) (with_trace (trace w ++ l ≫= closing) w)).
Proof.
  revert w. induction l as [|x l IH]; intros w Hentries Hclose.
  - simpl. rewrite app_nil_r. by destruct w.
  - rewrite fmap_cons.
    change (for_each shutdown_body (x.1 :: l.*1) w)
      with ((shutdown_body x.1 ;; for_each shutdown_body l.*1) w).
    destruct (Hentries x) as [Hx Hdb]; [by apply elem_of_cons; left|].
    unfold mbind, M_bind. rewrite shutdown_entry_closed, IH.
    + rewrite bind_cons. simpl. by rewrite <- app_assoc.
    + intros y Hy. apply Hentries. by apply elem_of_cons; right.
    + intros e h Hin. apply Hclose. unfold live. simpl.
      destruct (instance x.2); [done..|]. by apply elem_of_cons; right.
    + done.
    + done.
    + intros h Hinst. apply Hclose. unfold live. simpl. rewrite Hinst.
      by apply elem_of_cons; left.
Qed.

(** X19.  [shutdown] visits the pairs in the order the two loops find the
    keys of the registry and stops at the first instance it cannot close: a
    database whose [close] throws, or a value that is no database and has no
    [close].  The pairs visited before it have been closed and reported, one
    after the other; for the pair that fails the line is logged and, for a
    database, [close] is called, but the callback is not; the pairs that come
    after it in the visit are neither closed nor reported, and the exception
    leaves [shutdown]. *)
Theorem shutdown_stops_at_the_first_failure
    (w : World E) (l1 : list (string * string * RegistryEntry)) (l2 : list (string * string))
    (s f : string) (entry : RegistryEntry) (x : exn) :
  registry_pairs w = l1.*1 ++ (s, f) :: l2 →
  (∀ y, y ∈ l1 →
     entry_of (databaseRegistry w) y.1.1 y.1.2 = Some y.2 ∧ instance y.2 ≠ IOther) →
  (∀ e h', h' ∈ live l1 → (db_close e h').1 = Ok tt) →
  entry_of (databaseRegistry w) s f = Some entry →
  close_fails entry x →
  (exports_shutdown w).1 = Throw x ∧
  trace (exports_shutdown w).2 =
    trace w ++ (l1 ≫= closing) ++
      EvLog ("closing : " +:+ f) ::
      match instance entry with IDb h => [EvStore h c_close] | _ => [] end ∧
  closed (drop (length (trace w)) (trace (exports_shutdown w).2)) =
    live l1 ++ live [(s, f, entry)] ∧
  callbacks (drop (length (trace w)) (trace (exports_shutdown w).2)) =
    (λ _, (VNull, VUndefined)) <$> live l1.
Proof.
  intros Hall Hentries Hbefore Hentry Hfail.
  assert (exports_shutdown w = for_each shutdown_body (registry_pairs w) w)
    as -> by done.
  rewrite Hall, for_each_app, (shutdown_prefix _ _ Hentries Hbefore).
  change (for_each shutdown_body ((s, f) :: l2) ?w1)
    with ((shutdown_body (s, f) ;; for_each shutdown_body l2) w1).
  unfold shutdown_body, mbind, M_bind, read, emit, modify, call, throw. simpl.
  rewrite Hentry. unfold close_fails, live in *. simpl.
  destruct (instance entry) as [| |h]; [done|..].
  - subst x. simpl. split; [done|].
    split; [by rewrite <- !app_assoc|].
    rewrite <- !app_assoc, drop_app_length. split.
    + unfold closed. rewrite omap_app. fold (closed (l1 ≫= closing)).
      by rewrite closing_closed.
    + by rewrite callbacks_app, closing_callbacks, app_nil_r.
  - simpl. pose proof (Hfail (foldl close_entry (ext w) l1)) as Hc.
    destruct (db_close (foldl close_entry (ext w) l1) h) as [[[]|x'] e]; simpl in Hc; [done|].
    injection Hc as ->. simpl. split; [done|].
    split; [by rewrite <- !app_assoc|].
    rewrite <- !app_assoc, drop_app_length. split.
    + unfold closed. rewrite omap_app. fold (closed (l1 ≫= closing)).
      by rewrite closing_closed.
    + by rewrite callbacks_app, closing_callbacks, app_nil_r.
Qed.

(** *** What a callback does to the collaborators *)







End Properties.

(** ** Runs on the concrete host *)

Module Runs.
Import Demo.

(** C1.  Two first requests for one pair, the second issued before the
    initializer has answered the first: the initializer is called twice and
    two databases are built.  The example initializer hands the database it
    built last to both callbacks, and leaves the other one behind; an
    initializer that hands each callback the database built for it has the
    two requests served from two different databases.  Either way the entry
    written for the first request is replaced by the entry written for the
    second. *)
Theorem overlapping_first_requests_build_twice :
  overlapped.1 = [Ok tt; Ok tt; Ok tt; Ok tt] ∧
  inits (trace overlapped.2) = [(svc, file); (svc, file)] ∧
  length (dbs (ext overlapped.2)) = 2%nat ∧
  used (trace overlapped.2) = [1%nat; 1%nat] ∧
  overlapped_plain.1 = [Ok tt; Ok tt; Ok tt; Ok tt] ∧
  inits (trace overlapped_plain.2) = [(plain, file); (plain, file)] ∧
  length (dbs (ext overlapped_plain.2)) = 2%nat ∧
  used (trace overlapped_plain.2) = [0%nat; 1%nat] ∧
  instance <$> entry_of (databaseRegistry overlapped_plain.2) plain file = Some (IDb 1%nat).
Proof. by vm_compute. Qed.

(** C2.  After the same two requests have both completed (two callbacks with
    a result), the global bucket counts two requests and the only registered
    instance counts one: the statistics of the first entry went with it. *)
Theorem overlapping_first_requests_lose_a_count :
  overlapped.1 = [Ok tt; Ok tt; Ok tt; Ok tt] ∧
  length (callbacks (trace overlapped.2)) = 2%nat ∧
  totalRequests (requestStats overlapped.2) = 2 ∧
  getRequests (requestStats overlapped.2) = 2 ∧
  instance_requests (databaseRegistry overlapped.2) = 1 ∧
  length (allEntries (databaseRegistry overlapped.2)) = 1%nat.
Proof. by vm_compute. Qed.





(** C5.  A [dynamicView] request that names the registered transform
    [goddesses] asks the view for a transform called "transformName", which
    the collection does not have: the request throws
    and the callback is not called.  The same name given
    to [dynamicViewTransform] is passed on as it is. *)
Theorem dynamicView_asks_for_literal_name :
  by_name.1 = [Ok tt; Throw (Error "Invalid transform")] ∧
  store_calls (trace by_name.2) =
    [c_view_branch "users" "Youngsters" (VStr "transformName") VUndefined None] ∧
  callbacks (trace by_name.2) = [] ∧
  by_name_then_raw.1 = [Ok tt; Ok tt] ∧
  store_calls (trace by_name_then_raw.2) =
    [c_view_branch "users" "Youngsters" (VStr "goddesses") VUndefined (Some (VArr []))].
Proof. by vm_compute. Qed.

(** C6.  [instanceStats] for a pair that was never registered: the callback
    is called with [null] and no result, and then the export throws
    [TypeError], with the registry empty as well as with the initializer
    known and the file not. *)
Theorem instanceStats_of_unregistered_pair_throws :
  exports_instanceStats svc file (loaded boot) =
    (Throw TypeError, with_trace [EvCallback VNull VUndefined] (loaded boot)) ∧
  exports_instanceStats svc "other.db" warm =
    (Throw TypeError, with_trace (trace warm ++ [EvCallback VNull VUndefined]) warm).
Proof.
  split.
  - exact (instanceStats_unregistered (loaded boot) svc file eq_refl).
  - exact (instanceStats_unregistered warm svc "other.db" eq_refl).
Qed.

(** C7.  [shutdown] on the module as it is loaded, with no entry in the
    registry: the export returns and the host callback has not been called,
    so no completion is reported; the state of the module is as it was.  The
    same holds for a registry whose only entry holds [null]. *)
Theorem shutdown_of_empty_registry_is_silent :
  databaseRegistry (loaded boot) = ∅ ∧
  exports_shutdown (loaded boot) = (Ok tt, loaded boot) ∧
  callbacks (trace (exports_shutdown (loaded boot)).2) = [] ∧
  exports_shutdown hollow = (Ok tt, hollow).
Proof. by vm_compute. Qed.

Example shutdown_of_two_live_entries :
  closed (trace (exports_shutdown two_live).2) = [0%nat; 1%nat] ∧
  length (callbacks (trace (exports_shutdown two_live).2))
    = (2 + length (callbacks (trace two_live)))%nat.
Proof. by vm_compute. Qed.

Example shutdown_of_a_value_that_is_no_database :
  (exports_shutdown not_a_database).1 = Throw TypeError ∧
  trace (exports_shutdown not_a_database).2 = [EvLog "closing : ./demo1.db"] ∧
  (exports_instanceStats svc file not_a_database).1 = Throw TypeError.
Proof. by vm_compute. Qed.

(** C8, as stated, fails on the first [find] for a pair when the query does
    not parse: the request throws [SyntaxError], and the pair, which had no
    entry, has one.  It also fails on the empty text given to [transform] as
    parameters: [JSON.parse] rejects that text, but [transform] takes it for
    no parameters and does not parse it, and the request is served. *)
Lemma malformed_find_registers_instance :
  JSON_parse (VStr "{bad") = Throw SyntaxError ∧
  entry_of (databaseRegistry (loaded boot)) svc file = None ∧
  (run (served bad_find) (loaded boot)).1 = [Ok tt; Throw SyntaxError] ∧
  entry_of (databaseRegistry (run (served bad_find) (loaded boot)).2) svc file =
    Some {| instance := IDb 0%nat; stats := zero_stats |} ∧
  JSON_parse (VStr EmptyString) = Throw SyntaxError ∧
  (run [Call (op_data no_params)] warm).1 = [Ok tt] ∧
  store_calls (trace (run [Call (op_data no_params)] warm).2) =
    store_calls (trace warm) ++ [c_chain "users" (VStr "goddesses") VUndefined true] ∧
  length (callbacks (trace (run [Call (op_data no_params)] warm).2)) =
    S (length (callbacks (trace warm))).
Proof. by vm_compute. Qed.

Lemma malformed_parameter_throws_before_store_witness :
  parsed_before SyntaxError bad_raw ∧
  invoke_data bad_raw warm = (Throw SyntaxError, begun warm) ∧
  parsed_inside SyntaxError (op_find svc file "users" (VStr "{bad")) ∧
  entry_of (databaseRegistry warm) svc file = Some warm_entry ∧
  invoke_data (op_find svc file "users" (VStr "{bad")) warm = (Throw SyntaxError, begun warm).
Proof.
  assert (parsed_before SyntaxError bad_raw) as H1 by (by constructor).
  assert (parsed_inside SyntaxError (op_find svc file "users" (VStr "{bad"))) as H2
    by (by constructor).
  assert (entry_of (databaseRegistry warm) svc file = Some warm_entry) as H3
    by (vm_compute; reflexivity).
  split; [exact H1|].
  split; [exact (proj1 (malformed_parameter_throws_before_store SyntaxError bad_raw warm) H1)|].
  split; [exact H2|]. split; [exact H3|].
  exact (proj1 (proj2 (malformed_parameter_throws_before_store SyntaxError
                         (op_find svc file "users" (VStr "{bad")) warm) H2) warm_entry H3).
Defined.

Lemma insert_strips_surrogates_witness :
  parsed (VObj newcomer) = Ok (VObj newcomer) ∧
  ¬ unusable (VObj newcomer) ∧
  getCollection (ext warm) 0%nat "users" = true ∧
  zero_id newcomer = true ∧
  on_database (processInsert_cb "users" (VObj newcomer) answer) (IDb 0%nat) warm =
    (let w1 := with_trace (trace warm ++
                 [EvStore 0%nat (c_insert "users" (stripped (VObj newcomer)))]) warm in
     match coll_insert (ext warm) 0%nat "users" (stripped (VObj newcomer)) with
     | (Ok result, e) => respond answer (JSON_stringify result) (with_ext e w1)
     | (Throw x, e) => (Throw x, with_ext e w1)
     end) ∧
  stripped (VObj newcomer) = VObj (insert_form newcomer) ∧
  insert_form newcomer !! "$loki" = None ∧
  insert_form newcomer !! "meta" = None ∧
  insert_form newcomer !! "name" = Some (VStr "x").
Proof.
  assert (parsed (VObj newcomer) = Ok (VObj newcomer)) as H1 by reflexivity.
  assert (¬ unusable (VObj newcomer)) as H2.
  { intros Hu. inversion Hu as [| |o v Hv Ho]. subst o. vm_compute in Hv. discriminate Hv. }
  assert (getCollection (ext warm) 0%nat "users" = true) as H3 by (vm_compute; reflexivity).
  assert (zero_id newcomer = true) as H4 by reflexivity.
  split; [exact H1|]. split; [exact H2|]. split; [exact H3|]. split; [exact H4|].
  destruct (insert_strips_surrogates warm 0%nat "users" (VObj newcomer) (VObj newcomer)
              answer H1 H2 H3) as (Hcall & Hstripped & Hmeta & Hzero & _ & Hfield).
  split; [exact Hcall|]. split; [exact Hstripped|].
  split; [exact (Hzero H4)|]. split; [exact Hmeta|].
  by rewrite (Hfield "name").
Defined.

(** The record the store made of it carries the identity the store chose. *)
Example insert_of_zero_identity :
  callbacks (trace (run [Call (op_data (op_insert svc file "users" (VObj newcomer)))] warm).2)
    = callbacks (trace warm) ++ [(VNull, VStr "{name:'x',$loki:8}")].
Proof. by vm_compute. Qed.

(** *** The example initializer *)

Lemma set_transform_elem name k : name ∈ transforms (set_transform name k).
Proof.
  unfold set_transform. simpl. case_bool_decide; [done|].
  apply elem_of_app. right. by apply list_elem_of_singleton.
Qed.

Lemma set_transform_mono name name' k :
  name ∈ transforms k → name ∈ transforms (set_transform name' k).
Proof.
  intros Hin. unfold set_transform. simpl. case_bool_decide; [done|].
  apply elem_of_app. by left.
Qed.

Lemma set_transform_known name k :
  name ∈ transforms k →
  set_transform name k =
    {| data := data k; maxId := maxId k; transforms := transforms k; views := views k |}.
Proof. intros Hin. unfold set_transform. by rewrite bool_decide_eq_true_2. Qed.

Lemma add_view_known name k :
  name ∈ views k →
  add_view name k =
    {| data := data k; maxId := maxId k; transforms := transforms k; views := views k |}.
Proof. intros Hin. unfold add_view. by rewrite bool_decide_eq_true_2. Qed.

Lemma add_view_elem name k : name ∈ views (add_view name k).
Proof.
  unfold add_view. simpl. case_bool_decide; [done|].
  apply elem_of_app. right. by apply list_elem_of_singleton.
Qed.

Lemma dressed_known k :
  "goddesses" ∈ transforms k → "knowlege" ∈ transforms k → "Youngsters" ∈ views k →
  dressed k = k.
Proof.
  destruct k as [d m t v]. cbn [transforms views]. intros Hg Hk Hy.
  unfold dressed. unfold set_transform at 2. cbn [transforms views data maxId].
  rewrite (bool_decide_eq_true_2 _ Hg).
  unfold set_transform. cbn [transforms views data maxId].
  rewrite (bool_decide_eq_true_2 _ Hk).
  unfold add_view. cbn [transforms views data maxId].
  by rewrite (bool_decide_eq_true_2 _ Hy).
Qed.

Lemma dressed_twice k : dressed (dressed k) = dressed k.
Proof.
  apply dressed_known.
  - apply set_transform_mono, set_transform_elem.
  - apply set_transform_elem.
  - apply add_view_elem.
Qed.

(** The database after [seedDatabase]: two collections written, the rest as
    it was. *)
Lemma seedDatabase_collections (d : Db) :
  ∃ users locations,
    seedDatabase d =
      {| collections := <["users" := dressed users]>
                          (<["locations" := locations]> (collections d));
         closes := closes d |}.
Proof. unfold seedDatabase. by eexists _, _. Qed.

(** X18.  Seeding a database that has been seeded changes nothing: the
    collections and the view are there and are left alone, and the transforms
    are set to what they are. *)
Lemma seedDatabase_idempotent (d : Db) : seedDatabase (seedDatabase d) = seedDatabase d.
Proof.
  destruct (seedDatabase_collections d) as (users & locations & ->).
  unfold seedDatabase. cbn [collections closes].
  rewrite lookup_insert_eq, lookup_insert_ne, lookup_insert_eq by done.
  fold (dressed (dressed users)). rewrite dressed_twice. f_equal.
  apply map_eq. intros key.
  destruct (decide (key = "users")) as [->|Hu]; [by rewrite !lookup_insert_eq|].
  rewrite !(lookup_insert_ne _ "users") by done.
  destruct (decide (key = "locations")) as [->|Hl]; [by rewrite !lookup_insert_eq|].
  by rewrite !lookup_insert_ne.
Qed.

(** *** Runs of the further properties *)

Lemma served_requests_reuse_the_instance_witness :
  pending warm = [] ∧
  is_Some (entry_of (databaseRegistry warm) svc file) ∧
  instance <$> entry_of (databaseRegistry (run (serve [op_shutdown; get_thor]) warm).2) svc file
    = instance <$> entry_of (databaseRegistry warm) svc file ∧
  inits_for svc file (trace (run (serve [op_shutdown; get_thor]) warm).2)
    = inits_for svc file (trace warm).
Proof.
  assert (pending warm = []) as H1 by (vm_compute; reflexivity).
  assert (is_Some (entry_of (databaseRegistry warm) svc file)) as H2
    by (exists warm_entry; vm_compute; reflexivity).
  split; [exact H1|]. split; [exact H2|].
  exact (served_requests_reuse_the_instance [op_shutdown; get_thor] warm svc file H1 H2).
Defined.

Lemma registered_pairs_stay_registered_witness :
  is_Some (entry_of (databaseRegistry warm) svc file) ∧
  is_Some (entry_of (databaseRegistry
    (run [Call op_shutdown; Call get_thor; InitAnswers 0] warm).2) svc file).
Proof.
  assert (is_Some (entry_of (databaseRegistry warm) svc file)) as H1
    by (exists warm_entry; vm_compute; reflexivity).
  split; [exact H1|].
  exact (proj1 registered_pairs_stay_registered
           [Call op_shutdown; Call get_thor; InitAnswers 0] warm svc file H1).
Defined.

Lemma registered_pair_is_served_from_its_instance_witness :
  entry_of (databaseRegistry warm) svc file = Some warm_entry ∧
  instance warm_entry = IDb 0%nat ∧
  pending (invoke_data get_thor_again warm).2 = pending warm ∧
  ∃ pre, trace (invoke_data get_thor_again warm).2 = trace warm ++ pre ∧
    inits pre = [] ∧
    ∀ h, h ∈ used pre → instance warm_entry = IDb h.
Proof.
  assert (entry_of (databaseRegistry warm) svc file = Some warm_entry) as H1 by (vm_compute; reflexivity).
  split; [exact H1|]. split; [by vm_compute|].
  exact (registered_pair_is_served_from_its_instance get_thor_again warm warm_entry H1).
Defined.

Lemma completed_request_is_counted_under_its_name_witness :
  entry_of (databaseRegistry warm) svc file = Some warm_entry ∧
  invoke_data get_thor_again warm = (Ok tt, warm_twice) ∧
  ∃ (now : Z * Z) (entry' : RegistryEntry),
    counts_once s_get (to_ms now - to_ms (hrtime (ext warm)).1)
      (requestStats warm) (requestStats warm_twice) ∧
    entry_of (databaseRegistry warm_twice) svc file = Some entry' ∧
    instance entry' = instance warm_entry ∧
    counts_once s_get (to_ms now - to_ms (hrtime (ext warm)).1)
      (stats warm_entry) (stats entry') ∧
    ∀ s f, (s, f) ≠ (svc, file) →
      entry_of (databaseRegistry warm_twice) s f = entry_of (databaseRegistry warm) s f.
Proof.
  assert (entry_of (databaseRegistry warm) svc file = Some warm_entry) as H1 by (vm_compute; reflexivity).
  assert (invoke_data get_thor_again warm = (Ok tt, warm_twice)) as H2 by (vm_compute; reflexivity).
  split; [exact H1|]. split; [exact H2|].
  exact (completed_request_is_counted_under_its_name get_thor_again warm warm_twice
           warm_entry H1 H2).
Defined.

Lemma first_request_waits_for_its_initializer_witness :
  inherited svc = false ∧
  inherited file = false ∧
  entry_of (databaseRegistry (loaded boot)) svc file = None ∧
  (invoke_data get_thor_again (loaded boot)).1 = Ok tt ∧
  requestStats asking = zero_stats ∧
  (∀ s f, entry_of (databaseRegistry asking) s f = None) ∧
  ∃ n cb,
    (require_init svc file (hrtime boot).2).1 = Ok n ∧
    answer_of cb = export_cb s_get svc file ∧
    pending asking = [waiting svc file n cb] ∧
    trace asking = [EvInit svc file].
Proof.
  assert (inherited svc = false) as Hs by (vm_compute; reflexivity).
  assert (inherited file = false) as Hf by (vm_compute; reflexivity).
  assert (entry_of (databaseRegistry (loaded boot)) svc file = None) as H1
    by (vm_compute; reflexivity).
  split; [exact Hs|]. split; [exact Hf|]. split; [exact H1|]. split; [by vm_compute|].
  destruct (first_request_waits_for_its_initializer get_thor_again (loaded boot) Hs Hf H1)
    as (Hstats & Hentries & Hwait).
  split; [exact Hstats|]. split; [exact Hentries|]. exact Hwait.
Defined.

Lemma answer_registers_the_instance_witness :
  pending asking !! 0%nat = Some first_waiting ∧
  keyed first_waiting ∧
  databaseRegistry asking !! svc = Some ∅ ∧
  (initDone 0 asking).1 = Ok tt ∧
  pending (initDone 0 asking).2 = [] ∧
  ∃ entry' pre,
    entry_of (databaseRegistry (initDone 0 asking).2) svc file = Some entry' ∧
    instance entry' = IDb 0%nat ∧
    trace (initDone 0 asking).2 = trace asking ++ pre ∧
    (∀ h, h ∈ used pre → h = 0%nat) ∧
    totalRequests (stats entry') = 1 ∧
    getRequests (stats entry') = 1.
Proof.
  assert (pending asking !! 0%nat = Some first_waiting) as H1 by (vm_compute; reflexivity).
  assert (keyed first_waiting) as H2 by (vm_compute; reflexivity).
  assert (databaseRegistry asking !! svc = Some ∅) as H3 by (vm_compute; reflexivity).
  assert (answered first_waiting asking = IDb 0%nat) as H4 by (vm_compute; reflexivity).
  split; [exact H1|]. split; [exact H2|]. split; [exact H3|]. split; [by vm_compute|].
  destruct (answer_registers_the_instance 0 asking first_waiting ∅ H1 H2 H3)
    as (Hpending & _ & entry' & pre & Hentry & Hinst & Ht & _ & Hused & Hcount).
  split; [exact Hpending|]. exists entry', pre. split; [exact Hentry|].
  split; [by rewrite Hinst|]. split; [exact Ht|].
  split.
  { intros h Hin. specialize (Hused h Hin). rewrite H4 in Hused. by injection Hused. }
  change ((initDone 0 asking).1) with (Ok tt : res unit) in Hcount.
  destruct Hcount as (pre0 & h & call & result & e2 & _ & _ & _ & _ & (Htotal & _ & Hget) & _).
  split; [exact Htotal|]. exact (proj1 (Hget s_get)).
Defined.

Lemma null_instance_is_never_rebuilt_witness :
  entry_of (databaseRegistry hollow) svc file = Some no_instance ∧
  instance no_instance = INull ∧
  is_ok (invoke_data get_thor_again hollow).1 = false ∧
  trace (invoke_data get_thor_again hollow).2 = trace hollow ∧
  pending (invoke_data get_thor_again hollow).2 = pending hollow ∧
  requestStats (invoke_data get_thor_again hollow).2 = requestStats hollow ∧
  ∀ s f, entry_of (databaseRegistry (invoke_data get_thor_again hollow).2) s f =
         entry_of (databaseRegistry hollow) s f.
Proof.
  assert (entry_of (databaseRegistry hollow) svc file = Some no_instance) as H1 by (vm_compute; reflexivity).
  assert (instance no_instance = INull) as H2 by (vm_compute; reflexivity).
  split; [exact H1|]. split; [exact H2|].
  exact (null_instance_is_never_rebuilt get_thor_again hollow no_instance H1 H2).
Defined.

Lemma get_answers_with_the_record_or_null_witness :
  entry_of (databaseRegistry warm) svc file = Some warm_entry ∧
  instance warm_entry = IDb 0%nat ∧
  getCollection (hrtime (ext warm)).2 0%nat "users" = true ∧
  coll_get (hrtime (ext warm)).2 0%nat "users" (lookup_id (VStr "50")) = Ok None ∧
  (exports_get svc file "users" (VStr "50") warm).1 = Ok tt ∧
  trace (exports_get svc file "users" (VStr "50") warm).2 =
    trace warm ++ [EvStore 0%nat (c_get "users" (lookup_id (VStr "50")));
                   EvCallback VNull (JSON_stringify VNull)] ∧
  pending (exports_get svc file "users" (VStr "50") warm).2 = pending warm.
Proof.
  assert (entry_of (databaseRegistry warm) svc file = Some warm_entry) as H1 by (vm_compute; reflexivity).
  assert (instance warm_entry = IDb 0%nat) as H2 by (vm_compute; reflexivity).
  assert (getCollection (hrtime (ext warm)).2 0%nat "users" = true) as H3 by (vm_compute; reflexivity).
  assert (coll_get (hrtime (ext warm)).2 0%nat "users" (lookup_id (VStr "50")) = Ok None)
    as H4 by (vm_compute; reflexivity).
  split; [exact H1|]. split; [exact H2|]. split; [exact H3|]. split; [exact H4|].
  exact (get_answers_with_the_record_or_null warm svc file "users" (VStr "50") warm_entry
           0%nat None H1 H2 H3 H4).
Defined.

Lemma instanceStats_reports_the_pair_witness :
  entry_of (databaseRegistry warm) svc file = Some warm_entry ∧
  match instance warm_entry with
  | IDb h =>
      ∃ report : obj,
        exports_instanceStats svc file warm =
          (Ok tt, with_trace (trace warm ++ [EvStore h c_describe;
                    EvCallback VNull (JSON_stringify (VObj report))]) warm) ∧
        report !! "serviceName" = Some (VStr svc) ∧
        report !! "filename" = Some (VStr file) ∧
        report !! "requestStats" = Some (stats_value (stats warm_entry)) ∧
        report !! "collectionInfo" =
          Some (VArr (collection_value <$> db_collections (ext warm) h))
  | INull | IOther => exports_instanceStats svc file warm = (Throw TypeError, warm)
  end.
Proof.
  assert (entry_of (databaseRegistry warm) svc file = Some warm_entry) as H1 by (vm_compute; reflexivity).
  split; [exact H1|].
  exact (instanceStats_reports_the_pair warm svc file warm_entry H1).
Defined.

Lemma unusable_payload_is_rejected_before_the_store_witness :
  parsed (VStr "null") = Ok VNull ∧
  unusable VNull ∧
  on_database (processInsert_cb "users" (VStr "null") answer) (IDb 0%nat) warm
    = (Throw TypeError, warm) ∧
  on_database (processUpdate_cb "users" (VStr "null") answer) (IDb 0%nat) warm
    = (Throw TypeError, warm).
Proof.
  assert (parsed (VStr "null") = Ok VNull) as H1 by (vm_compute; reflexivity).
  assert (unusable VNull) as H2 by constructor.
  split; [exact H1|]. split; [exact H2|].
  exact (unusable_payload_is_rejected_before_the_store "users" (VStr "null") VNull answer
           (IDb 0%nat) warm H1 H2).
Defined.

Lemma dynamicViewTransform_branches_through_the_supplied_name_witness :
  truthy (VStr "[]") = true ∧
  JSON_parse (VStr "[]") = Ok (VArr []) ∧
  ∃ cb, answer_of cb = answer ∧
    processDynamicViewTransform svc file "users" "Youngsters" (VStr "goddesses") VUndefined
      (VStr "[]") answer warm = getDatabase svc file cb warm ∧
    ∀ db w1, ∃ pre,
      trace (on_database cb db w1).2 = trace w1 ++ pre ∧
      store_calls pre =
        calls_on db (ext w1) "users" (Some "Youngsters")
          (c_view_branch "users" "Youngsters" (VStr "goddesses") VUndefined (Some (VArr []))).
Proof.
  assert (truthy (VStr "[]") = true) as H1 by (vm_compute; reflexivity).
  assert (JSON_parse (VStr "[]") = Ok (VArr [])) as H2 by (vm_compute; reflexivity).
  split; [exact H1|]. split; [exact H2|].
  exact (dynamicViewTransform_branches_through_the_supplied_name svc file "users"
           "Youngsters" (VStr "goddesses") VUndefined (VStr "[]") (VArr []) answer warm H1 H2).
Defined.

Lemma text_and_value_are_interchangeable_witness :
  JSON_parse (VStr "{}") = Ok (VObj ∅) ∧
  is_string (VObj ∅) = false ∧
  on_database (processFind_cb "users" (VStr "{}") answer) (IDb 0%nat) warm
    = on_database (processFind_cb "users" (VObj ∅) answer) (IDb 0%nat) warm ∧
  on_database (processInsert_cb "users" (VStr "{}") answer) (IDb 0%nat) warm
    = on_database (processInsert_cb "users" (VObj ∅) answer) (IDb 0%nat) warm ∧
  on_database (processUpdate_cb "users" (VStr "{}") answer) (IDb 0%nat) warm
    = on_database (processUpdate_cb "users" (VObj ∅) answer) (IDb 0%nat) warm ∧
  on_database (processRemove_cb "users" (VStr "{}") answer) (IDb 0%nat) warm
    = on_database (processRemove_cb "users" (VObj ∅) answer) (IDb 0%nat) warm.
Proof.
  assert (JSON_parse (VStr "{}") = Ok (VObj ∅)) as H1 by (vm_compute; reflexivity).
  assert (is_string (VObj ∅) = false) as H2 by reflexivity.
  split; [exact H1|]. split; [exact H2|].
  exact (text_and_value_are_interchangeable "users" "{}" (VObj ∅) answer (IDb 0%nat) warm
           H1 H2).
Defined.

Lemma missing_collection_or_view_throws_witness :
  getCollection (ext warm) 0%nat "nowhere" = false ∧
  ∃ x, on_database (processGet_cb "nowhere" (VStr "3") answer) (IDb 0%nat) warm
         = (Throw x, warm).
Proof.
  assert (getCollection (ext warm) 0%nat "nowhere" = false) as H1
    by (vm_compute; reflexivity).
  split; [exact H1|].
  exact (missing_collection_or_view_throws (processGet_cb "nowhere" (VStr "3") answer)
           0%nat warm (or_introl H1)).
Defined.

Lemma shutdown_stops_at_the_first_failure_witness :
  registry_pairs two_live = [(svc, file, entry_at file)].*1 ++ (svc, "b.db") :: [] ∧
  instance (entry_at file) = IDb 0%nat ∧
  instance (entry_at "b.db") = IDb 1%nat ∧
  (@exports_shutdown Env stuck two_live).1 = Throw (Error "close failed") ∧
  trace (@exports_shutdown Env stuck two_live).2 =
    trace two_live ++ ([(svc, file, entry_at file)] ≫= closing) ++
      EvLog ("closing : " +:+ "b.db") ::
      match instance (entry_at "b.db") with IDb h => [EvStore h c_close] | _ => [] end ∧
  closed (drop (length (trace two_live)) (trace (@exports_shutdown Env stuck two_live).2)) =
    live [(svc, file, entry_at file)] ++ live [(svc, "b.db", entry_at "b.db")] ∧
  callbacks (drop (length (trace two_live)) (trace (@exports_shutdown Env stuck two_live).2)) =
    (λ _, (VNull, VUndefined)) <$> live [(svc, file, entry_at file)].
Proof.
  assert (registry_pairs two_live = [(svc, file, entry_at file)].*1 ++ (svc, "b.db") :: [])
    as H1 by (vm_compute; reflexivity).
  assert (instance (entry_at file) = IDb 0%nat) as Hfirst by (vm_compute; reflexivity).
  assert (instance (entry_at "b.db") = IDb 1%nat) as Hsecond by (vm_compute; reflexivity).
  assert (∀ y, y ∈ [(svc, file, entry_at file)] →
    entry_of (databaseRegistry two_live) y.1.1 y.1.2 = Some y.2 ∧ instance y.2 ≠ IOther) as H2.
  { intros y Hy. apply list_elem_of_singleton in Hy. subst y. cbn [fst snd].
    split; [vm_compute; reflexivity|]. rewrite Hfirst. discriminate. }
  assert (∀ (e : Env) (h' : handle),
    h' ∈ live [(svc, file, entry_at file)] → (@db_close Env stuck e h').1 = Ok tt) as H3.
  { intros e h' Hin. unfold live in Hin. cbn [omap list_omap snd] in Hin.
    rewrite Hfirst in Hin. apply list_elem_of_singleton in Hin. subst h'. reflexivity. }
  assert (entry_of (databaseRegistry two_live) svc "b.db" = Some (entry_at "b.db")) as H4
    by (vm_compute; reflexivity).
  assert (@close_fails Env stuck (entry_at "b.db") (Error "close failed")) as H5.
  { unfold close_fails. rewrite Hsecond. intros e. reflexivity. }
  split; [exact H1|]. split; [exact Hfirst|]. split; [exact Hsecond|].
  exact (@shutdown_stops_at_the_first_failure Env stuck two_live [(svc, file, entry_at file)]
           [] svc "b.db" (entry_at "b.db") (Error "close failed") H1 H2 H3 H4 H5).
Defined.

(** The visit of the keys: the indices first, in ascending order, then the
    other keys as they were created.  [01] is no index. *)
Example forIn_visits_indices_first :
  forIn ["b"; "10"; "a"; "9"; "01"] = ["9"; "10"; "b"; "a"; "01"].
Proof. by vm_compute. Qed.

Lemma stats_lists_the_registered_pairs_witness :
  forallb own_names
    (served get_thor ++ served (op_data (op_get svc "b.db" "users" (VStr "3")))) = true ∧
  (exports_stats two_live).1 = Ok tt ∧
  serviceStats (exports_stats two_live).2 !! "instanceNames" =
    Some (VArr (name_value <$> [(svc, file); (svc, "b.db")])) ∧
  NoDup (registry_pairs two_live).
Proof.
  assert (forallb own_names
    (served get_thor ++ served (op_data (op_get svc "b.db" "users" (VStr "3")))) = true) as H1
    by (vm_compute; reflexivity).
  assert (registry_pairs two_live = [(svc, file); (svc, "b.db")]) as Hpairs
    by (vm_compute; reflexivity).
  destruct (stats_lists_the_registered_pairs
              (served get_thor ++ served (op_data (op_get svc "b.db" "users" (VStr "3"))))
              boot H1) as (Hok & _ & _ & Hnames & _ & _ & _ & _ & _ & _ & Hnodup & _).
  split; [exact H1|]. split; [exact Hok|]. split; [|exact Hnodup].
  rewrite <- Hpairs. exact Hnames.
Defined.

(** Two overlapping first requests on a clock that advances by one
    millisecond at every reading: the requests start at 0 and at 1 and
    complete at 2 and at 3, and the times recorded for them are 1 and 2. *)
Example overlapping_requests_are_timed_from_the_later_start :
  Qeq (started overlapped.2) 1 ∧
  Qeq (totalTime (requestStats overlapped.2)) 3 ∧
  (λ entry, Qeq_bool (totalTime (stats entry)) 2)
    <$> entry_of (databaseRegistry overlapped.2) svc file = Some true.
Proof. by vm_compute. Qed.

(** *** The example initializer and two files *)













End Runs.
